(** * Solar-Impact: admin event editor, year search and admin API

    A shallow embedding of the parts of [App.jsx] (the React front end) and
    [admin.js] (the Express admin API) that the specification talks about:
    the date input shaping and the date round trip of the event editor, the
    required-field validation and the primary Save, the media index after a
    delete, the caption-reset effect, the year search of the public timeline,
    and the login, account, profile and event routes of the admin API.

    JavaScript strings are sequences of UTF-16 code units; handlers that
    [await] network or database calls are written in a small free monad whose
    continuations receive the awaited result. *)

From Stdlib Require Import ZArith NArith List Bool Lia String Ascii.
From Stdlib Require Import DecimalString Sorted Permutation.
Import ListNotations.
Open Scope Z_scope.

(* ================================================================== *)
(** * JavaScript strings *)
(* ================================================================== *)

Module JS.

(** A UTF-16 code unit. *)
Definition char := N.
Definition jsstring := list char.

(** A literal of the source, written as a Rocq string of ASCII characters. *)
Definition lit (s : string) : jsstring :=
  List.map N_of_ascii (list_ascii_of_string s).

Definition slash : char := 47%N.
Definition dash : char := 45%N.

(** [\d] of a regular expression without the unicode flag: [0-9]. *)
Definition isDigit (c : char) : bool := ((48 <=? c) && (c <=? 57))%N.

(** The characters [String.prototype.trim] removes: WhiteSpace and
    LineTerminator of ECMAScript. *)
Definition isWhiteSpace (c : char) : bool :=
  (((9 <=? c) && (c <=? 13)) || (c =? 32) || (c =? 160) || (c =? 5760)
   || ((8192 <=? c) && (c <=? 8202)) || (c =? 8232) || (c =? 8233)
   || (c =? 8239) || (c =? 8287) || (c =? 12288) || (c =? 65279))%N.

Fixpoint trimStart (s : jsstring) : jsstring :=
  match s with
  | [] => []
  | c :: r => if isWhiteSpace c then trimStart r else s
  end.

Definition trimEnd (s : jsstring) : jsstring := rev (trimStart (rev s)).

Definition trim (s : jsstring) : jsstring := trimEnd (trimStart s).

(** Truthiness of a string: the empty string is the only falsy one. *)
Definition truthy (s : jsstring) : bool :=
  match s with [] => false | _ :: _ => true end.

(** [s.length] *)
Definition len (s : jsstring) : Z := Z.of_nat (List.length s).

(** [s.slice(a, b)] for [0 <= a <= b]. *)
Definition slice (a b : nat) (s : jsstring) : jsstring :=
  firstn (b - a) (skipn a s).

(** [s.replace(/\D/g, '')] *)
Definition digitsOf (s : jsstring) : jsstring := filter isDigit s.

(** [s.split(sep)] for a one-character separator: never an empty array. *)
Fixpoint split (sep : char) (s : jsstring) : list jsstring :=
  match s with
  | [] => [[]]
  | c :: r =>
      if (c =? sep)%N then [] :: split sep r
      else match split sep r with
           | [] => [[c]]
           | h :: t => (c :: h) :: t
           end
  end.

(** An array element read by destructuring or by index: [None] is
    [undefined]. *)
Definition at_ {A : Type} (l : list A) (i : Z) : option A :=
  if i <? 0 then None else nth_error l (Z.to_nat i).

(** A value interpolated in a template literal. *)
Definition interp (v : option jsstring) : jsstring :=
  match v with Some s => s | None => lit "undefined" end.

Fixpoint eqb (a b : jsstring) : bool :=
  match a, b with
  | [], [] => true
  | x :: a', y :: b' => (x =? y)%N && eqb a' b'
  | _, _ => false
  end.

(** [/^\d{2}\/\d{2}\/\d{4}$/.test(s)] *)
Definition testDisplayDate (s : jsstring) : bool :=
  match s with
  | [m1; m2; s1; d1; d2; s2; y1; y2; y3; y4] =>
      isDigit m1 && isDigit m2 && (s1 =? slash)%N
      && isDigit d1 && isDigit d2 && (s2 =? slash)%N
      && isDigit y1 && isDigit y2 && isDigit y3 && isDigit y4
  | _ => false
  end.

(** [/^\d{4}$/.test(s)] *)
Definition testFourDigits (s : jsstring) : bool :=
  match s with
  | [a; b; c; d] => isDigit a && isDigit b && isDigit c && isDigit d
  | _ => false
  end.

(** [parseInt(s, 10)] on a string of decimal digits. *)
Definition parseInt (s : jsstring) : Z :=
  fold_left (fun acc c => 10 * acc + (Z.of_N c - 48)) s 0.

(** [String(n)] for an integer [n]. *)
Definition ofZ (n : Z) : jsstring := lit (NilZero.string_of_int (Z.to_int n)).

End JS.

Import JS.

(* ================================================================== *)
(** * Event editor: date input shaping and date forms *)
(* ================================================================== *)

Module DateField.

(** The tail of [handleDateInputChange]: the digits cut into MM, DD and
    YYYY and joined with slashes. *)
Definition segment (digits : jsstring) : jsstring :=
  let mm := slice 0 2 digits in
  let dd := slice 2 4 digits in
  let yyyy := slice 4 8 digits in
  let formatted := [] in
  let formatted := if truthy mm then mm else formatted in
  let formatted :=
    if truthy dd
    then formatted ++ (if truthy formatted then [slash] else []) ++ dd
    else formatted in
  let formatted :=
    if truthy yyyy
    then formatted ++ (if truthy formatted then [slash] else []) ++ yyyy
    else formatted in
  formatted.

(** [handleDateInputChange(raw)] of the event modal: the new value of
    [form.date], given its previous value. *)
Definition handleDateInputChange (previous raw : jsstring) : jsstring :=
  let prevDigits := digitsOf previous in
  let digits := digitsOf raw in
  if (8 <=? len prevDigits) && (len prevDigits <? len digits)
  then previous
  else
    let digits := if 8 <? len digits then slice 0 8 digits else digits in
    segment digits.

(** [handleSaveEvent]: the ISO date built from MM/DD/YYYY; [None] is
    [null]. *)
Definition buildIsoDate (date : jsstring) : option jsstring :=
  if truthy date && (len date =? 10) then
    let parts := split slash date in
    match at_ parts 0, at_ parts 1, at_ parts 2 with
    | Some mm, Some dd, Some yyyy =>
        if truthy mm && truthy dd && truthy yyyy && (len yyyy =? 4)
        then Some (yyyy ++ [dash] ++ mm ++ [dash] ++ dd)
        else None
    | _, _, _ => None
    end
  else None.

(** [openEventModal]: the display date made of the stored [event_date]
    ([None] when the row has none). *)
Definition displayDateOf (event_date : option jsstring) : jsstring :=
  let iso :=
    match event_date with
    | Some d => if truthy d then slice 0 10 d else []
    | None => []
    end in
  if truthy iso then
    let parts := split dash iso in
    interp (at_ parts 1) ++ [slash] ++ interp (at_ parts 2)
      ++ [slash] ++ interp (at_ parts 0)
  else [].

(** [/^\d{4}-\d{2}-\d{2}$/]: the storage form of a calendar day. *)
Definition testIsoDate (s : jsstring) : bool :=
  match s with
  | [y1; y2; y3; y4; s1; m1; m2; s2; d1; d2] =>
      isDigit y1 && isDigit y2 && isDigit y3 && isDigit y4 && (s1 =? dash)%N
      && isDigit m1 && isDigit m2 && (s2 =? dash)%N
      && isDigit d1 && isDigit d2
  | _ => false
  end.

(** The values [form.date] takes while the editor is open: the empty
    string when it opens in create mode, the display date of the stored date
    when it opens in edit mode, and from then on what
    [handleDateInputChange] makes of the text of the input. *)
Inductive editorDate : jsstring -> Prop :=
| date_of_new_event : editorDate []
| date_of_stored_event (iso rest : jsstring) :
    testIsoDate iso = true ->
    editorDate (displayDateOf (Some (iso ++ rest)))
| date_after_input (previous raw : jsstring) :
    editorDate previous ->
    editorDate (handleDateInputChange previous raw).

End DateField.

Import DateField.

(* ================================================================== *)
(** * Rows and objects shared by the front end and the API *)
(* ================================================================== *)

(** A row of [solar_events] as the API returns it; [None] is SQL NULL. *)
Record EventRow := {
  ev_id : Z;
  ev_event_date : option jsstring;
  ev_event_type : option jsstring;
  ev_location : option jsstring;
  ev_title : option jsstring;
  ev_short_description : option jsstring;
  ev_summary : option jsstring;
  ev_impact_on_communication : option jsstring
}.

(** An opaque [File] object. *)
Definition File := Z.

(** A media item of the editor, an object whose fields are optional: a
    persisted item (a row of [media_assets]) has [id] and [url], a queued
    one has [localId], [file] and [previewUrl]. [None] is [undefined] or
    [null]. *)
Record MediaItem := {
  id : option Z;
  localId : option jsstring;
  url : option jsstring;
  previewUrl : option jsstring;
  file : option File;
  caption : option jsstring
}.

(** The item [uploadAddArticle] queues in create mode. *)
Definition queuedItem (lid : jsstring) (f : File) (preview cap : jsstring)
  : MediaItem :=
  {| id := None; localId := Some lid; url := None;
     previewUrl := Some preview; file := Some f; caption := Some cap |}.

(** A row [GET /api/admin/events/:eventId/media] returns. *)
Definition persistedItem (i : Z) (u : jsstring) (cap : option jsstring)
  : MediaItem :=
  {| id := Some i; localId := None; url := Some u;
     previewUrl := None; file := None; caption := cap |}.

(** [v || ''] for a string that may be missing. *)
Definition orEmpty (v : option jsstring) : jsstring :=
  match v with Some s => s | None => [] end.

(** [v || null] for a string that may be missing. *)
Definition orNull (v : option jsstring) : option jsstring :=
  match v with
  | Some s => if truthy s then Some s else None
  | None => None
  end.

(** Truthiness of a string that may be missing. *)
Definition truthyOpt (v : option jsstring) : bool := truthy (orEmpty v).

Definition optZ_eqb (a b : option Z) : bool :=
  match a, b with
  | Some x, Some y => x =? y
  | None, None => true
  | _, _ => false
  end.

Definition optStr_eqb (a b : option jsstring) : bool :=
  match a, b with
  | Some x, Some y => JS.eqb x y
  | None, None => true
  | _, _ => false
  end.

(* ================================================================== *)
(** * Event editor: validation and primary Save *)
(* ================================================================== *)

Module Editor.

(** [eventForm]: the seven fields of the draft. *)
Record EventForm := {
  date : jsstring;
  event_type : jsstring;
  location : jsstring;
  title : jsstring;
  short_description : jsstring;
  summary : jsstring;
  impact_on_communication : jsstring
}.

(** [eventErrors]: one message per field, empty when the field is fine. *)
Record EventErrors := {
  err_date : jsstring;
  err_event_type : jsstring;
  err_location : jsstring;
  err_title : jsstring;
  err_short_description : jsstring;
  err_summary : jsstring;
  err_impact_on_communication : jsstring
}.

Definition requiredMissing : jsstring := lit "* Required field missing".

(** [Object.values(next)] *)
Definition errorValues (e : EventErrors) : list jsstring :=
  [err_date e; err_event_type e; err_location e; err_title e;
   err_short_description e; err_summary e; err_impact_on_communication e].

Definition isValidDate (val : jsstring) : bool := testDisplayDate (trim val).

Definition requiredError (v : jsstring) : jsstring :=
  if negb (truthy (trim v)) then requiredMissing else [].

(** [validateEventForm]: the errors it stores with [setEventErrors] and
    the boolean it returns. *)
Definition validateEventForm (form : EventForm) : EventErrors * bool :=
  let next :=
    {| err_date := if negb (isValidDate (date form)) then requiredMissing else [];
       err_event_type := requiredError (event_type form);
       err_location := requiredError (location form);
       err_title := requiredError (title form);
       err_short_description := requiredError (short_description form);
       err_summary := requiredError (summary form);
       err_impact_on_communication :=
         requiredError (impact_on_communication form) |} in
  (next, negb (existsb truthy (errorValues next))).

(** The JSON body [handleSaveEvent] sends. *)
Record Payload := {
  p_event_date : option jsstring;
  p_event_type : option jsstring;
  p_location : jsstring;
  p_title : jsstring;
  p_short_description : jsstring;
  p_summary : jsstring;
  p_impact_on_communication : jsstring
}.

(** The requests of the editor. *)
Inductive HttpRequest :=
| PostEvent (payload : Payload)
    (* POST /api/admin/events *)
| PutEvent (eventId : Z) (payload : Payload)
    (* PUT /api/admin/events/:id *)
| PostEventMedia (eventId : Z) (f : option File) (cap : jsstring)
    (* POST /api/admin/events/:id/media, multipart: file, caption *)
| GetEvents.
    (* GET /api/admin/events *)

(** What the handlers read of a response body: a JSON object with its
    [id], [error] and [details], a JSON array of rows, or text (any
    content type but application/json). *)
Inductive ResBody :=
| JsonObject (rid : option Z) (error details : option jsstring)
| JsonArray (rows : list EventRow)
| TextBody (s : jsstring).

Record HttpResponse := { ok : bool; status : Z; body : ResBody }.

(** The state setters the handlers call. *)
Inductive Setter :=
| SetEventTriedSubmit (b : bool)
| SetEventErrors (e : EventErrors)
| SetEventSaving (b : bool)
| SetCreateMediaUploading (b : bool)
| SetCreateMediaUploadingText (s : jsstring)
| SetCreateQueuedMedia (l : list MediaItem)
| SetCreateMediaIndex (i : Z)
| SetEventsLoading (b : bool)
| SetEventsError (s : jsstring)
| SetAdminEvents (rows : list EventRow)
| SetEventModalOpen (b : bool)
| SetEditingEvent (e : option EventRow)
| SetIsCreatingEvent (b : bool)
| SetEventMedia (l : list MediaItem)
| SetEventMediaIndex (i : Z)
| SetEventMediaError (s : jsstring)
| SetNewMediaUrl (s : jsstring)
| SetNewMediaCaption (s : jsstring)
| SetAddArticleOpen (b : bool)
| SetMediaUploadError (s : jsstring)
| SetMediaUploadBusy (b : bool)
| SetMediaDeleteOpen (b : bool)
| SetMediaDeleteTarget (m : option MediaItem).

Inductive UiEffect :=
| Set_ (s : Setter)
| Alert (msg : jsstring)
| RevokeObjectURL (u : jsstring)
| ConsoleError.

(** An async handler: it is done, performs an effect and goes on, or awaits
    a [fetch] and goes on with the response. Every awaited request is
    answered: a [fetch] that rejects and a body that fails to parse are
    left out. *)
Inductive Prog :=
| Done
| Emit (e : UiEffect) (k : Prog)
| Await (r : HttpRequest) (k : HttpResponse -> Prog).

Declare Scope prog_scope.
Delimit Scope prog_scope with prog.
Notation "e ;; k" := (Emit e k)
  (at level 61, right associativity) : prog_scope.
Notation "'let*' x ':=' 'fetch' r 'in' k" := (Await r (fun x => k))
  (at level 61, x name, r at next level, right associativity) : prog_scope.
Open Scope prog_scope.

(** What an observer sees of a run. *)
Inductive Event :=
| Sent (r : HttpRequest)
| Did (e : UiEffect).

(** Runs a handler against a network whose [n]-th awaited request gets
    the response [net n]. *)
Fixpoint run (p : Prog) (net : nat -> HttpResponse) (n : nat) : list Event :=
  match p with
  | Done => []
  | Emit e k => Did e :: run k net n
  | Await r k => Sent r :: run (k (net n)) net (S n)
  end.

(** The requests of a run, in the order they were issued. *)
Fixpoint requests (t : list Event) : list HttpRequest :=
  match t with
  | [] => []
  | Sent r :: t' => r :: requests t'
  | Did _ :: t' => requests t'
  end.

(** Whether a request is the create call. *)
Definition isCreate (r : HttpRequest) : bool :=
  match r with
  | PostEvent _ => true
  | _ => false
  end.

(** The modal closes: [setEventModalOpen(false)]. *)
Definition closing : Event := Did (Set_ (SetEventModalOpen false)).

(** The upload of one queued item under the created event: the file and
    the trimmed caption. *)
Definition uploadOf (createdId : Z) (m : MediaItem) : HttpRequest :=
  PostEventMedia createdId (file m) (trim (orEmpty (caption m))).

(** The state a render of the admin page closes over. *)
Record Snapshot := {
  eventForm : EventForm;
  isCreatingEvent : bool;
  editingEvent : option EventRow;
  createQueuedMedia : list MediaItem
}.

Definition httpStatus (st : Z) : jsstring := lit "HTTP " ++ ofZ st.

(** The message of the error thrown for a response that is not ok. *)
Definition errorMessage (data : ResBody) (fallback : jsstring) : jsstring :=
  match data with
  | JsonObject _ error details =>
      if truthyOpt error then orEmpty error
      else if truthyOpt details then orEmpty details
      else fallback
  | JsonArray _ => fallback
  | TextBody s => if truthy s then s else fallback
  end.

(** [data?.id] *)
Definition idOf (data : ResBody) : option Z :=
  match data with
  | JsonObject rid _ _ => rid
  | _ => None
  end.

(** The [finally] block of [handleSaveEvent]. *)
Definition finallyBlock (k : Prog) : Prog :=
  Set_ (SetEventSaving false) ;;
  Set_ (SetCreateMediaUploading false) ;;
  Set_ (SetCreateMediaUploadingText []) ;;
  k.

(** The [catch] block of [handleSaveEvent], then its [finally]. *)
Definition catchBlock (message : jsstring) : Prog :=
  ConsoleError ;;
  Alert (if truthy message then message
         else lit "Failed to save event. Please try again.") ;;
  finallyBlock Done.

(** [loadAdminEvents], continued with the rows it returns. *)
Definition loadAdminEvents (k : list EventRow -> Prog) : Prog :=
  Set_ (SetEventsLoading true) ;;
  Set_ (SetEventsError []) ;;
  let* res := fetch GetEvents in
  let failed :=
    ConsoleError ;;
    Set_ (SetEventsError (lit "Unable to load events from the database.")) ;;
    Set_ (SetEventsLoading false) ;;
    k [] in
  if negb (ok res) then failed
  else
    match body res with
    | TextBody _ => failed
    | JsonArray rows =>
        Set_ (SetAdminEvents rows) ;; Set_ (SetEventsLoading false) ;; k rows
    | JsonObject _ _ _ =>
        Set_ (SetAdminEvents []) ;; Set_ (SetEventsLoading false) ;; k []
    end.

(** [createQueuedMedia.forEach] revoking each preview URL. *)
Fixpoint revokePreviews (queue : list MediaItem) (k : Prog) : Prog :=
  match queue with
  | [] => k
  | m :: rest =>
      if truthyOpt (previewUrl m)
      then RevokeObjectURL (orEmpty (previewUrl m)) ;; revokePreviews rest k
      else revokePreviews rest k
  end.

(** [closeEventModal] *)
Definition closeEventModal (s : Snapshot) (k : Prog) : Prog :=
  (if isCreatingEvent s && (0 <? Z.of_nat (List.length (createQueuedMedia s)))
   then revokePreviews (createQueuedMedia s)
   else fun k => k)
  (Set_ (SetEventModalOpen false) ;;
   Set_ (SetEditingEvent None) ;;
   Set_ (SetIsCreatingEvent false) ;;
   Set_ (SetEventMedia []) ;;
   Set_ (SetEventMediaIndex 0) ;;
   Set_ (SetEventMediaError []) ;;
   Set_ (SetNewMediaUrl []) ;;
   Set_ (SetNewMediaCaption []) ;;
   Set_ (SetCreateQueuedMedia []) ;;
   Set_ (SetCreateMediaIndex 0) ;;
   Set_ (SetAddArticleOpen false) ;;
   Set_ (SetMediaUploadError []) ;;
   Set_ (SetMediaUploadBusy false) ;;
   Set_ (SetMediaDeleteOpen false) ;;
   Set_ (SetMediaDeleteTarget None) ;;
   k).

(** The text shown while the [i]-th (from 0) of [total] queued images is
    uploaded; it ends with an ellipsis character. *)
Definition uploadingText (i total : Z) : jsstring :=
  lit "Uploading article image " ++ ofZ (i + 1) ++ lit " of " ++ ofZ total
    ++ [8230%N].

(** The [for] loop of [handleSaveEvent] over the queued media, from index
    [i] on, continued with [k] when every upload was ok. *)
Fixpoint uploadQueued (createdId total i : Z) (queue : list MediaItem)
  (k : Prog) : Prog :=
  match queue with
  | [] => k
  | m :: rest =>
      Set_ (SetCreateMediaUploadingText (uploadingText i total)) ;;
      let* upRes := fetch (uploadOf createdId m) in
      if negb (ok upRes) then
        catchBlock
          (errorMessage (body upRes)
             (lit "Media upload failed (HTTP " ++ ofZ (status upRes) ++ lit ")"))
      else
        (if truthyOpt (previewUrl m)
         then Emit (RevokeObjectURL (orEmpty (previewUrl m)))
         else fun k => k)
        (uploadQueued createdId total (i + 1) rest k)
  end.

(** The [payload] of [handleSaveEvent]: the ISO date and the trimmed
    fields. *)
Definition buildPayload (form : EventForm) : Payload :=
  let isoDate := buildIsoDate (date form) in
  {| p_event_date := isoDate;
     p_event_type := orNull (Some (event_type form));
     p_location := trim (location form);
     p_title := trim (title form);
     p_short_description := trim (short_description form);
     p_summary := trim (summary form);
     p_impact_on_communication := trim (impact_on_communication form) |}.

(** [handleSaveEvent] *)
Definition handleSaveEvent (s : Snapshot) : Prog :=
  let payload := buildPayload (eventForm s) in
  let missing :=
    negb (truthyOpt (p_event_date payload))
    || negb (truthy (trim (orEmpty (p_event_type payload))))
    || negb (truthy (trim (p_location payload)))
    || negb (truthy (trim (p_title payload)))
    || negb (truthy (trim (p_short_description payload)))
    || negb (truthy (trim (p_summary payload)))
    || negb (truthy (trim (p_impact_on_communication payload))) in
  if missing then
    Alert (lit "Please fill in all required event fields (all except photo/articles).") ;;
    Done
  else
    Set_ (SetEventSaving true) ;;
    if isCreatingEvent s then
      let* res := fetch (PostEvent payload) in
      let data := body res in
      if negb (ok res) then
        catchBlock (errorMessage data (httpStatus (status res)))
      else
        let refreshAndClose :=
          loadAdminEvents (fun _ =>
          loadAdminEvents (fun _ =>
          closeEventModal s (finallyBlock Done))) in
        match idOf data with
        | Some createdId =>
            if negb (createdId =? 0)
               && (0 <? Z.of_nat (List.length (createQueuedMedia s)))
            then
              Set_ (SetCreateMediaUploading true) ;;
              uploadQueued createdId
                (Z.of_nat (List.length (createQueuedMedia s))) 0
                (createQueuedMedia s)
                (Set_ (SetCreateQueuedMedia []) ;;
                 Set_ (SetCreateMediaIndex 0) ;;
                 Set_ (SetCreateMediaUploading false) ;;
                 Set_ (SetCreateMediaUploadingText []) ;;
                 refreshAndClose)
            else refreshAndClose
        | None => refreshAndClose
        end
    else
      match editingEvent s with
      | None => finallyBlock Done
      | Some evt =>
          let* res := fetch (PutEvent (ev_id evt) payload) in
          let data := body res in
          if negb (ok res) then
            catchBlock (errorMessage data (httpStatus (status res)))
          else
            loadAdminEvents (fun _ => closeEventModal s (finallyBlock Done))
      end.

(** [handlePrimarySaveClick] of the modal, whose [onSave] is
    [handleSaveEvent] and whose [form] is [eventForm]. *)
Definition handlePrimarySaveClick (s : Snapshot) : Prog :=
  Set_ (SetEventTriedSubmit true) ;;
  let (next, valid) := validateEventForm (eventForm s) in
  Set_ (SetEventErrors next) ;;
  if negb valid then Done else handleSaveEvent s.

End Editor.

(* ================================================================== *)
(** * Event editor: the media panel *)
(* ================================================================== *)

Module MediaPanel.

(** [onDeleteMedia(item)] in create mode: the updater given to
    [setCreateQueuedMedia], applied to the queue, together with the index
    updater it gives to [setCreateMediaIndex], applied to the index. *)
Definition onDeleteMedia (prev : list MediaItem) (idx : Z)
  (item : MediaItem) : list MediaItem * Z :=
  let next :=
    filter (fun m => negb (optStr_eqb (localId m) (localId item))) prev in
  let n := Z.of_nat (List.length next) in
  (next, if negb (n =? 0) then Z.min idx (n - 1) else 0).

(** [confirmDeleteMedia] in edit mode, once the DELETE request came back
    [ok]: the updater given to [setEventMedia] and the index updater it
    gives to [setEventMediaIndex]. When the response is not ok the handler
    throws before it touches the state. *)
Definition confirmDeleteMedia (responseOk : bool) (prev : list MediaItem)
  (idx : Z) (mediaDeleteTarget : MediaItem) : list MediaItem * Z :=
  if negb responseOk then (prev, idx)
  else
    let next :=
      filter (fun m => negb (optZ_eqb (id m) (id mediaDeleteTarget))) prev in
    let n := Z.of_nat (List.length next) in
    (next, if n =? 0 then 0 else if n <=? idx then n - 1 else idx).

(** The two modes of the editor. *)
Inductive Mode := CreateMode | EditMode.

(** A successful delete of [item] in either mode. *)
Definition deleteMedia (mode : Mode) (media : list MediaItem) (idx : Z)
  (item : MediaItem) : list MediaItem * Z :=
  match mode with
  | CreateMode => onDeleteMedia media idx item
  | EditMode => confirmDeleteMedia true media idx item
  end.

(** [safeIndex] and [currentMedia] of [AdminEventModal]. *)
Definition safeIndex (media : list MediaItem) (mediaIndex : Z) : Z :=
  match media with
  | [] => 0
  | _ :: _ => Z.min mediaIndex (Z.of_nat (List.length media) - 1)
  end.

Definition currentMedia (media : list MediaItem) (mediaIndex : Z)
  : option MediaItem :=
  match media with
  | [] => None
  | _ :: _ => at_ media (safeIndex media mediaIndex)
  end.

(** The Previous and Next buttons; [%] is the remainder that takes the sign
    of the dividend. *)
Definition previousIndex (media : list MediaItem) (prev : Z) : Z :=
  Z.rem (prev - 1 + Z.of_nat (List.length media)) (Z.of_nat (List.length media)).

Definition nextIndex (media : list MediaItem) (prev : Z) : Z :=
  Z.rem (prev + 1) (Z.of_nat (List.length media)).

(** The effect "Keep mediaIndex in range whenever media changes": the
    updater it gives to [setMediaIndex]. *)
Definition clampIndex (media : list MediaItem) (idx : Z) : Z :=
  let n := Z.of_nat (List.length media) in
  if n =? 0 then 0
  else if idx <? 0 then 0
  else if n <=? idx then n - 1
  else idx.

(** The caption editing state of the modal. *)
Record CaptionState := {
  captionEditing : bool;
  captionDraft : jsstring
}.

(** The body of the effect "When switching images, reset caption
    editing/draft". *)
Definition resetCaption (current : option MediaItem) : CaptionState :=
  {| captionEditing := false;
     captionDraft :=
       orEmpty (match current with Some m => caption m | None => None end) |}.

(** The dependency array of that effect: [[currentMedia?.id]]. *)
Definition captionDeps (current : option MediaItem) : option Z :=
  match current with
  | Some m => id m
  | None => None
  end.

(** React after a render: an effect runs on the first render, and on a later
    one when a dependency is not the previous render's (by [Object.is]).
    [previousDeps] is [None] on the first render. *)
Definition commitCaptionEffect (previousDeps : option (option Z))
  (current : option MediaItem) (st : CaptionState) : CaptionState :=
  match previousDeps with
  | None => resetCaption current
  | Some deps =>
      if optZ_eqb deps (captionDeps current) then st else resetCaption current
  end.

(** The modal rendered with [mediaIndex = from], then with
    [mediaIndex = to] over the same media. *)
Definition switchMedia (media : list MediaItem) (from to : Z)
  (st : CaptionState) : CaptionState :=
  commitCaptionEffect (Some (captionDeps (currentMedia media from)))
    (currentMedia media to) st.

End MediaPanel.

(* ================================================================== *)
(** * Public timeline: year search *)
(* ================================================================== *)

Module YearSearch.

(** The [year] of a normalized event, as [extractYear] makes it: the empty
    string for a date that does not parse, [String(d.getUTCFullYear())]
    otherwise. [String] of an integer is never empty and is injective, so
    the label is kept as the integer it prints. *)
Inductive YearLabel :=
| NoYear
| YearOf (y : Z).

(** [Number(label)]: the empty string is 0. *)
Definition Number (l : YearLabel) : Z :=
  match l with
  | NoYear => 0
  | YearOf y => y
  end.

(** The label as text. *)
Definition labelText (l : YearLabel) : jsstring :=
  match l with
  | NoYear => []
  | YearOf y => ofZ y
  end.

(** [y === String(num)] *)
Definition isTarget (num : Z) (y : YearLabel) : bool :=
  match y with
  | NoYear => false
  | YearOf v => v =? num
  end.

Definition label_eqb (a b : YearLabel) : bool :=
  match a, b with
  | NoYear, NoYear => true
  | YearOf x, YearOf y => x =? y
  | _, _ => false
  end.

(** [Array.from(new Set(years))]: the first occurrence of each label, in
    order. *)
Fixpoint distinct (seen years : list YearLabel) : list YearLabel :=
  match years with
  | [] => []
  | y :: rest =>
      if existsb (label_eqb y) seen then distinct seen rest
      else y :: distinct (y :: seen) rest
  end.

(** A stable sort by [Number(a) - Number(b)]. *)
Fixpoint insertYear (y : YearLabel) (sorted : list YearLabel)
  : list YearLabel :=
  match sorted with
  | [] => [y]
  | z :: rest =>
      if Number y <? Number z then y :: sorted else z :: insertYear y rest
  end.

Definition sortYears (years : list YearLabel) : list YearLabel :=
  fold_left (fun acc y => insertYear y acc) years [].

(** [YEARS], derived from the years of the loaded events. *)
Definition deriveYears (eventYears : list YearLabel) : list YearLabel :=
  sortYears (distinct [] eventYears).

Inductive View := Home | About | Admin | OtherView.

(** The state the handler writes. *)
Record SearchState := {
  searchError : jsstring;
  searchInfo : jsstring;
  view : View;
  menuOpen : bool;
  scrollToYear : option YearLabel
}.

(** The step of [YEARS.reduce]. *)
Definition closer (num : Z) (prev curr : YearLabel) : YearLabel :=
  let diffPrev := Z.abs (Number prev - num) in
  let diffCurr := Z.abs (Number curr - num) in
  if diffCurr <? diffPrev then curr else prev.

(** The step of [YEARS.forEach], on the pair ([closest], [hasExact]). *)
Definition noteExact (num : Z) (acc : YearLabel * bool) (y : YearLabel)
  : YearLabel * bool :=
  if isTarget num y then (y, true) else acc.

Definition substitutionNote (num : Z) (closest : YearLabel) : jsstring :=
  lit "No events for " ++ ofZ num ++ lit ". Showing closest year: "
    ++ labelText closest ++ lit ".".

(** [handleYearSearchSubmit] *)
Definition handleYearSearchSubmit (YEARS : list YearLabel)
  (yearQuery : jsstring) (st : SearchState) : SearchState :=
  let trimmed := trim yearQuery in
  let isFourDigits := testFourDigits trimmed in
  if negb isFourDigits then
    {| searchError := lit "Please enter a 4-digit year (for example, 1989).";
       searchInfo := [];
       view := Home;
       menuOpen := false;
       scrollToYear := scrollToYear st |}
  else
    match YEARS with
    | [] =>
        {| searchError :=
             lit "Events are still loading. Please try again in a moment.";
           searchInfo := [];
           view := view st;
           menuOpen := menuOpen st;
           scrollToYear := scrollToYear st |}
    | first :: _ =>
        let num := parseInt trimmed in
        let (closest, hasExact) :=
          fold_left (noteExact num) YEARS (first, false) in
        if negb hasExact then
          let closest := fold_left (closer num) YEARS first in
          {| searchError := [];
             searchInfo := substitutionNote num closest;
             view := Home;
             menuOpen := false;
             scrollToYear := Some closest |}
        else
          {| searchError := [];
             searchInfo := [];
             view := Home;
             menuOpen := false;
             scrollToYear := Some closest |}
    end.

(** The distance the search minimizes. *)
Definition distance (num : Z) (y : YearLabel) : Z := Z.abs (Number y - num).

(** A list of labels in ascending numeric order. *)
Definition ascending (years : list YearLabel) : Prop :=
  StronglySorted (fun a b => Number a <= Number b) years.

End YearSearch.

(* ================================================================== *)
(** * Admin API: login, accounts, profile and events *)
(* ================================================================== *)

Module AdminApi.

(** A row of [admin_users]. [is_protected] is a TINYINT the code compares
    with [=== 0] and [=== 1]. *)
Record AdminUser := {
  au_id : Z;
  au_username : jsstring;
  au_password_hash : jsstring;
  au_is_protected : Z;
  au_security_question_id : option Z;
  au_security_answer_hash : option jsstring
}.

Record SecurityQuestion := {
  sq_id : Z;
  sq_question_text : jsstring
}.

(** The tables the routes below read and write, and the next
    AUTO_INCREMENT id of [solar_events]. The statements of the routes run
    on these tables and do not fail, but for a row of [solar_events] the
    database refuses (see [solar_events_accepts]), so of the [catch] blocks
    that answer 500 only those of the event routes are reached. *)
Record Db := {
  admin_users : list AdminUser;
  security_questions : list SecurityQuestion;
  solar_events : list EventRow;
  next_event_id : Z
}.

(** What a route sends with [res.json]. *)
Inductive Json :=
| ErrorJson (error : jsstring)
| SecurityAnswerRequired (error : jsstring)
    (securityQuestionId : option Z) (securityQuestionText : option jsstring)
| LoginSuccess (uid : Z) (username : jsstring) (is_protected : bool)
    (securityQuestionId : option Z)
| SuccessJson
| CreatedJson (newId : Z).

Record Response := {
  res_status : Z;
  res_json : Json
}.

Definition send (st : Z) (j : Json) : Response :=
  {| res_status := st; res_json := j |}.

(** Whether a response carries [requiresSecurityAnswer: true]. *)
Definition asksSecurityQuestion (r : Response) : bool :=
  match res_json r with
  | SecurityAnswerRequired _ _ _ => true
  | _ => false
  end.

(** The body of POST /api/admin/login; [None] is a missing field. *)
Record LoginBody := {
  lb_username : option jsstring;
  lb_password : option jsstring;
  lb_securityAnswer : option jsstring
}.

(** The body of PUT /api/admin/users/:id and of PUT /api/admin/profile.
    [ac_securityQuestionId] is [None] when the field is undefined, [Some
    None] when it is null. The record covers the bodies whose [password]
    and [securityAnswer] are strings and whose [securityQuestionId] is a
    number or null; the routes do not test the kind of these values and
    bind [securityQuestionId] as it comes, so a body that holds an object
    or an array there is not described by this record. *)
Record AccountChanges := {
  ac_password : option jsstring;
  ac_securityQuestionId : option (option Z);
  ac_securityAnswer : option jsstring
}.

(** One [column = ?] of the dynamic UPDATE, with its value. *)
Inductive Assignment :=
| PasswordHash (h : jsstring)
| SecurityQuestionId (q : option Z)
| SecurityAnswerHash (h : jsstring).

(** The body of POST /api/admin/events and PUT /api/admin/events/:id. *)
Record EventBody := {
  b_event_date : option jsstring;
  b_event_type : option jsstring;
  b_location : option jsstring;
  b_title : option jsstring;
  b_short_description : option jsstring;
  b_summary : option jsstring;
  b_impact_on_communication : option jsstring
}.

Section Routes.

(** [bcrypt.compare(plain, hash)] and [bcrypt.hash(plain, BCRYPT_ROUNDS)]. *)
Variable bcrypt_compare : jsstring -> jsstring -> bool.
Variable bcrypt_hash : jsstring -> jsstring.

(** [username = ?] under the collation of the column. *)
Variable username_matches : jsstring -> jsstring -> bool.

(** Whether the database takes a row of [solar_events]: its column
    constraints are declared outside [admin.js]. A refused statement makes
    [adminPool.query] throw. *)
Variable solar_events_accepts : EventRow -> bool.

(** [SELECT ... FROM admin_users u LEFT JOIN security_questions q ON
    u.security_question_id = q.id WHERE u.username = ? LIMIT 1] *)
Definition questionText (db : Db) (q : option Z) : option jsstring :=
  match q with
  | None => None
  | Some qid =>
      option_map sq_question_text
        (find (fun x => sq_id x =? qid) (security_questions db))
  end.

Definition selectLoginUser (db : Db) (username : jsstring)
  : list (AdminUser * option jsstring) :=
  match find (fun u => username_matches (au_username u) username)
          (admin_users db) with
  | Some u => [(u, questionText db (au_security_question_id u))]
  | None => []
  end.

(** [SELECT is_protected FROM admin_users WHERE id = ?] *)
Definition selectIsProtected (db : Db) (userId : Z) : list Z :=
  map au_is_protected (filter (fun u => au_id u =? userId) (admin_users db)).

Definition assign (u : AdminUser) (a : Assignment) : AdminUser :=
  match a with
  | PasswordHash h =>
      {| au_id := au_id u; au_username := au_username u;
         au_password_hash := h; au_is_protected := au_is_protected u;
         au_security_question_id := au_security_question_id u;
         au_security_answer_hash := au_security_answer_hash u |}
  | SecurityQuestionId q =>
      {| au_id := au_id u; au_username := au_username u;
         au_password_hash := au_password_hash u;
         au_is_protected := au_is_protected u;
         au_security_question_id := q;
         au_security_answer_hash := au_security_answer_hash u |}
  | SecurityAnswerHash h =>
      {| au_id := au_id u; au_username := au_username u;
         au_password_hash := au_password_hash u;
         au_is_protected := au_is_protected u;
         au_security_question_id := au_security_question_id u;
         au_security_answer_hash := Some h |}
  end.

Definition withUsers (db : Db) (users : list AdminUser) : Db :=
  {| admin_users := users;
     security_questions := security_questions db;
     solar_events := solar_events db;
     next_event_id := next_event_id db |}.

Definition withEvents (db : Db) (events : list EventRow) (next : Z) : Db :=
  {| admin_users := admin_users db;
     security_questions := security_questions db;
     solar_events := events;
     next_event_id := next |}.

(** [UPDATE admin_users SET ... WHERE id = ?]: the new table and
    [affectedRows]. *)
Definition updateAdminUser (db : Db) (fields : list Assignment) (userId : Z)
  : Db * Z :=
  (withUsers db
     (map (fun u => if au_id u =? userId then fold_left assign fields u else u)
        (admin_users db)),
   Z.of_nat (List.length (filter (fun u => au_id u =? userId) (admin_users db)))).

(** [DELETE FROM admin_users WHERE id = ?] *)
Definition deleteAdminUser (db : Db) (userId : Z) : Db * Z :=
  (withUsers db (filter (fun u => negb (au_id u =? userId)) (admin_users db)),
   Z.of_nat (List.length (filter (fun u => au_id u =? userId) (admin_users db)))).

Definition invalidCredentials : Response :=
  send 401 (ErrorJson (lit "Invalid username or password.")).

(** POST /api/admin/login *)
Definition postLogin (req : LoginBody) (db : Db) : Response :=
  if negb (truthyOpt (lb_username req)) || negb (truthyOpt (lb_password req))
  then send 400 (ErrorJson (lit "Username and password are required."))
  else
    match selectLoginUser db (orEmpty (lb_username req)) with
    | [] => invalidCredentials
    | (user, question_text) :: _ =>
        let matched :=
          bcrypt_compare (orEmpty (lb_password req)) (au_password_hash user) in
        if negb matched then invalidCredentials
        else
          let success :=
            send 200
              (LoginSuccess (au_id user) (au_username user)
                 (negb (au_is_protected user =? 0))
                 (match au_security_question_id user with
                  | Some q => if q =? 0 then None else Some q
                  | None => None
                  end)) in
          let requiresSecurity :=
            (au_is_protected user =? 0)
            && match au_security_question_id user with
               | Some _ => true
               | None => false
               end in
          if requiresSecurity then
            if negb (truthyOpt (lb_securityAnswer req)) then
              send 400
                (SecurityAnswerRequired (lit "Security answer required.")
                   (au_security_question_id user) question_text)
            else
              let answerOk :=
                bcrypt_compare (orEmpty (lb_securityAnswer req))
                  (orEmpty (au_security_answer_hash user)) in
              if negb answerOk
              then send 401 (ErrorJson (lit "Incorrect security answer."))
              else success
          else success
    end.

(** [securityQuestionId || null] *)
Definition questionOrNull (q : option Z) : option Z :=
  match q with
  | Some v => if v =? 0 then None else Some v
  | None => None
  end.

(** The [fields] and [values] both PUT routes build, for a body of the
    kind [AccountChanges] describes. *)
Definition buildAssignments (c : AccountChanges) : list Assignment :=
  (if truthyOpt (ac_password c) && truthy (trim (orEmpty (ac_password c)))
   then [PasswordHash (bcrypt_hash (trim (orEmpty (ac_password c))))]
   else [])
  ++ (match ac_securityQuestionId c with
      | Some q => [SecurityQuestionId (questionOrNull q)]
      | None => []
      end)
  ++ (if truthyOpt (ac_securityAnswer c)
         && truthy (trim (orEmpty (ac_securityAnswer c)))
      then [SecurityAnswerHash (bcrypt_hash (trim (orEmpty (ac_securityAnswer c))))]
      else []).

(** PUT /api/admin/users/:id *)
Definition putAdminUser (userId : Z) (c : AccountChanges) (db : Db)
  : Response * Db :=
  match selectIsProtected db userId with
  | [] => (send 404 (ErrorJson (lit "Admin user not found.")), db)
  | is_protected :: _ =>
      if is_protected =? 1 then
        (send 403
           (ErrorJson (lit "This account is protected and cannot be edited.")),
         db)
      else
        let fields := buildAssignments c in
        match fields with
        | [] =>
            (send 400
               (ErrorJson (lit "No changes provided to update this user.")),
             db)
        | _ :: _ =>
            let (db', affectedRows) := updateAdminUser db fields userId in
            if affectedRows =? 0
            then (send 404 (ErrorJson (lit "Admin user not found.")), db')
            else (send 200 SuccessJson, db')
        end
  end.

(** DELETE /api/admin/users/:id *)
Definition deleteAdminUserRoute (userId : Z) (db : Db) : Response * Db :=
  match selectIsProtected db userId with
  | [] => (send 404 (ErrorJson (lit "Admin user not found.")), db)
  | is_protected :: _ =>
      if is_protected =? 1 then
        (send 403
           (ErrorJson (lit "This account is protected and cannot be deleted.")),
         db)
      else
        let (db', affectedRows) := deleteAdminUser db userId in
        if affectedRows =? 0
        then (send 404 (ErrorJson (lit "Admin user not found.")), db')
        else (send 200 SuccessJson, db')
  end.

(** PUT /api/admin/profile; [userId] is [None] when the body has none, and
    a number otherwise: the route binds the value of the body as it comes,
    and a body whose [userId] is an object or an array is not described
    here. *)
Definition putAdminProfile (userId : option Z) (c : AccountChanges) (db : Db)
  : Response * Db :=
  match userId with
  | None => (send 400 (ErrorJson (lit "userId is required.")), db)
  | Some uid =>
      if uid =? 0 then (send 400 (ErrorJson (lit "userId is required.")), db)
      else
        match selectIsProtected db uid with
        | [] => (send 404 (ErrorJson (lit "Admin user not found.")), db)
        | _ :: _ =>
            let fields := buildAssignments c in
            match fields with
            | [] =>
                (send 400 (ErrorJson (lit "No profile changes provided.")), db)
            | _ :: _ =>
                let (db', affectedRows) := updateAdminUser db fields uid in
                if affectedRows =? 0
                then (send 404 (ErrorJson (lit "Admin user not found.")), db')
                else (send 200 SuccessJson, db')
            end
        end
  end.

(** The values both event routes bind to the seven columns. *)
Definition eventRowOf (rowId : Z) (b : EventBody) : EventRow :=
  {| ev_id := rowId;
     ev_event_date := b_event_date b;
     ev_event_type := orNull (b_event_type b);
     ev_location := orNull (b_location b);
     ev_title := b_title b;
     ev_short_description := orNull (b_short_description b);
     ev_summary := orNull (b_summary b);
     ev_impact_on_communication := orNull (b_impact_on_communication b) |}.

(** POST /api/admin/events *)
Definition postEvent (b : EventBody) (db : Db) : Response * Db :=
  if negb (truthyOpt (b_event_date b)) || negb (truthyOpt (b_title b)) then
    (send 400 (ErrorJson (lit "event_date and title are required.")), db)
  else
    let insertId := next_event_id db in
    let row := eventRowOf insertId b in
    if solar_events_accepts row then
      (send 201 (CreatedJson insertId),
       withEvents db (solar_events db ++ [row]) (insertId + 1))
    else (send 500 (ErrorJson (lit "Failed to create event")), db).

(** PUT /api/admin/events/:id *)
Definition putEvent (eventId : Z) (b : EventBody) (db : Db) : Response * Db :=
  if negb (truthyOpt (b_event_date b)) || negb (truthyOpt (b_title b)) then
    (send 400 (ErrorJson (lit "event_date and title are required.")), db)
  else
    let affectedRows :=
      Z.of_nat
        (List.length (filter (fun e => ev_id e =? eventId) (solar_events db))) in
    if affectedRows =? 0 then
      (send 404 (ErrorJson (lit "Event not found.")), db)
    else
      let row := eventRowOf eventId b in
      if solar_events_accepts row then
        (send 200 SuccessJson,
         withEvents db
           (map (fun e => if ev_id e =? eventId then row else e)
              (solar_events db))
           (next_event_id db))
      else (send 500 (ErrorJson (lit "Failed to update event")), db).

End Routes.

(** The NOT NULL flags of the table [solar_events] as the handoff document
    declares it: [event_date], [event_type], [title] and [summary]. The
    column types of that table (a [date], [varchar]s of 255 and 500
    characters) are left out, so this is a condition every row the
    documented table takes meets, not the whole of what it checks. *)
Definition documentedNotNull (row : EventRow) : bool :=
  match ev_event_date row, ev_event_type row, ev_title row, ev_summary row with
  | Some _, Some _, Some _, Some _ => true
  | _, _, _, _ => false
  end.

(** The JSON body the editor's payload becomes. *)
Definition bodyOfPayload (p : Editor.Payload) : EventBody :=
  {| b_event_date := Editor.p_event_date p;
     b_event_type := Editor.p_event_type p;
     b_location := Some (Editor.p_location p);
     b_title := Some (Editor.p_title p);
     b_short_description := Some (Editor.p_short_description p);
     b_summary := Some (Editor.p_summary p);
     b_impact_on_communication := Some (Editor.p_impact_on_communication p) |}.

End AdminApi.

(* ================================================================== *)
(** * Public timeline: decades, media overlay *)
(* ================================================================== *)

Module Timeline.

Import YearSearch.

(** [Math.floor(Number(y) / 10) * 10] *)
Definition decadeOf (y : YearLabel) : Z := Number y / 10 * 10.

(** [Array.from(new Set(numbers))]: the first occurrence of each number. *)
Fixpoint distinctNumbers (seen numbers : list Z) : list Z :=
  match numbers with
  | [] => []
  | x :: rest =>
      if existsb (Z.eqb x) seen then distinctNumbers seen rest
      else x :: distinctNumbers (x :: seen) rest
  end.

(** [sort((a, b) => a - b)] *)
Fixpoint insertNumber (x : Z) (sorted : list Z) : list Z :=
  match sorted with
  | [] => [x]
  | z :: rest => if x <? z then x :: sorted else z :: insertNumber x rest
  end.

Definition sortNumbers (numbers : list Z) : list Z :=
  fold_left (fun acc x => insertNumber x acc) numbers [].

(** [DECADES], derived from [YEARS]. *)
Definition DECADES (YEARS : list YearLabel) : list Z :=
  sortNumbers (distinctNumbers [] (map decadeOf YEARS)).

(** The years the picker lists for the selected decade:
    [YEARS.filter((y) => Math.floor(y / 10) * 10 === pickerDecade)];
    [pickerDecade] is [None] while it is [null]. *)
Definition yearsOfDecade (YEARS : list YearLabel) (pickerDecade : option Z)
  : list YearLabel :=
  filter (fun y => optZ_eqb (Some (decadeOf y)) pickerDecade) YEARS.

(** [handleMediaNext] and [handleMediaPrev] of the media overlay: the new
    [mediaIndex], over [mediaItems] of the given length. *)
Definition handleMediaNext (mediaItems : list MediaItem) (prev : Z) : Z :=
  let n := Z.of_nat (List.length mediaItems) in
  if n =? 0 then prev else Z.rem (prev + 1) n.

Definition handleMediaPrev (mediaItems : list MediaItem) (prev : Z) : Z :=
  let n := Z.of_nat (List.length mediaItems) in
  if n =? 0 then prev else Z.rem (prev - 1 + n) n.

End Timeline.

(* ================================================================== *)
(** * Admin events list: the year filter *)
(* ================================================================== *)

Module EventList.

(** [getEventYear(dateStr)]: the first four characters of the stored date
    when they are four digits, [None] ([null]) otherwise. *)
Definition getEventYear (dateStr : option jsstring) : option jsstring :=
  if negb (truthyOpt dateStr) then None
  else
    let year := slice 0 4 (orEmpty dateStr) in
    if testFourDigits year then Some year else None.

(** The submit handler of the year filter form: the new [adminYearFilter]
    given the text of the input. *)
Definition submitYearFilter (adminYearQuery : jsstring) : option jsstring :=
  let trimmed := trim adminYearQuery in
  if negb (truthy trimmed) then None
  else
    let cleaned := slice 0 4 (digitsOf trimmed) in
    if negb (truthy cleaned) then None
    else Some cleaned.

(** [filteredAdminEvents] *)
Definition filteredAdminEvents (adminYearFilter : option jsstring)
  (adminEvents : list EventRow) : list EventRow :=
  if truthyOpt adminYearFilter
  then filter (fun evt =>
                 optStr_eqb (getEventYear (ev_event_date evt)) adminYearFilter)
              adminEvents
  else adminEvents.

End EventList.

(* ================================================================== *)
(** * Admin API: account creation, event deletion *)
(* ================================================================== *)

Module AdminRoutes.

Import AdminApi.

(** The body of POST /api/admin/users; [None] is a missing field. *)
Record NewUserBody := {
  nu_username : option jsstring;
  nu_password : option jsstring;
  nu_securityQuestionId : option Z;
  nu_securityAnswer : option jsstring
}.

Section Routes.

Variable bcrypt_hash : jsstring -> jsstring.

(** Whether the database takes a new row of [admin_users], given the rows
    it has: the table's keys are declared outside [admin.js]. A refused
    INSERT makes [adminPool.query] throw. *)
Variable admin_users_accepts : list AdminUser -> AdminUser -> bool.

(** POST /api/admin/users; [insertId] is the AUTO_INCREMENT id the
    database gives the row. *)
Definition postAdminUser (insertId : Z) (b : NewUserBody) (db : Db)
  : Response * Db :=
  if negb (truthyOpt (nu_username b)) || negb (truthyOpt (nu_password b))
  then (send 400 (ErrorJson (lit "Username and password are required.")), db)
  else
    let passwordHash := bcrypt_hash (trim (orEmpty (nu_password b))) in
    let answerHash :=
      if truthyOpt (nu_securityAnswer b)
         && truthy (trim (orEmpty (nu_securityAnswer b)))
      then Some (bcrypt_hash (trim (orEmpty (nu_securityAnswer b))))
      else None in
    let row :=
      {| au_id := insertId;
         au_username := trim (orEmpty (nu_username b));
         au_password_hash := passwordHash;
         au_is_protected := 0;
         au_security_question_id := questionOrNull (nu_securityQuestionId b);
         au_security_answer_hash := answerHash |} in
    if admin_users_accepts (admin_users db) row
    then (send 201 (CreatedJson insertId),
          withUsers db (admin_users db ++ [row]))
    else (send 500 (ErrorJson (lit "Failed to create admin user.")), db).

End Routes.

(** DELETE /api/admin/events/:id *)
Definition deleteEvent (eventId : Z) (db : Db) : Response * Db :=
  let affectedRows :=
    Z.of_nat
      (List.length (filter (fun e => ev_id e =? eventId) (solar_events db))) in
  let db' :=
    withEvents db
      (filter (fun e => negb (ev_id e =? eventId)) (solar_events db))
      (next_event_id db) in
  if affectedRows =? 0
  then (send 404 (ErrorJson (lit "Event not found.")), db')
  else (send 200 SuccessJson, db').

End AdminRoutes.

(* ================================================================== *)
(** * Admin API: uploads to the object store, team photos *)
(* ================================================================== *)

Module Storage.

Fixpoint dropSlashes (s : jsstring) : jsstring :=
  match s with
  | [] => []
  | c :: r => if (c =? slash)%N then dropSlashes r else s
  end.

(** [stripTrailingSlashes(s)]: [String(s || '').replace(/\/+$/, '')]. *)
Definition stripTrailingSlashes (s : option jsstring) : jsstring :=
  rev (dropSlashes (rev (orEmpty s))).

(** The environment variables of the object store. *)
Record Env := {
  SPACES_REGION : option jsstring;
  SPACES_ENDPOINT : option jsstring;
  SPACES_KEY : option jsstring;
  SPACES_SECRET : option jsstring;
  SPACES_BUCKET : option jsstring;
  SPACES_ORIGIN_URL : option jsstring
}.

(** [buildSpacesClient()]: [false] when it throws. *)
Definition buildSpacesClient (env : Env) : bool :=
  negb (negb (truthyOpt (SPACES_REGION env))
        || negb (truthyOpt (SPACES_ENDPOINT env))
        || negb (truthyOpt (SPACES_KEY env))
        || negb (truthyOpt (SPACES_SECRET env))).

(** [requireSpacesBucketAndPublicBase()]: [None] when it throws, the pair
    [(bucket, publicBase)] otherwise. *)
Definition requireSpacesBucketAndPublicBase (env : Env)
  : option (jsstring * jsstring) :=
  if negb (truthyOpt (SPACES_BUCKET env))
     || negb (truthyOpt (SPACES_ORIGIN_URL env))
  then None
  else Some (orEmpty (SPACES_BUCKET env),
             stripTrailingSlashes (SPACES_ORIGIN_URL env)).

(** [guessImageExt(mime)] *)
Definition guessImageExt (mime : jsstring) : jsstring :=
  if JS.eqb mime (lit "image/png") then lit "png"
  else if JS.eqb mime (lit "image/webp") then lit "webp"
  else if JS.eqb mime (lit "image/jpeg") || JS.eqb mime (lit "image/jpg")
  then lit "jpg"
  else lit "jpg".

(** [s.startsWith(p)] *)
Fixpoint startsWith (p s : jsstring) : bool :=
  match p, s with
  | [], _ => true
  | a :: p', b :: s' => (a =? b)%N && startsWith p' s'
  | _ :: _, [] => false
  end.

(** What follows the literal prefix [p] in [s], when [s] starts with it. *)
Definition after (p s : jsstring) : option jsstring :=
  if startsWith p s then Some (skipn (List.length p) s) else None.

(** The class [[a-zA-Z0-9.+-]]. *)
Definition isMimeChar (c : char) : bool :=
  ((97 <=? c) && (c <=? 122))%N || ((65 <=? c) && (c <=? 90))%N
  || isDigit c || (c =? 46)%N || (c =? 43)%N || (c =? 45)%N.

(** The characters [.] does not match: the line terminators. *)
Definition isLineTerminator (c : char) : bool :=
  ((c =? 10) || (c =? 13) || (c =? 8232) || (c =? 8233))%N.

(** The longest prefix of characters of the class, and the rest. *)
Fixpoint spanMime (s : jsstring) : jsstring * jsstring :=
  match s with
  | [] => ([], [])
  | c :: r =>
      if isMimeChar c
      then let (run, rest) := spanMime r in (c :: run, rest)
      else ([], s)
  end.

(** [imageData.match(/^data:(image\/[a-zA-Z0-9.+-]+);base64,(.+)$/)]: the
    two groups, [None] when there is no match. The class has no [;], so
    the first group is the longest run of the class after [data:image/];
    the second group is the rest of the string, which [.+$] takes when it
    is not empty and has no line terminator. *)
Definition matchDataUrl (imageData : jsstring) : option (jsstring * jsstring) :=
  match after (lit "data:image/") imageData with
  | None => None
  | Some r =>
      let (run, rest) := spanMime r in
      if negb (truthy run) then None
      else
        match after (lit ";base64,") rest with
        | None => None
        | Some base64 =>
            if truthy base64
               && forallb (fun c => negb (isLineTerminator c)) base64
            then Some (lit "image/" ++ run, base64)
            else None
        end
  end.

(** A row of [team_members]. *)
Record TeamMember := {
  tm_id : Z;
  tm_name : jsstring;
  tm_role : jsstring;
  tm_image_url : option jsstring
}.

(** An object of the bucket. *)
Record StoredObject := {
  o_bucket : jsstring;
  o_key : jsstring;
  o_body : list N;
  o_contentType : jsstring
}.

(** The table and the bucket the photo routes write. *)
Record World := {
  team_members : list TeamMember;
  objects : list StoredObject
}.

Inductive PhotoJson :=
| PhotoError (error : jsstring)
| PhotoSuccess
| PhotoUploaded (image_url : jsstring).

Definition sameObject (bucket key : jsstring) (o : StoredObject) : bool :=
  JS.eqb (o_bucket o) bucket && JS.eqb (o_key o) key.

(** [PutObjectCommand]: the object stored under the key, replacing one
    that has it. *)
Definition putObject (o : StoredObject) (objs : list StoredObject)
  : list StoredObject :=
  o :: filter (fun x => negb (sameObject (o_bucket o) (o_key o) x)) objs.

(** [DeleteObjectCommand] *)
Definition deleteObject (bucket key : jsstring) (objs : list StoredObject)
  : list StoredObject :=
  filter (fun x => negb (sameObject bucket key x)) objs.

Section PhotoRoutes.

(** [id = ?] with the route parameter, a string. *)
Variable id_matches : Z -> jsstring -> bool.

(** [Buffer.from(base64, 'base64')] *)
Variable decodeBase64 : jsstring -> list N.

Variable env : Env.

Definition setImageUrl (memberId : jsstring) (url : option jsstring)
  (members : list TeamMember) : list TeamMember :=
  map (fun m =>
         if id_matches (tm_id m) memberId
         then {| tm_id := tm_id m; tm_name := tm_name m;
                 tm_role := tm_role m; tm_image_url := url |}
         else m)
      members.

Definition photoKey (memberId : jsstring) (now : Z) (hex ext : jsstring)
  : jsstring :=
  lit "team/member-" ++ memberId ++ lit "-" ++ ofZ now ++ lit "-" ++ hex
    ++ lit "." ++ ext.

Definition uploadFailed : Z * PhotoJson :=
  (500, PhotoError (lit "Failed to upload team photo.")).

(** POST /api/admin/team/:id/photo. [now] is [Date.now()], [hex] is
    [randomHex(10)] and [reachable] tells whether the request to the
    object store succeeds. *)
Definition postTeamPhoto (memberId : jsstring) (imageData : option jsstring)
  (now : Z) (hex : jsstring) (reachable : bool) (w : World)
  : (Z * PhotoJson) * World :=
  if negb (truthyOpt imageData)
  then ((400, PhotoError (lit "imageData is required.")), w)
  else
    match matchDataUrl (orEmpty imageData) with
    | None => ((400, PhotoError (lit "Invalid imageData format.")), w)
    | Some (mime, base64) =>
        let buffer := decodeBase64 base64 in
        if negb (buildSpacesClient env) then (uploadFailed, w)
        else
          match requireSpacesBucketAndPublicBase env with
          | None => (uploadFailed, w)
          | Some (bucket, publicBase) =>
              let ext := guessImageExt mime in
              let key := photoKey memberId now hex ext in
              if negb reachable then (uploadFailed, w)
              else
                let stored :=
                  putObject {| o_bucket := bucket; o_key := key;
                               o_body := buffer; o_contentType := mime |}
                    (objects w) in
                let url := publicBase ++ lit "/" ++ key in
                let affectedRows :=
                  Z.of_nat
                    (List.length
                       (filter (fun m => id_matches (tm_id m) memberId)
                          (team_members w))) in
                let w' :=
                  {| team_members :=
                       setImageUrl memberId (Some url) (team_members w);
                     objects := stored |} in
                if affectedRows =? 0
                then ((404, PhotoError (lit "Team member not found.")), w')
                else ((200, PhotoUploaded url), w')
          end
    end.

(** DELETE /api/admin/team/:id/photo *)
Definition deleteTeamPhoto (memberId : jsstring) (reachable : bool)
  (w : World) : (Z * PhotoJson) * World :=
  match filter (fun m => id_matches (tm_id m) memberId) (team_members w) with
  | [] => ((404, PhotoError (lit "Team member not found.")), w)
  | row :: _ =>
      let currentUrl := orNull (tm_image_url row) in
      let members := setImageUrl memberId None (team_members w) in
      let kept := {| team_members := members; objects := objects w |} in
      match currentUrl with
      | None => ((200, PhotoSuccess), kept)
      | Some currentUrl =>
          match requireSpacesBucketAndPublicBase env with
          | None => ((200, PhotoSuccess), kept)
          | Some (bucket, publicBase) =>
              let base := stripTrailingSlashes (Some publicBase) in
              if startsWith (base ++ lit "/") currentUrl then
                let key := skipn (List.length (base ++ lit "/")) currentUrl in
                if buildSpacesClient env && reachable
                then ((200, PhotoSuccess),
                      {| team_members := members;
                         objects := deleteObject bucket key (objects w) |})
                else ((200, PhotoSuccess), kept)
              else ((200, PhotoSuccess), kept)
          end
      end
  end.

End PhotoRoutes.

End Storage.

(* ================================================================== *)
(** * Admin login form *)
(* ================================================================== *)

Module LoginForm.

Import AdminApi.

(** [joinUrl(base, path)] *)
Definition joinUrl (base path : option jsstring) : jsstring :=
  let b := rev (Storage.dropSlashes (rev (orEmpty base))) in
  let p := Storage.dropSlashes (orEmpty path) in
  if truthy b then b ++ lit "/" ++ p else lit "/" ++ p.

(** What [loggedInUser] holds: [data.user] of the login response, or
    [{ username }]. *)
Inductive LoggedInUser :=
| ServerUser (uid : Z) (username : jsstring) (is_protected : bool)
    (securityQuestionId : option Z)
| NamedUser (username : jsstring).

(** The state of the login form. *)
Record LoginState := {
  username : jsstring;
  password : jsstring;
  securityAnswer : jsstring;
  needsSecurity : bool;
  securityQuestion : jsstring;
  error : jsstring;
  loading : bool;
  loggedInUser : option LoggedInUser
}.

(** [res.ok] *)
Definition ok (res : Response) : bool :=
  (200 <=? res_status res) && (res_status res <=? 299).

(** The body [handleSubmit] posts. *)
Definition requestBody (st : LoginState) : LoginBody :=
  {| lb_username := Some (username st);
     lb_password := Some (password st);
     lb_securityAnswer :=
       if needsSecurity st && truthy (securityAnswer st)
       then Some (securityAnswer st) else None |}.

(** [e || fallback] *)
Definition orElse (e : jsstring) (fallback : string) : jsstring :=
  if truthy e then e else lit fallback.

(** The state [handleSubmit] leaves once it has settled. [fetch] is the
    request to POST /api/admin/login: [None] when it rejects. *)
Definition handleSubmit (fetch : LoginBody -> option Response)
  (st : LoginState) : LoginState :=
  if negb (truthy (username st)) || negb (truthy (password st)) then
    {| username := username st; password := password st;
       securityAnswer := securityAnswer st;
       needsSecurity := needsSecurity st;
       securityQuestion := securityQuestion st;
       error := lit "Username and password are required.";
       loading := loading st; loggedInUser := loggedInUser st |}
  else if needsSecurity st && negb (truthy (trim (securityAnswer st))) then
    {| username := username st; password := password st;
       securityAnswer := securityAnswer st;
       needsSecurity := needsSecurity st;
       securityQuestion := securityQuestion st;
       error := lit "Security answer is required.";
       loading := loading st; loggedInUser := loggedInUser st |}
  else
    match fetch (requestBody st) with
    | None =>
        {| username := username st; password := password st;
           securityAnswer := securityAnswer st;
           needsSecurity := needsSecurity st;
           securityQuestion := securityQuestion st;
           error := lit "Login failed due to a network error.";
           loading := false; loggedInUser := loggedInUser st |}
    | Some res =>
        if negb (ok res) then
          match res_json res with
          | SecurityAnswerRequired err _ securityQuestionText =>
              {| username := username st; password := password st;
                 securityAnswer := securityAnswer st;
                 needsSecurity := true;
                 securityQuestion :=
                   orElse (orEmpty securityQuestionText)
                     "Please answer your security question.";
                 error :=
                   if needsSecurity st
                   then orElse err "Incorrect security answer."
                   else [];
                 loading := false; loggedInUser := loggedInUser st |}
          | other =>
              {| username := username st; password := password st;
                 securityAnswer := securityAnswer st;
                 needsSecurity := needsSecurity st;
                 securityQuestion := securityQuestion st;
                 error :=
                   orElse (match other with ErrorJson e => e | _ => [] end)
                     "Login failed.";
                 loading := false; loggedInUser := loggedInUser st |}
          end
        else
          {| username := username st; password := password st;
             securityAnswer := [];
             needsSecurity := false;
             securityQuestion := [];
             error := [];
             loading := false;
             loggedInUser :=
               Some (match res_json res with
                     | LoginSuccess uid name is_protected q =>
                         ServerUser uid name is_protected q
                     | _ => NamedUser (username st)
                     end) |}
    end.

(** The [onChange] of the security answer input, which also clears the
    error. *)
Definition onSecurityAnswerChange (value : jsstring) (st : LoginState)
  : LoginState :=
  {| username := username st; password := password st;
     securityAnswer := value;
     needsSecurity := needsSecurity st;
     securityQuestion := securityQuestion st;
     error := if truthy (error st) then [] else error st;
     loading := loading st; loggedInUser := loggedInUser st |}.

End LoginForm.

(* ================================================================== *)
(** * About page editor *)
(* ================================================================== *)

Module AboutEditor.

(** A section of the About page as the editor holds it; [s_id] is [None]
    for [null]. *)
Record AboutSection := {
  s_localId : jsstring;
  s_id : option Z;
  s_title : jsstring;
  s_text : jsstring;
  s_displayOrder : Z;
  s_isNew : bool;
  s_isDeleted : bool
}.

(** [{ ...s, displayOrder: n }] *)
Definition withOrder (n : Z) (s : AboutSection) : AboutSection :=
  {| s_localId := s_localId s; s_id := s_id s; s_title := s_title s;
     s_text := s_text s; s_displayOrder := n; s_isNew := s_isNew s;
     s_isDeleted := s_isDeleted s |}.

(** [{ ...s, isDeleted: true }] *)
Definition markDeleted (s : AboutSection) : AboutSection :=
  {| s_localId := s_localId s; s_id := s_id s; s_title := s_title s;
     s_text := s_text s; s_displayOrder := s_displayOrder s;
     s_isNew := s_isNew s; s_isDeleted := true |}.

(** Truthiness of [s.id]. *)
Definition hasId (s : AboutSection) : bool :=
  match s_id s with
  | Some v => negb (v =? 0)
  | None => false
  end.

Definition isActive (s : AboutSection) : bool := negb (s_isDeleted s).

Definition hasLocalId (localId : jsstring) (s : AboutSection) : bool :=
  JS.eqb (s_localId s) localId.

(** [sort((a, b) => a.displayOrder - b.displayOrder)], a stable sort. *)
Fixpoint insertSection (x : AboutSection) (sorted : list AboutSection)
  : list AboutSection :=
  match sorted with
  | [] => [x]
  | z :: rest =>
      if s_displayOrder x <? s_displayOrder z then x :: sorted
      else z :: insertSection x rest
  end.

Definition sortByOrder (l : list AboutSection) : list AboutSection :=
  fold_left (fun acc x => insertSection x acc) l [].

(** The sections numbered [i], [i + 1], ... in list order. *)
Fixpoint renumberFrom (i : Z) (l : list AboutSection) : list AboutSection :=
  match l with
  | [] => []
  | s :: rest => withOrder i s :: renumberFrom (i + 1) rest
  end.

(** [forEach((s, i) => { s.displayOrder = i + 1 })] *)
Definition renumber (l : list AboutSection) : list AboutSection :=
  renumberFrom 1 l.

(** [findIndex]: [None] is -1. *)
Fixpoint findIndex (p : AboutSection -> bool) (l : list AboutSection)
  : option nat :=
  match l with
  | [] => None
  | s :: rest =>
      if p s then Some 0%nat else option_map S (findIndex p rest)
  end.

(** What [splice(idx, 1)] leaves, and what [splice(n, 0, item)] makes. *)
Definition removeAt (idx : nat) (l : list AboutSection) : list AboutSection :=
  firstn idx l ++ skipn (S idx) l.

Definition insertAt (n : nat) (item : AboutSection) (l : list AboutSection)
  : list AboutSection :=
  firstn n l ++ item :: skipn n l.

(** [applyAboutOrderChange(localId, newOrderRaw)]: the new
    [aboutSections]. [newOrder] is [parseInt(newOrderRaw, 10)], [None] when
    it is [NaN]. *)
Definition applyAboutOrderChange (localId : jsstring) (newOrder : option Z)
  (prev : list AboutSection) : list AboutSection :=
  match newOrder with
  | None => prev
  | Some newOrder =>
      if newOrder <=? 0 then prev
      else
        let active := sortByOrder (filter isActive prev) in
        let deleted := filter s_isDeleted prev in
        match findIndex (hasLocalId localId) active with
        | None => prev
        | Some idx =>
            match nth_error active idx with
            | None => prev
            | Some item =>
                let rest := removeAt idx active in
                let clamped :=
                  Z.max 1 (Z.min newOrder (Z.of_nat (List.length rest) + 1)) in
                renumber (insertAt (Z.to_nat (clamped - 1)) item rest)
                  ++ deleted
            end
        end
  end.

(** [handleAboutDelete(localId)]: the new [aboutSections]. *)
Definition handleAboutDelete (localId : jsstring) (prev : list AboutSection)
  : list AboutSection :=
  let keptActive :=
    filter (fun s => negb (hasLocalId localId s) && negb (s_isDeleted s))
      prev in
  let keptDeleted :=
    flat_map
      (fun s =>
         if hasLocalId localId s
         then if hasId s then [markDeleted s] else []
         else if s_isDeleted s then [s] else [])
      prev in
  renumber (sortByOrder keptActive) ++ keptDeleted.

(** [handleAddAboutSection()]: the new [aboutSections]; [localId] is the
    fresh [new-${Date.now()}-${Math.random()}]. *)
Definition handleAddAboutSection (localId : jsstring)
  (prev : list AboutSection) : list AboutSection :=
  let active := filter isActive prev in
  let maxOrder :=
    fold_left (fun max s => Z.max max (s_displayOrder s)) active 0 in
  let nextOrder := maxOrder + 1 in
  prev ++ [{| s_localId := localId; s_id := None; s_title := [];
              s_text := []; s_displayOrder := nextOrder; s_isNew := true;
              s_isDeleted := false |}].

(** The lists the editor's own operations leave: the sections not deleted
    first, numbered from 1 in list order, then the deleted ones. *)
Definition ordered (l : list AboutSection) : Prop :=
  l = renumber (filter isActive l) ++ filter s_isDeleted l.

End AboutEditor.

(* ================================================================== *)
(** * Properties *)
(* ================================================================== *)

(** ** Strings *)

Lemma digit_not_slash (c : char) :
  isDigit c = true -> (c =? slash)%N = false.
Proof.
  unfold isDigit, slash. intros H.
  apply andb_prop in H. destruct H as [H1 H2].
  apply N.leb_le in H1. apply N.eqb_neq. lia.
Qed.

Lemma digit_not_dash (c : char) :
  isDigit c = true -> (c =? dash)%N = false.
Proof.
  unfold isDigit, dash. intros H.
  apply andb_prop in H. destruct H as [H1 H2].
  apply N.leb_le in H1. apply N.eqb_neq. lia.
Qed.

Lemma slash_not_digit : isDigit slash = false.
Proof. reflexivity. Qed.

Lemma split_sep (sep : char) (r : jsstring) :
  split sep (sep :: r) = [] :: split sep r.
Proof. cbn [split]. now rewrite N.eqb_refl. Qed.

Lemma split_other (sep c : char) (r : jsstring) :
  (c =? sep)%N = false ->
  split sep (c :: r) =
  match split sep r with [] => [[c]] | h :: t => (c :: h) :: t end.
Proof. intros H. cbn [split]. now rewrite H. Qed.

Lemma split_nil (sep : char) : split sep [] = [[]].
Proof. reflexivity. Qed.

Lemma digitsOf_all_digits (s : jsstring) : Forall (fun c => isDigit c = true) (digitsOf s).
Proof.
  unfold digitsOf. apply Forall_forall. intros c Hc.
  apply filter_In in Hc. tauto.
Qed.

Lemma firstn_subset {A : Type} (n : nat) (l : list A) (x : A) :
  In x (firstn n l) -> In x l.
Proof.
  intros H. rewrite <- (firstn_skipn n l). apply in_or_app. now left.
Qed.

(** ** Date input shaping *)

(** Every digit string of at most eight digits, segmented: the digits are
    kept in order and a slash follows the second and the fourth when more
    digits come. *)
Lemma segment_shape (d : jsstring) :
  (List.length d <= 8)%nat ->
  segment d =
    if len d <=? 2 then d
    else if len d <=? 4 then firstn 2 d ++ [slash] ++ skipn 2 d
    else firstn 2 d ++ [slash] ++ firstn 2 (skipn 2 d) ++ [slash] ++ skipn 4 d.
Proof.
  intros Hlen.
  do 9 (destruct d as [|? d]; [reflexivity|]).
  cbn [List.length] in Hlen. lia.
Qed.

Lemma segment_digits (d : jsstring) :
  (List.length d <= 8)%nat ->
  Forall (fun c => isDigit c = true) d ->
  digitsOf (segment d) = d.
Proof.
  intros Hlen Hd.
  do 9 (destruct d as [|? d];
        [ repeat match goal with
                 | H : Forall _ (_ :: _) |- _ => inversion H; clear H; subst
                 end;
          unfold digitsOf; cbn [segment slice firstn skipn truthy app Nat.sub filter];
          repeat match goal with
                 | H : isDigit _ = true |- _ => rewrite H; clear H
                 end;
          try rewrite slash_not_digit; reflexivity
        | ]).
  cbn [List.length] in Hlen. lia.
Qed.

Lemma segment_full (d : jsstring) :
  List.length d = 8%nat ->
  Forall (fun c => isDigit c = true) d ->
  testDisplayDate (segment d) = true.
Proof.
  intros Hlen Hd.
  do 8 (destruct d as [|? d]; [discriminate|]).
  destruct d; [|discriminate].
  repeat match goal with
         | H : Forall _ (_ :: _) |- _ => inversion H; clear H; subst
         end.
  cbn [segment slice firstn skipn truthy app Nat.sub testDisplayDate].
  repeat match goal with
         | H : isDigit _ = true |- _ => rewrite H; clear H
         end.
  reflexivity.
Qed.

Lemma kept_digits (digits : jsstring) :
  (if 8 <? len digits then slice 0 8 digits else digits) = firstn 8 digits.
Proof.
  unfold slice, len. cbn [skipn Nat.sub].
  destruct (8 <? Z.of_nat (List.length digits)) eqn:E.
  - reflexivity.
  - apply Z.ltb_ge in E. symmetry. apply firstn_all2. lia.
Qed.

(** C6. The date input shaping. With [kept] the first eight digits of the
    edited text: (1) when the previous value holds eight digits or more and
    the edit has more digits than it, the field keeps its previous value;
    (2) in every other case the new value has exactly the digits [kept], at
    most eight, cut as MM/DD/YYYY, a slash after the second and after the
    fourth digit when more follow; (3) a paste of more than eight digits
    over a value with fewer than eight gives the first eight digits as a
    full MM/DD/YYYY date. *)
Theorem date_input_shaping (previous raw : jsstring) :
  let prevDigits := digitsOf previous in
  let digits := digitsOf raw in
  let kept := firstn 8 digits in
  let result := handleDateInputChange previous raw in
  (8 <= len prevDigits /\ len prevDigits < len digits -> result = previous)
  /\ (~ (8 <= len prevDigits /\ len prevDigits < len digits) ->
      digitsOf result = kept
      /\ len kept <= 8
      /\ result =
           if len kept <=? 2 then kept
           else if len kept <=? 4 then firstn 2 kept ++ [slash] ++ skipn 2 kept
           else firstn 2 kept ++ [slash] ++ firstn 2 (skipn 2 kept)
                  ++ [slash] ++ skipn 4 kept)
  /\ (len prevDigits < 8 -> 8 < len digits ->
      testDisplayDate result = true /\ digitsOf result = firstn 8 digits).
Proof.
  intros prevDigits digits kept result.
  assert (Hk : (List.length kept <= 8)%nat) by apply firstn_le_length.
  assert (Hd : Forall (fun c => isDigit c = true) kept).
  { apply Forall_forall. intros c Hc. apply firstn_subset in Hc.
    pose proof (digitsOf_all_digits raw) as H.
    rewrite Forall_forall in H. now apply H. }
  assert (Hother :
    ~ (8 <= len prevDigits /\ len prevDigits < len digits) ->
    result = segment kept).
  { intros Hn. subst result. unfold handleDateInputChange.
    fold prevDigits. fold digits.
    destruct ((8 <=? len prevDigits) && (len prevDigits <? len digits)) eqn:E.
    - apply andb_prop in E. destruct E as [E1 E2].
      apply Z.leb_le in E1. apply Z.ltb_lt in E2. tauto.
    - now rewrite kept_digits. }
  split; [|split].
  - intros [H1 H2]. subst result. unfold handleDateInputChange.
    fold prevDigits. fold digits.
    apply Z.leb_le in H1. apply Z.ltb_lt in H2. now rewrite H1, H2.
  - intros Hn. rewrite (Hother Hn). split; [|split].
    + now apply segment_digits.
    + unfold len. lia.
    + now apply segment_shape.
  - intros Hp H8.
    assert (Hn : ~ (8 <= len prevDigits /\ len prevDigits < len digits)) by lia.
    rewrite (Hother Hn). split.
    + apply segment_full; [|exact Hd].
      subst kept. rewrite firstn_length_le; [reflexivity|].
      unfold len in H8. lia.
    + now apply segment_digits.
Qed.

Example date_input_typing :
  handleDateInputChange (lit "09/01/185") (lit "09/01/1859") = lit "09/01/1859".
Proof. reflexivity. Qed.

Example date_input_full_rejects_more :
  handleDateInputChange (lit "09/01/1859") (lit "09/01/18599") = lit "09/01/1859"
  /\ handleDateInputChange (lit "09/01/1859") (lit "109/01/1859") = lit "09/01/1859".
Proof. split; reflexivity. Qed.

Example date_input_paste_truncates :
  handleDateInputChange (lit "") (lit "1859-09-01 12:30") = lit "18/59/0901".
Proof. reflexivity. Qed.

(** ** Date round trip *)

Lemma testDisplayDate_inv (s : jsstring) :
  testDisplayDate s = true ->
  exists m1 m2 d1 d2 y1 y2 y3 y4,
    s = [m1; m2; slash; d1; d2; slash; y1; y2; y3; y4]
    /\ Forall (fun c => isDigit c = true) [m1; m2; d1; d2; y1; y2; y3; y4].
Proof.
  intros H.
  do 10 (destruct s as [|? s]; [discriminate|]).
  destruct s; [|discriminate].
  cbn [testDisplayDate] in H.
  rewrite !andb_true_iff in H.
  repeat match goal with
         | E : _ /\ _ |- _ => destruct E
         end.
  repeat match goal with
         | E : (_ =? slash)%N = true |- _ => apply N.eqb_eq in E; subst
         end.
  do 8 eexists. split; [reflexivity|].
  repeat constructor; assumption.
Qed.

Lemma testIsoDate_inv (s : jsstring) :
  testIsoDate s = true ->
  exists y1 y2 y3 y4 m1 m2 d1 d2,
    s = [y1; y2; y3; y4; dash; m1; m2; dash; d1; d2]
    /\ Forall (fun c => isDigit c = true) [y1; y2; y3; y4; m1; m2; d1; d2].
Proof.
  intros H.
  do 10 (destruct s as [|? s]; [discriminate|]).
  destruct s; [|discriminate].
  cbn [testIsoDate] in H.
  rewrite !andb_true_iff in H.
  repeat match goal with
         | E : _ /\ _ |- _ => destruct E
         end.
  repeat match goal with
         | E : (_ =? dash)%N = true |- _ => apply N.eqb_eq in E; subst
         end.
  do 8 eexists. split; [reflexivity|].
  repeat constructor; assumption.
Qed.

Ltac forall_digits :=
  repeat match goal with
         | H : Forall _ (_ :: _) |- _ => inversion H; clear H; subst
         | H : Forall _ [] |- _ => clear H
         end.

Ltac split_at sepfact :=
  repeat first
    [ rewrite split_sep
    | rewrite split_nil
    | rewrite split_other by (apply sepfact; assumption) ].

Lemma buildIsoDate_display (m1 m2 d1 d2 y1 y2 y3 y4 : char) :
  Forall (fun c => isDigit c = true) [m1; m2; d1; d2; y1; y2; y3; y4] ->
  buildIsoDate [m1; m2; slash; d1; d2; slash; y1; y2; y3; y4]
  = Some [y1; y2; y3; y4; dash; m1; m2; dash; d1; d2].
Proof.
  intros H. forall_digits. unfold buildIsoDate.
  cbn [truthy len List.length Z.of_nat andb].
  split_at digit_not_slash. reflexivity.
Qed.

Lemma displayDateOf_iso (y1 y2 y3 y4 m1 m2 d1 d2 : char) (rest : jsstring) :
  Forall (fun c => isDigit c = true) [y1; y2; y3; y4; m1; m2; d1; d2] ->
  displayDateOf (Some ([y1; y2; y3; y4; dash; m1; m2; dash; d1; d2] ++ rest))
  = [m1; m2; slash; d1; d2; slash; y1; y2; y3; y4].
Proof.
  intros H. forall_digits. unfold displayDateOf.
  cbn [app truthy slice skipn firstn Nat.sub].
  split_at digit_not_dash. reflexivity.
Qed.

(** C8. The date forms are inverse to each other. For a display date [d]
    of the form two digits, slash, two digits, slash, four digits, the save
    builds a storage date, and opening an event whose stored date starts
    with it (whatever time part follows) shows [d] again; for a storage date
    [s] of the form YYYY-MM-DD, the date the editor shows is well formed and
    saving it gives [s] back. *)
Theorem date_forms_round_trip (d s : jsstring) :
  testDisplayDate d = true ->
  testIsoDate s = true ->
  (exists iso,
      buildIsoDate d = Some iso
      /\ testIsoDate iso = true
      /\ forall rest, displayDateOf (Some (iso ++ rest)) = d)
  /\ testDisplayDate (displayDateOf (Some s)) = true
  /\ buildIsoDate (displayDateOf (Some s)) = Some s.
Proof.
  intros Hd Hs. split.
  - destruct (testDisplayDate_inv d Hd)
      as (m1 & m2 & d1 & d2 & y1 & y2 & y3 & y4 & -> & Hdig).
    exists [y1; y2; y3; y4; dash; m1; m2; dash; d1; d2].
    split; [now apply buildIsoDate_display|].
    split.
    + forall_digits. cbn [testIsoDate].
      repeat match goal with
             | H : isDigit _ = true |- _ => rewrite H; clear H
             end.
      reflexivity.
    + intros rest. apply displayDateOf_iso.
      forall_digits. repeat constructor; assumption.
  - destruct (testIsoDate_inv s Hs)
      as (y1 & y2 & y3 & y4 & m1 & m2 & d1 & d2 & -> & Hdig).
    pose proof (displayDateOf_iso y1 y2 y3 y4 m1 m2 d1 d2 [] Hdig) as E.
    rewrite app_nil_r in E. unfold jsstring, char in *. rewrite E. split.
    + forall_digits. cbn [testDisplayDate].
      repeat match goal with
             | H : isDigit _ = true |- _ => rewrite H; clear H
             end.
      reflexivity.
    + apply buildIsoDate_display.
      forall_digits. repeat constructor; assumption.
Qed.

Lemma date_forms_round_trip_witness :
  testDisplayDate (lit "09/01/1859") = true
  /\ testIsoDate (lit "1859-09-01") = true
  /\ ((exists iso,
         buildIsoDate (lit "09/01/1859") = Some iso
         /\ testIsoDate iso = true
         /\ forall rest, displayDateOf (Some (iso ++ rest)) = lit "09/01/1859")
      /\ testDisplayDate (displayDateOf (Some (lit "1859-09-01"))) = true
      /\ buildIsoDate (displayDateOf (Some (lit "1859-09-01")))
         = Some (lit "1859-09-01")).
Proof.
  split; [reflexivity|]. split; [reflexivity|].
  apply (date_forms_round_trip (lit "09/01/1859") (lit "1859-09-01"));
    reflexivity.
Defined.

Example carrington_date_round_trip :
  buildIsoDate (lit "09/01/1859") = Some (lit "1859-09-01")
  /\ displayDateOf (Some (lit "1859-09-01")) = lit "09/01/1859"
  /\ displayDateOf (Some (lit "1859-09-01T00:00:00.000Z")) = lit "09/01/1859".
Proof. repeat split. Qed.

(** ** Trimming *)

Lemma trimStart_fixed (s : jsstring) :
  match s with [] => True | c :: _ => isWhiteSpace c = false end ->
  trimStart s = s.
Proof.
  destruct s as [|c r]; [reflexivity|].
  intros H. cbn [trimStart]. now rewrite H.
Qed.

Lemma trimStart_head (s : jsstring) :
  match trimStart s with [] => True | c :: _ => isWhiteSpace c = false end.
Proof.
  induction s as [|c r IH]; cbn [trimStart]; [exact I|].
  destruct (isWhiteSpace c) eqn:E; [exact IH | exact E].
Qed.

Lemma trimStart_idem (s : jsstring) : trimStart (trimStart s) = trimStart s.
Proof. apply trimStart_fixed, trimStart_head. Qed.

Lemma trimStart_snoc (l : jsstring) (c : char) :
  isWhiteSpace c = false -> trimStart (l ++ [c]) = trimStart l ++ [c].
Proof.
  intros Hc. induction l as [|x l IH]; cbn [app trimStart].
  - now rewrite Hc.
  - destruct (isWhiteSpace x); [exact IH | reflexivity].
Qed.

Lemma trimEnd_cons (c : char) (r : jsstring) :
  isWhiteSpace c = false -> trimEnd (c :: r) = c :: trimEnd r.
Proof.
  intros Hc. unfold trimEnd. cbn [rev].
  rewrite trimStart_snoc by exact Hc.
  rewrite rev_app_distr. reflexivity.
Qed.

Lemma trimEnd_idem (s : jsstring) : trimEnd (trimEnd s) = trimEnd s.
Proof.
  unfold trimEnd. rewrite rev_involutive. now rewrite trimStart_idem.
Qed.

Lemma trim_idem (s : jsstring) : trim (trim s) = trim s.
Proof.
  unfold trim. pose proof (trimStart_head s) as H.
  destruct (trimStart s) as [|c r]; [reflexivity|].
  rewrite (trimEnd_cons c r H).
  rewrite trimStart_fixed by exact H.
  rewrite (trimEnd_cons c (trimEnd r) H).
  now rewrite trimEnd_idem.
Qed.

Lemma trimStart_length (s : jsstring) :
  (List.length (trimStart s) <= List.length s)%nat.
Proof.
  induction s as [|c r IH]; cbn [trimStart]; [lia|].
  destruct (isWhiteSpace c); cbn [List.length]; lia.
Qed.

Lemma trimStart_same_length (s : jsstring) :
  List.length (trimStart s) = List.length s -> trimStart s = s.
Proof.
  destruct s as [|c r]; [reflexivity|]. cbn [trimStart].
  destruct (isWhiteSpace c); [|reflexivity].
  pose proof (trimStart_length r). cbn [List.length]. lia.
Qed.

Lemma trimEnd_length (s : jsstring) :
  (List.length (trimEnd s) <= List.length s)%nat.
Proof.
  unfold trimEnd. rewrite length_rev.
  pose proof (trimStart_length (rev s)) as H. now rewrite length_rev in H.
Qed.

Lemma trimEnd_same_length (s : jsstring) :
  List.length (trimEnd s) = List.length s -> trimEnd s = s.
Proof.
  unfold trimEnd. rewrite length_rev. intros H.
  rewrite trimStart_same_length.
  - apply rev_involutive.
  - now rewrite length_rev.
Qed.

Lemma trim_same_length (s : jsstring) :
  List.length (trim s) = List.length s -> trim s = s.
Proof.
  unfold trim. intros H.
  pose proof (trimEnd_length (trimStart s)).
  pose proof (trimStart_length s).
  assert (E : trimStart s = s) by (apply trimStart_same_length; lia).
  rewrite E in *. now apply trimEnd_same_length.
Qed.

Lemma digit_not_space (c : char) : isDigit c = true -> isWhiteSpace c = false.
Proof.
  unfold isDigit, isWhiteSpace. intros H.
  apply andb_prop in H. destruct H as [H1 H2].
  apply N.leb_le in H1. apply N.leb_le in H2.
  repeat match goal with
         | |- context [(?a <=? ?b)%N] =>
             destruct (N.leb_spec a b); try lia
         | |- context [(?a =? ?b)%N] =>
             destruct (N.eqb_spec a b); try lia
         end.
  all: reflexivity.
Qed.

(** A string that passes the date pattern has no white space to trim. *)
Lemma display_date_trim (d : jsstring) :
  testDisplayDate d = true -> trim d = d.
Proof.
  intros H.
  destruct (testDisplayDate_inv d H)
    as (m1 & m2 & d1 & d2 & y1 & y2 & y3 & y4 & -> & Hdig).
  forall_digits. unfold trim.
  rewrite trimStart_fixed by (now apply digit_not_space).
  repeat (rewrite trimEnd_cons;
          [ | first [ now apply digit_not_space | reflexivity ] ]).
  reflexivity.
Qed.

Lemma truthy_trim (s : jsstring) : truthy (trim s) = true -> truthy s = true.
Proof.
  destruct s; [|reflexivity]. intros H. exact H.
Qed.

Lemma trim_without_space (s : jsstring) :
  Forall (fun c => isWhiteSpace c = false) s -> trim s = s.
Proof.
  intros H. unfold trim.
  assert (E : trimStart s = s).
  { apply trimStart_fixed. destruct H; [exact I | assumption]. }
  rewrite E. clear E.
  induction H as [|c r Hc _ IH]; [reflexivity|].
  now rewrite trimEnd_cons, IH.
Qed.

Lemma segment_chars (d : jsstring) :
  (List.length d <= 8)%nat ->
  Forall (fun c => isDigit c = true) d ->
  Forall (fun c => isWhiteSpace c = false) (segment d).
Proof.
  intros Hlen Hd.
  do 9 (destruct d as [|? d];
        [ forall_digits;
          cbn [segment slice firstn skipn truthy app Nat.sub];
          repeat constructor;
          first [ now apply digit_not_space | reflexivity ]
        | ]).
  cbn [List.length] in Hlen. lia.
Qed.

(** The date field of the editor never holds white space, so trimming it
    changes nothing. *)
Lemma editorDate_trim (d : jsstring) : editorDate d -> trim d = d.
Proof.
  intros H. apply trim_without_space.
  induction H as [|iso rest Hiso|previous raw _ IH].
  - constructor.
  - destruct (testIsoDate_inv iso Hiso)
      as (y1 & y2 & y3 & y4 & m1 & m2 & d1 & d2 & -> & Hdig).
    rewrite (displayDateOf_iso _ _ _ _ _ _ _ _ rest Hdig).
    forall_digits.
    repeat constructor; first [ now apply digit_not_space | reflexivity ].
  - unfold handleDateInputChange.
    destruct ((8 <=? len (digitsOf previous))
              && (len (digitsOf previous) <? len (digitsOf raw)));
      [exact IH|].
    rewrite kept_digits. apply segment_chars.
    + apply firstn_le_length.
    + apply Forall_forall. intros c Hc. apply firstn_subset in Hc.
      pose proof (digitsOf_all_digits raw) as Hall.
      rewrite Forall_forall in Hall. now apply Hall.
Qed.

(** ** Validation and primary Save *)

Import Editor.

Lemma validate_errors (form : EventForm) :
  fst (validateEventForm form) =
  {| err_date := if isValidDate (date form) then [] else requiredMissing;
     err_event_type :=
       if truthy (trim (event_type form)) then [] else requiredMissing;
     err_location :=
       if truthy (trim (location form)) then [] else requiredMissing;
     err_title := if truthy (trim (title form)) then [] else requiredMissing;
     err_short_description :=
       if truthy (trim (short_description form)) then [] else requiredMissing;
     err_summary :=
       if truthy (trim (summary form)) then [] else requiredMissing;
     err_impact_on_communication :=
       if truthy (trim (impact_on_communication form)) then []
       else requiredMissing |}.
Proof.
  unfold validateEventForm, requiredError. cbn [fst].
  destruct (isValidDate (date form)),
    (truthy (trim (event_type form))), (truthy (trim (location form))),
    (truthy (trim (title form))), (truthy (trim (short_description form))),
    (truthy (trim (summary form))),
    (truthy (trim (impact_on_communication form))); reflexivity.
Qed.

Lemma validate_verdict (form : EventForm) :
  snd (validateEventForm form) =
  isValidDate (date form)
  && truthy (trim (event_type form)) && truthy (trim (location form))
  && truthy (trim (title form)) && truthy (trim (short_description form))
  && truthy (trim (summary form))
  && truthy (trim (impact_on_communication form)).
Proof.
  unfold validateEventForm, requiredError. cbn [snd].
  destruct (isValidDate (date form)),
    (truthy (trim (event_type form))), (truthy (trim (location form))),
    (truthy (trim (title form))), (truthy (trim (short_description form))),
    (truthy (trim (summary form))),
    (truthy (trim (impact_on_communication form))); reflexivity.
Qed.

Lemma truthy_false (s : jsstring) : truthy s = false <-> s = [].
Proof. destruct s; cbn; split; congruence. Qed.

(** A date that passes the pattern only once trimmed is not ten characters
    long, and [handleSaveEvent] builds no ISO date of it. *)
Lemma buildIsoDate_padded (d : jsstring) :
  testDisplayDate (trim d) = true ->
  testDisplayDate d = false ->
  buildIsoDate d = None.
Proof.
  intros Ht Hd. unfold buildIsoDate.
  destruct (len d =? 10) eqn:E; [|now rewrite andb_false_r].
  apply Z.eqb_eq in E. exfalso.
  assert (Hl : List.length (trim d) = 10%nat).
  { destruct (testDisplayDate_inv _ Ht)
      as (m1 & m2 & d1 & d2 & y1 & y2 & y3 & y4 & -> & _). reflexivity. }
  assert (Hs : trim d = d).
  { apply trim_same_length. unfold len in E. lia. }
  rewrite Hs in Ht. congruence.
Qed.

Lemma handleSaveEvent_without_date (s : Snapshot) (net : nat -> HttpResponse)
  (n : nat) :
  buildIsoDate (date (eventForm s)) = None ->
  requests (run (handleSaveEvent s) net n) = [].
Proof.
  intros H. unfold handleSaveEvent, buildPayload. rewrite H. reflexivity.
Qed.

(** C3. A Save with a required field missing stays local. When the date
    does not match the two-digit/two-digit/four-digit pattern, or one of
    type, location, title, short description, summary and impact is empty
    once trimmed, the click issues no request, marks the submit as
    attempted, and stores per-field errors in which each of the six text
    fields is flagged exactly when it is empty once trimmed, and the date is
    flagged exactly when it does not match the pattern: for every value the
    date field can hold, and for any string at all once the white space at
    its ends is set aside, which is how [isValidDate] reads it. *)
Theorem save_with_missing_field_stays_local (s : Snapshot)
  (net : nat -> HttpResponse) :
  let form := eventForm s in
  let t := run (handlePrimarySaveClick s) net 0 in
  (testDisplayDate (date form) = false
   \/ trim (event_type form) = []
   \/ trim (location form) = []
   \/ trim (title form) = []
   \/ trim (short_description form) = []
   \/ trim (summary form) = []
   \/ trim (impact_on_communication form) = []) ->
  requests t = []
  /\ In (Did (Set_ (SetEventTriedSubmit true))) t
  /\ exists errs,
      In (Did (Set_ (SetEventErrors errs))) t
      /\ err_date errs
         = (if testDisplayDate (trim (date form)) then [] else requiredMissing)
      /\ (editorDate (date form) ->
          err_date errs
          = (if testDisplayDate (date form) then [] else requiredMissing))
      /\ err_event_type errs
         = (if truthy (trim (event_type form)) then [] else requiredMissing)
      /\ err_location errs
         = (if truthy (trim (location form)) then [] else requiredMissing)
      /\ err_title errs
         = (if truthy (trim (title form)) then [] else requiredMissing)
      /\ err_short_description errs
         = (if truthy (trim (short_description form)) then []
            else requiredMissing)
      /\ err_summary errs
         = (if truthy (trim (summary form)) then [] else requiredMissing)
      /\ err_impact_on_communication errs
         = (if truthy (trim (impact_on_communication form)) then []
            else requiredMissing).
Proof.
  intros form t Hmissing. subst t. unfold handlePrimarySaveClick.
  fold form.
  pose proof (validate_errors form) as Herrs.
  pose proof (validate_verdict form) as Hverdict.
  destruct (validateEventForm form) as [next valid].
  cbn [fst snd] in Herrs, Hverdict.
  split; [|split].
  - destruct valid; cbn [negb run requests]; [|reflexivity].
    symmetry in Hverdict. rewrite !andb_true_iff in Hverdict.
    destruct Hverdict as [[[[[[Hdate Htype] Hloc] Htitle] Hshort] Hsum] Himp].
    apply handleSaveEvent_without_date. fold form.
    destruct Hmissing as [H|[H|[H|[H|[H|[H|H]]]]]];
      try (apply truthy_false in H; congruence).
    now apply buildIsoDate_padded.
  - cbn [run]. left. reflexivity.
  - exists next. split.
    + cbn [run]. right. left. reflexivity.
    + rewrite Herrs. cbn. unfold isValidDate. repeat split.
      intros Htyped. now rewrite (editorDate_trim _ Htyped).
Qed.

Lemma save_with_missing_field_stays_local_witness :
  let s :=
    {| eventForm :=
         {| date := lit "09/01/18"; event_type := lit "Solar Flare";
            location := lit "  "; title := lit "Carrington Event";
            short_description := lit "Storm"; summary := lit "Summary";
            impact_on_communication := lit "Telegraphs failed" |};
       isCreatingEvent := true; editingEvent := None;
       createQueuedMedia := [] |} in
  let net := fun _ : nat =>
    {| ok := true; status := 201; body := JsonObject (Some 7) None None |} in
  testDisplayDate (date (eventForm s)) = false
  /\ requests (run (handlePrimarySaveClick s) net 0) = []
  /\ In (Did (Set_ (SetEventTriedSubmit true)))
       (run (handlePrimarySaveClick s) net 0)
  /\ exists errs,
       In (Did (Set_ (SetEventErrors errs)))
         (run (handlePrimarySaveClick s) net 0)
       /\ err_date errs = requiredMissing
       /\ err_location errs = requiredMissing
       /\ err_title errs = [].
Proof.
  intros s net. split; [reflexivity|].
  destruct (save_with_missing_field_stays_local s net (or_introl eq_refl))
    as (H1 & H2 & errs & Hin & Hdate & _ & _ & Hloc & Htitle & _).
  split; [exact H1|]. split; [exact H2|].
  exists errs. split; [exact Hin|].
  split; [exact Hdate|]. split; [exact Hloc | exact Htitle].
Defined.

(** *** Runs of the parts of [handleSaveEvent] *)

Lemma requests_app (a b : list Event) :
  requests (a ++ b) = requests a ++ requests b.
Proof.
  induction a as [|e a IH]; cbn [app requests]; [reflexivity|].
  destruct e; cbn [app]; now rewrite IH.
Qed.

Lemma run_revokePreviews (queue : list MediaItem) (k : Prog)
  (net : nat -> HttpResponse) (n : nat) :
  exists R,
    run (revokePreviews queue k) net n = R ++ run k net n
    /\ requests R = [].
Proof.
  induction queue as [|m rest IH]; cbn [revokePreviews].
  - exists []. split; reflexivity.
  - destruct IH as (R & E & HR).
    destruct (truthyOpt (previewUrl m)).
    + exists (Did (RevokeObjectURL (orEmpty (previewUrl m))) :: R).
      cbn [run app requests]. now rewrite E.
    + exists R. now split.
Qed.

Lemma run_closeEventModal (s : Snapshot) (k : Prog)
  (net : nat -> HttpResponse) (n : nat) :
  exists R C,
    run (closeEventModal s k) net n = R ++ closing :: C ++ run k net n
    /\ requests R = [] /\ requests C = [].
Proof.
  unfold closeEventModal.
  set (C := map Did
    [Set_ (SetEditingEvent None); Set_ (SetIsCreatingEvent false);
     Set_ (SetEventMedia []); Set_ (SetEventMediaIndex 0);
     Set_ (SetEventMediaError []); Set_ (SetNewMediaUrl []);
     Set_ (SetNewMediaCaption []); Set_ (SetCreateQueuedMedia []);
     Set_ (SetCreateMediaIndex 0); Set_ (SetAddArticleOpen false);
     Set_ (SetMediaUploadError []); Set_ (SetMediaUploadBusy false);
     Set_ (SetMediaDeleteOpen false); Set_ (SetMediaDeleteTarget None)]).
  destruct (isCreatingEvent s
            && (0 <? Z.of_nat (List.length (createQueuedMedia s)))).
  - match goal with
    | |- context [revokePreviews ?q ?p] =>
        destruct (run_revokePreviews q p net n) as (R & E & HR)
    end.
    exists R, C. rewrite E. repeat split; try assumption; reflexivity.
  - exists [], C. repeat split; reflexivity.
Qed.

Lemma run_loadAdminEvents (k : list EventRow -> Prog)
  (net : nat -> HttpResponse) (n : nat) :
  exists L rows,
    run (loadAdminEvents k) net n = L ++ run (k rows) net (S n)
    /\ requests L = [GetEvents]
    /\ ~ In closing L
    /\ forall r, ok (net n) = true -> body (net n) = JsonArray r ->
                 In (Did (Set_ (SetAdminEvents r))) L.
Proof.
  unfold loadAdminEvents. cbn [run].
  destruct (ok (net n)) eqn:Hok; cbn [negb].
  - destruct (body (net n)) as [rid e d|rows|txt] eqn:Hbody.
    + exists [Did (Set_ (SetEventsLoading true)); Did (Set_ (SetEventsError []));
              Sent GetEvents; Did (Set_ (SetAdminEvents []));
              Did (Set_ (SetEventsLoading false))], [].
      repeat split; try reflexivity.
      * cbn. unfold closing. intuition discriminate.
      * discriminate.
    + exists [Did (Set_ (SetEventsLoading true)); Did (Set_ (SetEventsError []));
              Sent GetEvents; Did (Set_ (SetAdminEvents rows));
              Did (Set_ (SetEventsLoading false))], rows.
      repeat split; try reflexivity.
      * cbn. unfold closing. intuition discriminate.
      * intros r _ Hr. injection Hr as <-. cbn. tauto.
    + exists [Did (Set_ (SetEventsLoading true)); Did (Set_ (SetEventsError []));
              Sent GetEvents; Did ConsoleError;
              Did (Set_ (SetEventsError
                           (lit "Unable to load events from the database.")));
              Did (Set_ (SetEventsLoading false))], [].
      repeat split; try reflexivity.
      * cbn. unfold closing. intuition discriminate.
      * discriminate.
  - exists [Did (Set_ (SetEventsLoading true)); Did (Set_ (SetEventsError []));
            Sent GetEvents; Did ConsoleError;
            Did (Set_ (SetEventsError
                         (lit "Unable to load events from the database.")));
            Did (Set_ (SetEventsLoading false))], [].
    repeat split; try reflexivity.
    * cbn. unfold closing. intuition discriminate.
    * discriminate.
Qed.

Lemma run_uploadQueued (createdId total : Z) (queue : list MediaItem)
  (k : Prog) (net : nat -> HttpResponse) :
  forall (i : Z) (n : nat),
    (forall j, (j < List.length queue)%nat -> ok (net (n + j)%nat) = true) ->
    exists U,
      run (uploadQueued createdId total i queue k) net n
      = U ++ run k net (n + List.length queue)%nat
      /\ requests U = map (uploadOf createdId) queue
      /\ ~ In closing U.
Proof.
  induction queue as [|m rest IH]; intros i n Hok.
  - exists []. cbn [uploadQueued List.length app requests map].
    rewrite Nat.add_0_r. repeat split. intros [].
  - cbn [uploadQueued run].
    assert (H0 : ok (net n) = true).
    { specialize (Hok 0%nat). rewrite Nat.add_0_r in Hok.
      apply Hok. cbn. lia. }
    rewrite H0. cbn [negb].
    destruct (IH (i + 1) (S n)) as (U & E & HU & HC).
    { intros j Hj. replace (S n + j)%nat with (n + S j)%nat by lia.
      apply Hok. cbn. lia. }
    replace (n + List.length (m :: rest))%nat
      with (S n + List.length rest)%nat by (cbn; lia).
    destruct (truthyOpt (previewUrl m)).
    + exists (Did (Set_ (SetCreateMediaUploadingText (uploadingText i total)))
              :: Sent (uploadOf createdId m)
              :: Did (RevokeObjectURL (orEmpty (previewUrl m))) :: U).
      cbn [run app requests map]. rewrite E, HU. repeat split.
      cbn. unfold closing in *. intuition discriminate.
    + exists (Did (Set_ (SetCreateMediaUploadingText (uploadingText i total)))
              :: Sent (uploadOf createdId m) :: U).
      cbn [run app requests map]. rewrite E, HU. repeat split.
      cbn. unfold closing in *. intuition discriminate.
Qed.

Lemma run_refresh_and_close (s : Snapshot) (net : nat -> HttpResponse)
  (n : nat) :
  exists pre post,
    run (loadAdminEvents (fun _ =>
         loadAdminEvents (fun _ =>
         closeEventModal s (finallyBlock Done)))) net n
    = pre ++ closing :: post
    /\ requests pre = [GetEvents; GetEvents]
    /\ requests post = []
    /\ forall rows, ok (net (S n)) = true ->
                    body (net (S n)) = JsonArray rows ->
                    In (Did (Set_ (SetAdminEvents rows))) pre.
Proof.
  destruct (run_loadAdminEvents
              (fun _ => loadAdminEvents (fun _ =>
                        closeEventModal s (finallyBlock Done))) net n)
    as (L1 & rows1 & E1 & HL1 & _ & _).
  destruct (run_loadAdminEvents
              (fun _ => closeEventModal s (finallyBlock Done)) net (S n))
    as (L2 & rows2 & E2 & HL2 & _ & Hset).
  destruct (run_closeEventModal s (finallyBlock Done) net (S (S n)))
    as (R & C & E3 & HR & HC).
  exists (L1 ++ L2 ++ R), (C ++ run (finallyBlock Done) net (S (S n))).
  rewrite E1, E2, E3. rewrite <- !app_assoc.
  split; [reflexivity|]. split; [|split].
  - rewrite !requests_app, HL1, HL2, HR. reflexivity.
  - rewrite requests_app, HC. reflexivity.
  - intros rows Hok Hbody. apply in_or_app. right. apply in_or_app. left.
    now apply Hset.
Qed.

Lemma valid_form_not_missing (form : EventForm) :
  testDisplayDate (date form) = true ->
  trim (event_type form) <> [] ->
  trim (location form) <> [] ->
  trim (title form) <> [] ->
  trim (short_description form) <> [] ->
  trim (summary form) <> [] ->
  trim (impact_on_communication form) <> [] ->
  negb (truthyOpt (p_event_date (buildPayload form)))
  || negb (truthy (trim (orEmpty (p_event_type (buildPayload form)))))
  || negb (truthy (trim (p_location (buildPayload form))))
  || negb (truthy (trim (p_title (buildPayload form))))
  || negb (truthy (trim (p_short_description (buildPayload form))))
  || negb (truthy (trim (p_summary (buildPayload form))))
  || negb (truthy (trim (p_impact_on_communication (buildPayload form))))
  = false.
Proof.
  intros Hd Hty Hlo Hti Hsh Hsu Him.
  assert (T : forall x, trim x <> [] -> truthy (trim x) = true).
  { intros x Hx. destruct (trim x); [congruence | reflexivity]. }
  unfold buildPayload. cbn [p_event_date p_event_type p_location p_title
    p_short_description p_summary p_impact_on_communication].
  rewrite !trim_idem.
  rewrite (T _ Hlo), (T _ Hti), (T _ Hsh), (T _ Hsu), (T _ Him).
  destruct (testDisplayDate_inv _ Hd)
    as (m1 & m2 & d1 & d2 & y1 & y2 & y3 & y4 & E & Hdig).
  rewrite E, (buildIsoDate_display _ _ _ _ _ _ _ _ Hdig).
  unfold orNull. rewrite (truthy_trim _ (T _ Hty)).
  cbn [orEmpty]. rewrite (T _ Hty). reflexivity.
Qed.

Lemma valid_form_passes_validation (form : EventForm) :
  testDisplayDate (date form) = true ->
  trim (event_type form) <> [] ->
  trim (location form) <> [] ->
  trim (title form) <> [] ->
  trim (short_description form) <> [] ->
  trim (summary form) <> [] ->
  trim (impact_on_communication form) <> [] ->
  snd (validateEventForm form) = true.
Proof.
  intros Hd Hty Hlo Hti Hsh Hsu Him.
  assert (T : forall x, trim x <> [] -> truthy (trim x) = true).
  { intros x Hx. destruct (trim x); [congruence | reflexivity]. }
  rewrite validate_verdict. unfold isValidDate.
  rewrite (display_date_trim _ Hd), Hd.
  rewrite (T _ Hty), (T _ Hlo), (T _ Hti), (T _ Hsh), (T _ Hsu), (T _ Him).
  reflexivity.
Qed.

(** C1. Save in create mode. With the seven fields valid (the date of the
    two-digit/two-digit/four-digit form, the six others not empty once
    trimmed), N media items queued, a create call that is answered ok with
    the id of the new event (needed only when media are queued), and the N
    uploads answered ok: the run issues exactly the create call with the
    built payload, then one upload per queued item in the order of the
    queue, under the new id, then the reloads of the event list; the modal
    closes after all of these and nothing is requested after it; and the
    rows the last reload returns are stored as the event list. Each request
    is issued by the continuation that received the answer to the one
    before it. *)
Theorem create_save_creates_once_then_uploads_in_order (s : Snapshot)
  (net : nat -> HttpResponse) :
  let form := eventForm s in
  let queue := createQueuedMedia s in
  let N := List.length queue in
  let createdId :=
    match idOf (body (net 0%nat)) with Some i => i | None => 0 end in
  isCreatingEvent s = true ->
  testDisplayDate (date form) = true ->
  trim (event_type form) <> [] ->
  trim (location form) <> [] ->
  trim (title form) <> [] ->
  trim (short_description form) <> [] ->
  trim (summary form) <> [] ->
  trim (impact_on_communication form) <> [] ->
  ok (net 0%nat) = true ->
  (queue = [] \/ createdId <> 0) ->
  (forall j, (1 <= j <= N)%nat -> ok (net j) = true) ->
  exists pre post,
    run (handlePrimarySaveClick s) net 0 = pre ++ closing :: post
    /\ requests pre
       = PostEvent (buildPayload form)
           :: map (uploadOf createdId) queue ++ [GetEvents; GetEvents]
    /\ requests post = []
    /\ forall rows,
         ok (net (N + 2)%nat) = true ->
         body (net (N + 2)%nat) = JsonArray rows ->
         In (Did (Set_ (SetAdminEvents rows))) pre.
Proof.
  intros form queue N createdId Hcreate Hd Hty Hlo Hti Hsh Hsu Him
    Hok Hid Hups.
  unfold handlePrimarySaveClick. fold form.
  pose proof (valid_form_passes_validation form Hd Hty Hlo Hti Hsh Hsu Him)
    as Hvalid.
  destruct (validateEventForm form) as [next valid]. cbn [snd] in Hvalid.
  subst valid. cbn [negb].
  unfold handleSaveEvent. cbv zeta. fold form.
  rewrite (valid_form_not_missing form Hd Hty Hlo Hti Hsh Hsu Him).
  rewrite Hcreate. cbn [run]. rewrite Hok. cbn [negb].
  fold queue. fold N.
  set (head :=
    [Did (Set_ (SetEventTriedSubmit true)); Did (Set_ (SetEventErrors next));
     Did (Set_ (SetEventSaving true)); Sent (PostEvent (buildPayload form))]).
  assert (Hdirect :
    queue = [] ->
    exists pre post,
      Did (Set_ (SetEventTriedSubmit true))
      :: Did (Set_ (SetEventErrors next))
      :: Did (Set_ (SetEventSaving true))
      :: Sent (PostEvent (buildPayload form))
      :: run (loadAdminEvents (fun _ =>
              loadAdminEvents (fun _ =>
              closeEventModal s (finallyBlock Done)))) net 1
      = pre ++ closing :: post
      /\ requests pre
         = PostEvent (buildPayload form)
             :: map (uploadOf createdId) queue ++ [GetEvents; GetEvents]
      /\ requests post = []
      /\ forall rows,
           ok (net (N + 2)%nat) = true ->
           body (net (N + 2)%nat) = JsonArray rows ->
           In (Did (Set_ (SetAdminEvents rows))) pre).
  { intros Hq.
    destruct (run_refresh_and_close s net 1) as (pre & post & E & Hp & Hq' & Hr).
    exists (head ++ pre), post. rewrite E. subst head.
    split; [reflexivity|]. split; [|split].
    - rewrite requests_app, Hp, Hq. reflexivity.
    - exact Hq'.
    - intros rows H1 H2. apply in_or_app. right. apply Hr.
      + subst N. rewrite Hq in H1. exact H1.
      + subst N. rewrite Hq in H2. exact H2. }
  destruct (idOf (body (net 0%nat))) as [cid|] eqn:Ecid.
  - destruct (negb (cid =? 0) && (0 <? Z.of_nat N)) eqn:Econd.
    + cbn [run].
      destruct (run_uploadQueued cid (Z.of_nat N) queue
                  (Set_ (SetCreateQueuedMedia []) ;;
                   Set_ (SetCreateMediaIndex 0) ;;
                   Set_ (SetCreateMediaUploading false) ;;
                   Set_ (SetCreateMediaUploadingText []) ;;
                   loadAdminEvents (fun _ =>
                   loadAdminEvents (fun _ =>
                   closeEventModal s (finallyBlock Done))))
                  net 0 1%nat) as (U & EU & HU & _).
      { intros j Hj. apply Hups. fold N in Hj. lia. }
      rewrite EU. cbn [run]. fold N.
      destruct (run_refresh_and_close s net (1 + N))
        as (pre & post & E & Hp & Hq' & Hr).
      rewrite E.
      exists (head ++ [Did (Set_ (SetCreateMediaUploading true))] ++ U
              ++ map Did [Set_ (SetCreateQueuedMedia []);
                          Set_ (SetCreateMediaIndex 0);
                          Set_ (SetCreateMediaUploading false);
                          Set_ (SetCreateMediaUploadingText [])]
              ++ pre), post.
      subst head. split; [|split; [|split]].
      * cbn [app map]. rewrite <- !app_assoc. reflexivity.
      * rewrite !requests_app, HU, Hp. subst createdId. reflexivity.
      * exact Hq'.
      * intros rows H1 H2.
        apply in_or_app. right. apply in_or_app. right.
        apply in_or_app. right. apply in_or_app. right.
        apply Hr; [rewrite <- H1 | rewrite <- H2]; do 2 f_equal; lia.
    + apply Hdirect.
      apply andb_false_iff in Econd. destruct Econd as [Ec|Ec].
      * apply negb_false_iff, Z.eqb_eq in Ec. subst createdId.
        destruct Hid as [Hq|Hq]; [exact Hq | congruence].
      * apply Z.ltb_ge in Ec. subst N.
        destruct queue; [reflexivity | cbn [List.length] in Ec; lia].
  - apply Hdirect. subst createdId.
    destruct Hid as [Hq|Hq]; [exact Hq | congruence].
Qed.

Lemma create_save_creates_once_then_uploads_in_order_witness :
  let s :=
    {| eventForm :=
         {| date := lit "09/01/1859"; event_type := lit "Solar Flare";
            location := lit "Worldwide"; title := lit "Carrington Event";
            short_description := lit "Storm"; summary := lit "Summary";
            impact_on_communication := lit "Telegraphs failed" |};
       isCreatingEvent := true; editingEvent := None;
       createQueuedMedia :=
         [queuedItem (lit "local-1") 1 (lit "blob:1") (lit "A");
          queuedItem (lit "local-2") 2 (lit "blob:2") (lit "B")] |} in
  let net := fun n : nat =>
    match n with
    | O => {| ok := true; status := 201; body := JsonObject (Some 7) None None |}
    | _ => {| ok := true; status := 200; body := JsonArray [] |}
    end in
  exists pre post,
    run (handlePrimarySaveClick s) net 0 = pre ++ closing :: post
    /\ requests pre
       = [PostEvent (buildPayload (eventForm s));
          PostEventMedia 7 (Some 1) (lit "A");
          PostEventMedia 7 (Some 2) (lit "B");
          GetEvents; GetEvents]
    /\ requests post = [].
Proof.
  intros s net.
  destruct (create_save_creates_once_then_uploads_in_order s net)
    as (pre & post & E & Hpre & Hpost & _);
    try reflexivity; try (vm_compute; discriminate).
  - right. vm_compute. discriminate.
  - intros j _. destruct j; reflexivity.
  - exists pre, post. repeat split; assumption.
Defined.

Lemma run_uploadQueued_failure (createdId total : Z) (m : MediaItem)
  (rest : list MediaItem) (k : Prog) (net : nat -> HttpResponse) :
  forall (sent : list MediaItem) (i : Z) (n : nat),
    (forall j, (j < List.length sent)%nat -> ok (net (n + j)%nat) = true) ->
    ok (net (n + List.length sent)%nat) = false ->
    requests (run (uploadQueued createdId total i (sent ++ m :: rest) k) net n)
    = map (uploadOf createdId) (sent ++ [m])
    /\ ~ In closing
         (run (uploadQueued createdId total i (sent ++ m :: rest) k) net n).
Proof.
  induction sent as [|x sent IH]; intros i n Hok Hfail.
  - cbn [List.length] in Hfail. rewrite Nat.add_0_r in Hfail.
    cbn [app uploadQueued run]. rewrite Hfail. cbn [negb].
    split; [reflexivity|].
    cbn. unfold closing. intuition discriminate.
  - cbn [app uploadQueued run].
    assert (H0 : ok (net n) = true).
    { specialize (Hok 0%nat). rewrite Nat.add_0_r in Hok.
      apply Hok. cbn. lia. }
    rewrite H0. cbn [negb].
    destruct (IH (i + 1) (S n)) as (HR & HC).
    { intros j Hj. replace (S n + j)%nat with (n + S j)%nat by lia.
      apply Hok. cbn. lia. }
    { replace (S n + List.length sent)%nat
        with (n + List.length (x :: sent))%nat by (cbn; lia).
      exact Hfail. }
    destruct (truthyOpt (previewUrl x)); cbn [run requests map];
      rewrite HR; (split; [reflexivity|]);
      cbn; unfold closing in *; intuition discriminate.
Qed.

(** X1. An upload that is not answered ok ends the sequence: the items
    after it are not sent, the event list is not reloaded and the modal
    stays open. *)
Lemma create_save_stops_at_failed_upload (s : Snapshot)
  (net : nat -> HttpResponse) (createdId : Z)
  (sent : list MediaItem) (m : MediaItem) (rest : list MediaItem) :
  let form := eventForm s in
  isCreatingEvent s = true ->
  testDisplayDate (date form) = true ->
  trim (event_type form) <> [] ->
  trim (location form) <> [] ->
  trim (title form) <> [] ->
  trim (short_description form) <> [] ->
  trim (summary form) <> [] ->
  trim (impact_on_communication form) <> [] ->
  createQueuedMedia s = sent ++ m :: rest ->
  ok (net 0%nat) = true ->
  idOf (body (net 0%nat)) = Some createdId ->
  createdId <> 0 ->
  (forall j, (1 <= j <= List.length sent)%nat -> ok (net j) = true) ->
  ok (net (S (List.length sent))) = false ->
  requests (run (handlePrimarySaveClick s) net 0)
  = PostEvent (buildPayload form) :: map (uploadOf createdId) (sent ++ [m])
  /\ ~ In closing (run (handlePrimarySaveClick s) net 0).
Proof.
  intros form Hcreate Hd Hty Hlo Hti Hsh Hsu Him Hq Hok Hid Hnz Hups Hfail.
  unfold handlePrimarySaveClick. fold form.
  pose proof (valid_form_passes_validation form Hd Hty Hlo Hti Hsh Hsu Him)
    as Hvalid.
  destruct (validateEventForm form) as [next valid]. cbn [snd] in Hvalid.
  subst valid. cbn [negb].
  unfold handleSaveEvent. cbv zeta. fold form.
  rewrite (valid_form_not_missing form Hd Hty Hlo Hti Hsh Hsu Him).
  rewrite Hcreate. cbn [run]. rewrite Hok, Hid. cbn [negb].
  assert (Hcond :
    negb (createdId =? 0)
    && (0 <? Z.of_nat (List.length (createQueuedMedia s))) = true).
  { apply andb_true_iff. split.
    - apply negb_true_iff, Z.eqb_neq. exact Hnz.
    - apply Z.ltb_lt. rewrite Hq, length_app. cbn [List.length]. lia. }
  rewrite Hcond. cbn [run requests]. rewrite Hq.
  match goal with
  | |- context [uploadQueued createdId ?total 0 _ ?k] =>
      destruct (run_uploadQueued_failure createdId total m rest k net
                  sent 0 1%nat) as (HR & HC)
  end.
  - intros j Hj. apply Hups. lia.
  - exact Hfail.
  - rewrite HR. split; [reflexivity|].
    cbn. unfold closing in *. intuition discriminate.
Qed.

Lemma create_save_stops_at_failed_upload_witness :
  let a := queuedItem (lit "local-1") 1 (lit "blob:1") (lit "A") in
  let b := queuedItem (lit "local-2") 2 (lit "blob:2") (lit "B") in
  let c := queuedItem (lit "local-3") 3 (lit "blob:3") (lit "C") in
  let s :=
    {| eventForm :=
         {| date := lit "09/01/1859"; event_type := lit "Solar Flare";
            location := lit "Worldwide"; title := lit "Carrington Event";
            short_description := lit "Storm"; summary := lit "Summary";
            impact_on_communication := lit "Telegraphs failed" |};
       isCreatingEvent := true; editingEvent := None;
       createQueuedMedia := [a; b; c] |} in
  let net := fun n : nat =>
    match n with
    | 0%nat =>
        {| ok := true; status := 201; body := JsonObject (Some 7) None None |}
    | 2%nat =>
        {| ok := false; status := 500;
           body := JsonObject None (Some (lit "Upload failed")) None |}
    | _ => {| ok := true; status := 200; body := JsonArray [] |}
    end in
  requests (run (handlePrimarySaveClick s) net 0)
  = [PostEvent (buildPayload (eventForm s));
     PostEventMedia 7 (Some 1) (lit "A");
     PostEventMedia 7 (Some 2) (lit "B")]
  /\ ~ In closing (run (handlePrimarySaveClick s) net 0).
Proof.
  intros a b c s net.
  apply (create_save_stops_at_failed_upload s net 7 [a] b [c]);
    try reflexivity; try (vm_compute; discriminate).
  intros j Hj. cbn [List.length] in Hj.
  assert (E : j = 1%nat) by lia. subst j. reflexivity.
Defined.

(** X5. Whatever the network answers, a Save of a valid form in create
    mode issues the create call exactly once, as its first request. *)
Lemma create_save_always_creates_once (s : Snapshot)
  (net : nat -> HttpResponse) :
  let form := eventForm s in
  isCreatingEvent s = true ->
  testDisplayDate (date form) = true ->
  trim (event_type form) <> [] ->
  trim (location form) <> [] ->
  trim (title form) <> [] ->
  trim (short_description form) <> [] ->
  trim (summary form) <> [] ->
  trim (impact_on_communication form) <> [] ->
  exists rest,
    requests (run (handlePrimarySaveClick s) net 0)
    = PostEvent (buildPayload form) :: rest
    /\ Forall (fun r => isCreate r = false) rest.
Proof.
  intros form Hcreate Hd Hty Hlo Hti Hsh Hsu Him.
  assert (Hrefresh : forall n,
    Forall (fun r => isCreate r = false)
      (requests (run (loadAdminEvents (fun _ =>
                      loadAdminEvents (fun _ =>
                      closeEventModal s (finallyBlock Done)))) net n))).
  { intros n.
    destruct (run_refresh_and_close s net n) as (pre & post & E & Hp & Hq & _).
    rewrite E, requests_app. cbn [requests]. rewrite Hp, Hq.
    repeat constructor. }
  assert (Huploads : forall cid total queue k,
    (forall n, Forall (fun r => isCreate r = false) (requests (run k net n))) ->
    forall i n,
      Forall (fun r => isCreate r = false)
        (requests (run (uploadQueued cid total i queue k) net n))).
  { intros cid total queue k Hk.
    induction queue as [|m rest IH]; intros i n; cbn [uploadQueued].
    - apply Hk.
    - cbn [run requests]. constructor; [reflexivity|].
      destruct (ok (net n)); cbn [negb].
      + destruct (truthyOpt (previewUrl m)); cbn [run requests]; apply IH.
      + cbn. constructor. }
  unfold handlePrimarySaveClick. fold form.
  pose proof (valid_form_passes_validation form Hd Hty Hlo Hti Hsh Hsu Him)
    as Hvalid.
  destruct (validateEventForm form) as [next valid]. cbn [snd] in Hvalid.
  subst valid. cbn [negb].
  unfold handleSaveEvent. cbv zeta. fold form.
  rewrite (valid_form_not_missing form Hd Hty Hlo Hti Hsh Hsu Him).
  rewrite Hcreate. cbn [run requests].
  eexists. split; [reflexivity|].
  destruct (ok (net 0%nat)); cbn [negb].
  - destruct (idOf (body (net 0%nat))) as [cid|]; [|apply Hrefresh].
    destruct (negb (cid =? 0)
              && (0 <? Z.of_nat (List.length (createQueuedMedia s))));
      [|apply Hrefresh].
    cbn [run requests]. apply Huploads. intros n.
    cbn [run requests]. apply Hrefresh.
  - cbn. constructor.
Qed.

Lemma create_save_always_creates_once_witness :
  let s :=
    {| eventForm :=
         {| date := lit "09/01/1859"; event_type := lit "Solar Flare";
            location := lit "Worldwide"; title := lit "Carrington Event";
            short_description := lit "Storm"; summary := lit "Summary";
            impact_on_communication := lit "Telegraphs failed" |};
       isCreatingEvent := true; editingEvent := None;
       createQueuedMedia :=
         [queuedItem (lit "local-1") 1 (lit "blob:1") (lit "A")] |} in
  let net := fun _ : nat =>
    {| ok := false; status := 500; body := TextBody (lit "down") |} in
  exists rest,
    requests (run (handlePrimarySaveClick s) net 0)
    = PostEvent (buildPayload (eventForm s)) :: rest
    /\ Forall (fun r => isCreate r = false) rest.
Proof.
  intros s net.
  apply (create_save_always_creates_once s net);
    try reflexivity; vm_compute; discriminate.
Defined.

(** ** The media panel *)

Import MediaPanel.

Lemma jseqb_refl (s : jsstring) : JS.eqb s s = true.
Proof.
  induction s as [|c r IH]; cbn [JS.eqb]; [reflexivity|].
  now rewrite N.eqb_refl, IH.
Qed.

Lemma optStr_eqb_refl (v : option jsstring) : optStr_eqb v v = true.
Proof. destruct v; cbn [optStr_eqb]; [apply jseqb_refl | reflexivity]. Qed.

Lemma optZ_eqb_refl (v : option Z) : optZ_eqb v v = true.
Proof. destruct v; cbn [optZ_eqb]; [apply Z.eqb_refl | reflexivity]. Qed.

Lemma optZ_eqb_neq (a b : option Z) : a <> b -> optZ_eqb a b = false.
Proof.
  destruct a as [x|], b as [y|]; cbn [optZ_eqb]; intros H;
    try reflexivity; try congruence.
  apply Z.eqb_neq. congruence.
Qed.

(** A filter that rejects a member of the list makes it shorter. *)
Lemma filter_drops_member {A : Type} (f : A -> bool) (l : list A) (x : A) :
  In x l -> f x = false ->
  (List.length (filter f l) < List.length l)%nat.
Proof.
  induction l as [|y l IH]; intros Hin Hf; [destruct Hin|].
  cbn [filter]. destruct Hin as [->|Hin].
  - rewrite Hf. pose proof (filter_length_le f l). cbn [List.length]. lia.
  - specialize (IH Hin Hf).
    destruct (f y); cbn [List.length]; lia.
Qed.

(** C7. The index after a delete. In create mode and in edit mode alike,
    once an item of a list of M media is deleted while the index is not
    negative: the list is shorter; deleting the only item leaves the empty
    list and the index 0; with M at least 2 the index lies in [0, M-2]; and
    the index is a position of the shortened list whenever that list is not
    empty, and 0 when it is. *)
Theorem delete_keeps_index_in_bounds (mode : Mode) (media : list MediaItem)
  (idx : Z) (item : MediaItem) :
  In item media ->
  0 <= idx ->
  let M := Z.of_nat (List.length media) in
  let next := fst (deleteMedia mode media idx item) in
  let idx' := snd (deleteMedia mode media idx item) in
  Z.of_nat (List.length next) <= M - 1
  /\ (M = 1 -> next = [] /\ idx' = 0)
  /\ (2 <= M -> 0 <= idx' <= M - 2)
  /\ (next <> [] -> 0 <= idx' < Z.of_nat (List.length next))
  /\ (next = [] -> idx' = 0).
Proof.
  intros Hin Hidx M next idx'.
  assert (Hshort : Z.of_nat (List.length next) <= M - 1).
  { subst next M. destruct mode; cbn [deleteMedia fst];
      unfold onDeleteMedia, confirmDeleteMedia; cbn [negb fst].
    - pose proof (filter_drops_member
        (fun m => negb (optStr_eqb (localId m) (localId item))) media item Hin)
        as H.
      cbv beta in H. rewrite optStr_eqb_refl in H. specialize (H eq_refl). lia.
    - pose proof (filter_drops_member
        (fun m => negb (optZ_eqb (id m) (id item))) media item Hin) as H.
      cbv beta in H. rewrite optZ_eqb_refl in H. specialize (H eq_refl). lia. }
  assert (Hidx' :
    idx' = if Z.of_nat (List.length next) =? 0 then 0
           else Z.min idx (Z.of_nat (List.length next) - 1)).
  { subst idx' next. destruct mode; cbn [deleteMedia fst snd];
      unfold onDeleteMedia, confirmDeleteMedia; cbn [negb fst snd].
    - destruct (Z.of_nat (List.length
        (filter (fun m => negb (optStr_eqb (localId m) (localId item))) media))
        =? 0); reflexivity.
    - destruct (Z.of_nat (List.length
        (filter (fun m => negb (optZ_eqb (id m) (id item))) media)) =? 0);
        [reflexivity|].
      match goal with
      | |- context [?n <=? idx] => destruct (Z.leb_spec n idx)
      end; lia. }
  split; [exact Hshort|].
  destruct next as [|x next'].
  - cbn [List.length] in *. cbn in Hidx'.
    repeat split; try congruence; lia.
  - assert (Hn : 1 <= Z.of_nat (List.length (x :: next')))
      by (cbn [List.length]; lia).
    destruct (Z.eqb_spec (Z.of_nat (List.length (x :: next'))) 0) as [E|_];
      [lia|].
    repeat split; try congruence; try lia; intros; lia.
Qed.

Lemma delete_keeps_index_in_bounds_witness :
  let a := persistedItem 11 (lit "https://cdn/a.jpg") (Some (lit "A")) in
  let b := persistedItem 12 (lit "https://cdn/b.jpg") (Some (lit "B")) in
  In b [a; b]
  /\ 0 <= 1
  /\ deleteMedia EditMode [a; b] 1 b = ([a], 0)
  /\ (2 <= Z.of_nat (List.length [a; b]) ->
      0 <= snd (deleteMedia EditMode [a; b] 1 b)
        <= Z.of_nat (List.length [a; b]) - 2).
Proof.
  intros a b.
  assert (Hin : In b [a; b]) by (right; left; reflexivity).
  split; [exact Hin|]. split; [lia|]. split; [reflexivity|].
  apply (delete_keeps_index_in_bounds EditMode [a; b] 1 b Hin); lia.
Defined.

(** The buttons and the range effect keep a valid index valid. *)
Lemma navigation_keeps_index_in_bounds (media : list MediaItem) (idx : Z) :
  0 <= idx < Z.of_nat (List.length media) ->
  0 <= previousIndex media idx < Z.of_nat (List.length media)
  /\ 0 <= nextIndex media idx < Z.of_nat (List.length media).
Proof.
  intros H. unfold previousIndex, nextIndex.
  split; apply Z.rem_bound_pos; lia.
Qed.

Lemma clampIndex_in_bounds (media : list MediaItem) (idx : Z) :
  (media = [] -> clampIndex media idx = 0)
  /\ (media <> [] ->
      0 <= clampIndex media idx < Z.of_nat (List.length media)).
Proof.
  unfold clampIndex. split.
  - intros ->. reflexivity.
  - intros Hne.
    assert (1 <= Z.of_nat (List.length media)).
    { destruct media; [congruence | cbn [List.length]; lia]. }
    destruct (Z.eqb_spec (Z.of_nat (List.length media)) 0); [lia|].
    destruct (Z.ltb_spec idx 0); [lia|].
    destruct (Z.leb_spec (Z.of_nat (List.length media)) idx); lia.
Qed.

Example delete_sole_queued_item :
  let a := queuedItem (lit "local-1") 1 (lit "blob:1") (lit "A") in
  deleteMedia CreateMode [a] 0 a = ([], 0).
Proof. reflexivity. Qed.

Example delete_last_of_three_queued :
  let a := queuedItem (lit "local-1") 1 (lit "blob:1") (lit "A") in
  let b := queuedItem (lit "local-2") 2 (lit "blob:2") (lit "B") in
  let c := queuedItem (lit "local-3") 3 (lit "blob:3") (lit "C") in
  deleteMedia CreateMode [a; b; c] 2 c = ([a; b], 1).
Proof. reflexivity. Qed.

(** ** The caption-reset effect *)

(** X2. In edit mode the effect does its work: when the shown item changes
    to one with another [id], the editing flag is cleared and the draft is
    the caption of the item now shown. *)
Lemma caption_resets_when_id_changes (media : list MediaItem) (from to : Z)
  (st : CaptionState) (a b : MediaItem) :
  currentMedia media from = Some a ->
  currentMedia media to = Some b ->
  id a <> id b ->
  switchMedia media from to st
  = {| captionEditing := false; captionDraft := orEmpty (caption b) |}.
Proof.
  intros Ha Hb Hne. unfold switchMedia, commitCaptionEffect.
  rewrite Ha, Hb. cbn [captionDeps].
  rewrite (optZ_eqb_neq _ _ Hne). reflexivity.
Qed.

Lemma caption_resets_when_id_changes_witness :
  let a := persistedItem 11 (lit "https://cdn/a.jpg") (Some (lit "A")) in
  let b := persistedItem 12 (lit "https://cdn/b.jpg") (Some (lit "B")) in
  let st := {| captionEditing := true; captionDraft := lit "B, edited" |} in
  switchMedia [a; b] 1 0 st
  = {| captionEditing := false; captionDraft := lit "A" |}.
Proof.
  intros a b st.
  apply (caption_resets_when_id_changes [a; b] 1 0 st b a);
    try reflexivity. discriminate.
Defined.

(** Queued items carry no [id]: between them the dependency of the effect
    never changes, so the effect does not run and the caption edit in
    progress is kept, whatever item is shown next. *)
Lemma caption_kept_between_queued_items (media : list MediaItem)
  (from to : Z) (st : CaptionState) :
  (forall m, In m media -> id m = None) ->
  switchMedia media from to st = st.
Proof.
  intros Hq.
  assert (D : forall i, captionDeps (currentMedia media i) = None).
  { intros i. unfold captionDeps.
    destruct (currentMedia media i) as [m|] eqn:E; [|reflexivity].
    apply Hq. unfold currentMedia, at_ in E.
    destruct media as [|x l]; [discriminate|].
    destruct (safeIndex (x :: l) i <? 0); [discriminate|].
    now apply nth_error_In in E. }
  unfold switchMedia, commitCaptionEffect. now rewrite !D.
Qed.

(** C4, at a failing input. Create mode, two queued items with captions
    "A" and "B", the second one shown and its caption being edited: the
    Previous button shows the first item, a different one, and the editing
    flag stays set with the draft of the other item instead of being reset
    to not editing with the draft "A". *)
Theorem caption_edit_survives_switch_in_create_mode :
  let a := queuedItem (lit "local-1") 1 (lit "blob:1") (lit "A") in
  let b := queuedItem (lit "local-2") 2 (lit "blob:2") (lit "B") in
  let st := {| captionEditing := true; captionDraft := lit "B, edited" |} in
  currentMedia [a; b] 1 = Some b
  /\ previousIndex [a; b] 1 = 0
  /\ currentMedia [a; b] 0 = Some a
  /\ a <> b
  /\ switchMedia [a; b] 1 (previousIndex [a; b] 1) st = st
  /\ switchMedia [a; b] 1 (previousIndex [a; b] 1) st
     <> {| captionEditing := false; captionDraft := lit "A" |}.
Proof.
  cbv zeta. repeat split; try discriminate.
Qed.

(** ** Year search *)

Import YearSearch.

Lemma isTarget_true (num : Z) (y : YearLabel) :
  isTarget num y = true <-> y = YearOf num.
Proof.
  destruct y as [|v]; cbn [isTarget]; split; intros H; try discriminate.
  - apply Z.eqb_eq in H. now subst.
  - injection H as ->. apply Z.eqb_refl.
Qed.

Lemma exact_year_found (num : Z) (years : list YearLabel) :
  existsb (isTarget num) years = true <-> In (YearOf num) years.
Proof.
  rewrite existsb_exists. split.
  - intros (y & Hin & Hy). apply isTarget_true in Hy. now subst.
  - intros Hin. exists (YearOf num). split; [exact Hin|].
    now apply isTarget_true.
Qed.

(** The [forEach] loop ends with the target year and [hasExact] set when
    the target is among the years, and leaves its variables alone
    otherwise. *)
Lemma forEach_exact (num : Z) (years : list YearLabel) :
  forall acc,
    fold_left (noteExact num) years acc
    = if existsb (isTarget num) years
      then (YearOf num, true)
      else acc.
Proof.
  induction years as [|y rest IH]; intros acc; cbn [fold_left existsb].
  - reflexivity.
  - rewrite IH. unfold noteExact.
    destruct (isTarget num y) eqn:E; cbn [orb].
    + apply isTarget_true in E. subst y.
      destruct (existsb (isTarget num) rest); reflexivity.
    + reflexivity.
Qed.

(** The [reduce] keeps its start value when no year is strictly closer,
    and otherwise ends at the first year of the list, in order, among
    those at the least distance. *)
Lemma reduce_closest (num : Z) (years : list YearLabel) :
  forall acc,
    let r := fold_left (closer num) years acc in
    (r = acc /\ forall y, In y years -> distance num acc <= distance num y)
    \/ exists pre post,
         years = pre ++ r :: post
         /\ distance num r < distance num acc
         /\ (forall y, In y pre -> distance num r < distance num y)
         /\ (forall y, In y post -> distance num r <= distance num y).
Proof.
  induction years as [|x rest IH]; intros acc; cbn [fold_left].
  - left. split; [reflexivity|]. intros y [].
  - cbv zeta in IH |- *.
    assert (Hc : closer num acc x
                 = if distance num x <? distance num acc then x else acc)
      by reflexivity.
    rewrite Hc. clear Hc.
    destruct (Z.ltb_spec (distance num x) (distance num acc)) as [Hlt|Hge].
    + destruct (IH x) as [[Hr Hall]|(pre & post & E & Hd & Hpre & Hpost)].
      * right. exists [], rest. rewrite Hr. cbn [app].
        repeat split; try assumption. intros y [].
      * right. exists (x :: pre), post. rewrite E at 1. cbn [app].
        repeat split; try assumption; try lia.
        intros y [<-|Hy]; [exact Hd | now apply Hpre].
    + destruct (IH acc) as [[Hr Hall]|(pre & post & E & Hd & Hpre & Hpost)].
      * left. split; [exact Hr|].
        intros y [<-|Hy]; [exact Hge | now apply Hall].
      * right. exists (x :: pre), post. rewrite E at 1. cbn [app].
        repeat split; try assumption.
        intros y [<-|Hy]; [lia | now apply Hpre].
Qed.

Lemma sorted_after (R : YearLabel -> YearLabel -> Prop)
  (pre post : list YearLabel) (c : YearLabel) :
  StronglySorted R (pre ++ c :: post) -> forall y, In y post -> R c y.
Proof.
  induction pre as [|x pre IH]; cbn [app]; intros H y Hy.
  - inversion H as [|? ? _ Hall]; subst.
    rewrite Forall_forall in Hall. now apply Hall.
  - inversion H; subst. now apply IH.
Qed.

(** C5. The year search. For a query of four digits (white space around it
    aside) and a list of available years that is not empty: no error is
    shown; when the queried year is available it is the year scrolled to
    and no note is shown; otherwise the year scrolled to is an available
    year at the least numeric distance from the query, the first such year
    in the order of the list (every year before it is strictly farther), so
    that of two years equally far the smaller is taken when the list is
    ascending, and the note shown is the text [No events for], the queried
    year, [. Showing closest year:], the year scrolled to, and a full
    stop. *)
Theorem year_search_selects_exact_or_closest (YEARS : list YearLabel)
  (yearQuery : jsstring) (st : SearchState) :
  testFourDigits (trim yearQuery) = true ->
  YEARS <> [] ->
  let num := parseInt (trim yearQuery) in
  let st' := handleYearSearchSubmit YEARS yearQuery st in
  searchError st' = []
  /\ view st' = Home
  /\ (In (YearOf num) YEARS ->
      scrollToYear st' = Some (YearOf num) /\ searchInfo st' = [])
  /\ (~ In (YearOf num) YEARS ->
      exists closest pre post,
        scrollToYear st' = Some closest
        /\ YEARS = pre ++ closest :: post
        /\ (forall y, In y pre -> distance num closest < distance num y)
        /\ (forall y, In y post -> distance num closest <= distance num y)
        /\ (ascending YEARS ->
            forall y, In y YEARS ->
                      distance num y = distance num closest ->
                      Number closest <= Number y)
        /\ searchInfo st'
           = lit "No events for " ++ ofZ num
               ++ lit ". Showing closest year: " ++ labelText closest
               ++ lit ".").
Proof.
  intros Hfour Hne num st'.
  destruct YEARS as [|first rest]; [congruence|].
  subst st'. unfold handleYearSearchSubmit. rewrite Hfour. cbn [negb].
  fold num. rewrite forEach_exact.
  destruct (existsb (isTarget num) (first :: rest)) eqn:Eex.
  - cbn [negb searchError view scrollToYear searchInfo].
    repeat split; try reflexivity.
    intros Hnot. apply exact_year_found in Eex. contradiction.
  - cbn [negb searchError view scrollToYear searchInfo].
    split; [reflexivity|]. split; [reflexivity|]. split.
    + intros Hin. apply exact_year_found in Hin. congruence.
    + intros _.
      assert (Hsplit : exists pre post,
        first :: rest = pre ++ fold_left (closer num) (first :: rest) first :: post
        /\ (forall y, In y pre ->
              distance num (fold_left (closer num) (first :: rest) first)
              < distance num y)
        /\ (forall y, In y post ->
              distance num (fold_left (closer num) (first :: rest) first)
              <= distance num y)).
      { destruct (reduce_closest num (first :: rest) first)
          as [[Hr Hall]|(pre & post & E & _ & Hpre & Hpost)].
        - exists [], rest. cbv zeta in Hr. rewrite Hr. cbn [app].
          repeat split.
          + intros y [].
          + intros y Hy. apply Hall. now right.
        - exists pre, post. repeat split; assumption. }
      destruct Hsplit as (pre & post & E & Hpre & Hpost).
      exists (fold_left (closer num) (first :: rest) first), pre, post.
      split; [reflexivity|]. split; [exact E|]. split; [exact Hpre|].
      split; [exact Hpost|]. split; [|reflexivity].
      intros Hasc y Hy Htie. rewrite E in Hy, Hasc.
      apply in_app_or in Hy. destruct Hy as [Hy|[<-|Hy]].
      * specialize (Hpre y Hy). lia.
      * lia.
      * exact (sorted_after _ pre post _ Hasc y Hy).
Qed.

Lemma year_search_selects_exact_or_closest_witness :
  let YEARS := [YearOf 1859; YearOf 1921; YearOf 1989] in
  let st :=
    {| searchError := []; searchInfo := []; view := About; menuOpen := true;
       scrollToYear := None |} in
  let st' := handleYearSearchSubmit YEARS (lit " 1900 ") st in
  testFourDigits (trim (lit " 1900 ")) = true
  /\ YEARS <> []
  /\ searchError st' = []
  /\ view st' = Home
  /\ scrollToYear st' = Some (YearOf 1921)
  /\ searchInfo st' = lit "No events for 1900. Showing closest year: 1921.".
Proof.
  intros YEARS st st'.
  assert (H1 : testFourDigits (trim (lit " 1900 ")) = true) by reflexivity.
  assert (H2 : YEARS <> []) by discriminate.
  assert (H3 : ~ In (YearOf 1900) YEARS).
  { intros [H|[H|[H|[]]]]; discriminate. }
  destruct (year_search_selects_exact_or_closest YEARS (lit " 1900 ") st H1 H2)
    as (A & B & _ & D).
  destruct (D H3) as (closest & pre & post & Hs & E & Hpre & Hpost & _ & Hnote).
  assert (Hc : closest = YearOf 1921).
  { destruct pre as [|y1 [|y2 [|y3 pre]]]; subst YEARS; cbn [app] in E.
    - injection E as <- <-.
      specialize (Hpost (YearOf 1921) (or_introl eq_refl)).
      vm_compute in Hpost. now destruct Hpost.
    - now injection E as _ <- _.
    - injection E as _ <- <- _.
      specialize (Hpre (YearOf 1921) (or_intror (or_introl eq_refl))).
      vm_compute in Hpre. discriminate Hpre.
    - injection E as _ _ _ E. destruct pre; discriminate E. }
  rewrite Hc in Hs, Hnote.
  split; [exact H1|]. split; [exact H2|]. split; [exact A|].
  split; [exact B|]. split; [exact Hs | exact Hnote].
Defined.

Example year_search_1900 :
  let st :=
    {| searchError := []; searchInfo := []; view := About; menuOpen := true;
       scrollToYear := None |} in
  handleYearSearchSubmit [YearOf 1859; YearOf 1921; YearOf 1989] (lit "1900") st
  = {| searchError := [];
       searchInfo := lit "No events for 1900. Showing closest year: 1921.";
       view := Home; menuOpen := false;
       scrollToYear := Some (YearOf 1921) |}.
Proof. reflexivity. Qed.

Example year_search_exact :
  let st :=
    {| searchError := []; searchInfo := lit "old note"; view := Home;
       menuOpen := false; scrollToYear := None |} in
  handleYearSearchSubmit [YearOf 1859; YearOf 1921; YearOf 1989] (lit "1921") st
  = {| searchError := []; searchInfo := []; view := Home; menuOpen := false;
       scrollToYear := Some (YearOf 1921) |}.
Proof. reflexivity. Qed.

Example year_search_tie_takes_the_earlier_year :
  let st :=
    {| searchError := []; searchInfo := []; view := Home; menuOpen := false;
       scrollToYear := None |} in
  scrollToYear
    (handleYearSearchSubmit [YearOf 1900; YearOf 1902] (lit "1901") st)
  = Some (YearOf 1900).
Proof. reflexivity. Qed.

(** [YEARS] as the page derives it is in ascending numeric order. *)
Lemma insertYear_members (y x : YearLabel) (l : list YearLabel) :
  In x (insertYear y l) -> x = y \/ In x l.
Proof.
  induction l as [|z l IH]; cbn [insertYear].
  - intros [<-|[]]. now left.
  - destruct (Number y <? Number z).
    + intros [<-|H]; [now left | now right].
    + intros [<-|H]; [right; now left|].
      destruct (IH H) as [->|Hin]; [now left | right; now right].
Qed.

Lemma insertYear_ascending (y : YearLabel) (l : list YearLabel) :
  ascending l -> ascending (insertYear y l).
Proof.
  unfold ascending. induction 1 as [|z l Hs IH Hall]; cbn [insertYear].
  - constructor; constructor.
  - destruct (Z.ltb_spec (Number y) (Number z)) as [Hlt|Hge].
    + constructor; [constructor; assumption|].
      constructor; [lia|].
      rewrite Forall_forall in Hall |- *. intros x Hx.
      specialize (Hall x Hx). lia.
    + constructor; [exact IH|].
      rewrite Forall_forall in Hall |- *. intros x Hx.
      destruct (insertYear_members y x l Hx) as [->|Hin];
        [exact Hge | now apply Hall].
Qed.

Lemma deriveYears_ascending (eventYears : list YearLabel) :
  ascending (deriveYears eventYears).
Proof.
  unfold deriveYears, sortYears.
  assert (H : forall l acc, ascending acc ->
            ascending (fold_left (fun a y => insertYear y a) l acc)).
  { induction l as [|y l IH]; intros acc Hacc; cbn [fold_left];
      [exact Hacc|].
    apply IH. now apply insertYear_ascending. }
  apply H. constructor.
Qed.

Example derived_years :
  deriveYears [YearOf 1989; YearOf 1859; YearOf 1989; YearOf 1921; YearOf 1859]
  = [YearOf 1859; YearOf 1921; YearOf 1989].
Proof. reflexivity. Qed.

(** ** Admin API *)

Import AdminApi.

(** C9. Login with a wrong password. For a request that carries a user
    name and a password, whose user name the lookup finds and whose
    password does not match the stored hash, the answer is the one
    invalid-credentials failure with status 401; it is not the
    security-question challenge, whether or not the account has a security
    question and whatever security answer the request carries. *)
Theorem wrong_password_gets_invalid_credentials
  (bcrypt_compare username_matches : jsstring -> jsstring -> bool)
  (req : LoginBody) (db : Db) (user : AdminUser)
  (question : option jsstring) (others : list (AdminUser * option jsstring)) :
  truthyOpt (lb_username req) = true ->
  truthyOpt (lb_password req) = true ->
  selectLoginUser username_matches db (orEmpty (lb_username req))
  = (user, question) :: others ->
  bcrypt_compare (orEmpty (lb_password req)) (au_password_hash user) = false ->
  postLogin bcrypt_compare username_matches req db
  = send 401 (ErrorJson (lit "Invalid username or password."))
  /\ asksSecurityQuestion (postLogin bcrypt_compare username_matches req db)
     = false.
Proof.
  intros Hu Hp Hfound Hwrong.
  assert (E : postLogin bcrypt_compare username_matches req db
              = send 401 (ErrorJson (lit "Invalid username or password."))).
  { unfold postLogin. rewrite Hu, Hp. cbn [negb orb].
    rewrite Hfound, Hwrong. reflexivity. }
  split; [exact E|]. rewrite E. reflexivity.
Qed.

Lemma wrong_password_gets_invalid_credentials_witness :
  let compare := fun plain hash : jsstring => JS.eqb (lit "hash:" ++ plain) hash in
  let user :=
    {| au_id := 2; au_username := lit "editor";
       au_password_hash := lit "hash:right";
       au_is_protected := 0; au_security_question_id := Some 1;
       au_security_answer_hash := Some (lit "hash:rex") |} in
  let db :=
    {| admin_users := [user];
       security_questions :=
         [{| sq_id := 1; sq_question_text := lit "First pet?" |}];
       solar_events := []; next_event_id := 1 |} in
  let req :=
    {| lb_username := Some (lit "editor"); lb_password := Some (lit "wrong");
       lb_securityAnswer := None |} in
  postLogin compare JS.eqb req db
  = send 401 (ErrorJson (lit "Invalid username or password."))
  /\ asksSecurityQuestion (postLogin compare JS.eqb req db) = false.
Proof.
  intros compare user db req.
  apply (wrong_password_gets_invalid_credentials compare JS.eqb req db user
           (Some (lit "First pet?")) []); reflexivity.
Defined.

Example right_password_without_answer_is_challenged :
  let compare := fun plain hash : jsstring => JS.eqb (lit "hash:" ++ plain) hash in
  let user :=
    {| au_id := 2; au_username := lit "editor";
       au_password_hash := lit "hash:right";
       au_is_protected := 0; au_security_question_id := Some 1;
       au_security_answer_hash := Some (lit "hash:rex") |} in
  let db :=
    {| admin_users := [user];
       security_questions :=
         [{| sq_id := 1; sq_question_text := lit "First pet?" |}];
       solar_events := []; next_event_id := 1 |} in
  postLogin compare JS.eqb
    {| lb_username := Some (lit "editor"); lb_password := Some (lit "right");
       lb_securityAnswer := None |} db
  = send 400
      (SecurityAnswerRequired (lit "Security answer required.") (Some 1)
         (Some (lit "First pet?")))
  /\ postLogin compare JS.eqb
       {| lb_username := Some (lit "editor"); lb_password := Some (lit "right");
          lb_securityAnswer := Some (lit "rex") |} db
     = send 200 (LoginSuccess 2 (lit "editor") false (Some 1)).
Proof. split; reflexivity. Qed.

(** X3. PUT /api/admin/users/:id guards protected accounts: an edit of an
    account whose row says [is_protected = 1] is answered 403 and the
    database is left as it was. *)
Lemma protected_account_edit_refused (bcrypt_hash : jsstring -> jsstring)
  (userId : Z) (c : AccountChanges) (db : Db) (more : list Z) :
  selectIsProtected db userId = 1 :: more ->
  putAdminUser bcrypt_hash userId c db
  = (send 403
       (ErrorJson (lit "This account is protected and cannot be edited.")),
     db).
Proof. intros H. unfold putAdminUser. now rewrite H. Qed.

(** X4. DELETE /api/admin/users/:id guards protected accounts: a delete of
    an account whose row says [is_protected = 1] is answered 403 and the
    database is left as it was. *)
Lemma protected_account_delete_refused (userId : Z) (db : Db)
  (more : list Z) :
  selectIsProtected db userId = 1 :: more ->
  deleteAdminUserRoute userId db
  = (send 403
       (ErrorJson (lit "This account is protected and cannot be deleted.")),
     db).
Proof. intros H. unfold deleteAdminUserRoute. now rewrite H. Qed.

Lemma protected_account_edit_refused_witness :
  let root :=
    {| au_id := 1; au_username := lit "admin";
       au_password_hash := lit "$2b$12$old";
       au_is_protected := 1; au_security_question_id := None;
       au_security_answer_hash := None |} in
  let db :=
    {| admin_users := [root]; security_questions := [];
       solar_events := []; next_event_id := 1 |} in
  let changes :=
    {| ac_password := Some (lit "hunter2"); ac_securityQuestionId := None;
       ac_securityAnswer := None |} in
  putAdminUser (fun plain => lit "hash:" ++ plain) 1 changes db
  = (send 403
       (ErrorJson (lit "This account is protected and cannot be edited.")),
     db).
Proof.
  intros root db changes.
  apply (protected_account_edit_refused _ 1 changes db []). reflexivity.
Defined.

Lemma protected_account_delete_refused_witness :
  let root :=
    {| au_id := 1; au_username := lit "admin";
       au_password_hash := lit "$2b$12$old";
       au_is_protected := 1; au_security_question_id := None;
       au_security_answer_hash := None |} in
  let db :=
    {| admin_users := [root]; security_questions := [];
       solar_events := []; next_event_id := 1 |} in
  deleteAdminUserRoute 1 db
  = (send 403
       (ErrorJson (lit "This account is protected and cannot be deleted.")),
     db).
Proof.
  intros root db.
  apply (protected_account_delete_refused 1 db []). reflexivity.
Defined.

(** C2, at a failing input. The protected account 1 and a request that
    sets a new password and clears the security question: PUT
    /api/admin/users/1 and DELETE /api/admin/users/1 answer 403 and leave
    the row alone, but PUT /api/admin/profile with [userId] 1 answers 200
    and rewrites the stored row. *)
Theorem profile_route_rewrites_protected_account
  (bcrypt_hash : jsstring -> jsstring) :
  let root :=
    {| au_id := 1; au_username := lit "admin";
       au_password_hash := lit "$2b$12$old";
       au_is_protected := 1; au_security_question_id := Some 3;
       au_security_answer_hash := Some (lit "$2b$12$answer") |} in
  let db :=
    {| admin_users := [root];
       security_questions :=
         [{| sq_id := 3; sq_question_text := lit "First pet?" |}];
       solar_events := []; next_event_id := 1 |} in
  let changes :=
    {| ac_password := Some (lit "hunter2");
       ac_securityQuestionId := Some None;
       ac_securityAnswer := None |} in
  let rewritten :=
    {| au_id := 1; au_username := lit "admin";
       au_password_hash := bcrypt_hash (lit "hunter2");
       au_is_protected := 1; au_security_question_id := None;
       au_security_answer_hash := Some (lit "$2b$12$answer") |} in
  fst (putAdminUser bcrypt_hash 1 changes db)
  = send 403 (ErrorJson (lit "This account is protected and cannot be edited."))
  /\ snd (putAdminUser bcrypt_hash 1 changes db) = db
  /\ fst (deleteAdminUserRoute 1 db)
     = send 403
         (ErrorJson (lit "This account is protected and cannot be deleted."))
  /\ snd (deleteAdminUserRoute 1 db) = db
  /\ fst (putAdminProfile bcrypt_hash (Some 1) changes db) = send 200 SuccessJson
  /\ admin_users (snd (putAdminProfile bcrypt_hash (Some 1) changes db))
     = [rewritten]
  /\ rewritten <> root.
Proof.
  cbv zeta. repeat split. discriminate.
Qed.






(** The rule of the editor is stronger than the check of the route: a
    form without location, short description and impact is refused by
    [validateEventForm], while the body made of the same values passes the
    check of the route and meets the NOT NULL flags. *)
Example server_takes_what_the_editor_refuses :
  let form :=
    {| date := lit "05/15/1921"; event_type := lit "Geomagnetic storm";
       location := []; title := lit "Railroad Storm";
       short_description := [];
       summary := lit "Telegraph service failed.";
       impact_on_communication := [] |} in
  let db :=
    {| admin_users := []; security_questions := [];
       solar_events := []; next_event_id := 1 |} in
  snd (validateEventForm form) = false
  /\ fst (postEvent documentedNotNull (bodyOfPayload (buildPayload form)) db)
     = send 201 (CreatedJson 1).
Proof. split; reflexivity. Qed.

(** A body that lacks the date or the title is refused with status 400
    and nothing is stored. *)
Lemma event_without_date_or_title_refused
  (solar_events_accepts : EventRow -> bool) (b : EventBody) (db : Db)
  (eventId : Z) :
  truthyOpt (b_event_date b) = false \/ truthyOpt (b_title b) = false ->
  postEvent solar_events_accepts b db
  = (send 400 (ErrorJson (lit "event_date and title are required.")), db)
  /\ putEvent solar_events_accepts eventId b db
     = (send 400 (ErrorJson (lit "event_date and title are required.")), db).
Proof.
  intros H. unfold postEvent, putEvent.
  destruct H as [H|H]; rewrite H; cbn [negb orb];
    try rewrite orb_true_r; split; reflexivity.
Qed.

(** An update of an id no event has is answered 404. *)
Remark update_of_unknown_event_not_found
  (solar_events_accepts : EventRow -> bool) (b : EventBody) (db : Db)
  (eventId : Z) :
  truthyOpt (b_event_date b) = true ->
  truthyOpt (b_title b) = true ->
  (forall e, In e (solar_events db) -> ev_id e <> eventId) ->
  putEvent solar_events_accepts eventId b db
  = (send 404 (ErrorJson (lit "Event not found.")), db).
Proof.
  intros Hd Ht Hnone. unfold putEvent. rewrite Hd, Ht. cbn [negb orb].
  assert (E : filter (fun e => ev_id e =? eventId) (solar_events db) = []).
  { induction (solar_events db) as [|x l IH]; [reflexivity|].
    cbn [filter].
    destruct (Z.eqb_spec (ev_id x) eventId) as [Heq|_].
    - exfalso. apply (Hnone x); [now left | exact Heq].
    - apply IH. intros e He. apply Hnone. now right. }
  rewrite E. reflexivity.
Qed.

(* ================================================================== *)
(** * Further properties of the event editor *)
(* ================================================================== *)

(** ** Save in edit mode *)

(** X6. Save in edit mode. With the seven fields valid and an event being
    edited, the run issues exactly one update call for that event with the
    built payload, whatever media are queued; when it is answered ok the
    list is reloaded once and the modal closes after that; when it is not,
    nothing else is requested, an alert is shown and the modal stays
    open. *)
Lemma edit_save_updates_once (s : Snapshot) (net : nat -> HttpResponse)
  (evt : EventRow) :
  let form := eventForm s in
  let t := run (handlePrimarySaveClick s) net 0 in
  isCreatingEvent s = false ->
  editingEvent s = Some evt ->
  testDisplayDate (date form) = true ->
  trim (event_type form) <> [] ->
  trim (location form) <> [] ->
  trim (title form) <> [] ->
  trim (short_description form) <> [] ->
  trim (summary form) <> [] ->
  trim (impact_on_communication form) <> [] ->
  requests t
  = PutEvent (ev_id evt) (buildPayload form)
      :: (if ok (net 0%nat) then [GetEvents] else [])
  /\ (ok (net 0%nat) = true ->
      exists pre post,
        t = pre ++ closing :: post
        /\ requests pre = [PutEvent (ev_id evt) (buildPayload form); GetEvents]
        /\ requests post = [])
  /\ (ok (net 0%nat) = false ->
      ~ In closing t /\ exists msg, In (Did (Alert msg)) t /\ msg <> []).
Proof.
  intros form t Hedit Hevt Hd Hty Hlo Hti Hsh Hsu Him. subst t.
  unfold handlePrimarySaveClick. fold form.
  pose proof (valid_form_passes_validation form Hd Hty Hlo Hti Hsh Hsu Him)
    as Hvalid.
  destruct (validateEventForm form) as [next valid]. cbn [snd] in Hvalid.
  subst valid. cbn [negb].
  unfold handleSaveEvent. cbv zeta. fold form.
  rewrite (valid_form_not_missing form Hd Hty Hlo Hti Hsh Hsu Him).
  rewrite Hedit, Hevt. cbn [run requests].
  destruct (run_loadAdminEvents
              (fun _ => closeEventModal s (finallyBlock Done)) net 1)
    as (L & rows & EL & HL & HnL & _).
  destruct (run_closeEventModal s (finallyBlock Done) net 2)
    as (R & C & EC & HR & HC).
  destruct (ok (net 0%nat)) eqn:Hok; cbn [negb].
  - rewrite EL, EC. split; [|split].
    + rewrite requests_app, HL. cbn [app requests].
      rewrite requests_app, HR. cbn [app requests].
      rewrite requests_app, HC. reflexivity.
    + intros _.
      exists ([Did (Set_ (SetEventTriedSubmit true));
               Did (Set_ (SetEventErrors next));
               Did (Set_ (SetEventSaving true));
               Sent (PutEvent (ev_id evt) (buildPayload form))] ++ L ++ R),
             (C ++ run (finallyBlock Done) net 2).
      split; [|split].
      * cbn [app]. rewrite <- !app_assoc. reflexivity.
      * rewrite !requests_app, HL, HR. reflexivity.
      * rewrite requests_app, HC. reflexivity.
    + discriminate.
  - split; [reflexivity|]. split; [discriminate|]. intros _. split.
    + cbn. unfold closing. intuition discriminate.
    + eexists. split.
      * cbn. right. right. right. right. right. left. reflexivity.
      * match goal with
        | |- context [truthy ?m] => destruct m
        end; cbn [truthy]; discriminate.
Qed.

Lemma edit_save_updates_once_witness :
  let evt :=
    {| ev_id := 5; ev_event_date := Some (lit "1859-09-01");
       ev_event_type := Some (lit "Solar Flare");
       ev_location := Some (lit "Worldwide");
       ev_title := Some (lit "Carrington Event");
       ev_short_description := Some (lit "Storm");
       ev_summary := Some (lit "Summary");
       ev_impact_on_communication := Some (lit "Telegraphs failed") |} in
  let s :=
    {| eventForm :=
         {| date := lit "09/02/1859"; event_type := lit "Solar Flare";
            location := lit "Worldwide"; title := lit "Carrington Event";
            short_description := lit "Storm"; summary := lit "Summary";
            impact_on_communication := lit "Telegraphs failed" |};
       isCreatingEvent := false; editingEvent := Some evt;
       createQueuedMedia := [] |} in
  let net := fun _ : nat =>
    {| ok := true; status := 200; body := JsonArray [evt] |} in
  requests (run (handlePrimarySaveClick s) net 0)
  = [PutEvent 5 (buildPayload (eventForm s)); GetEvents].
Proof.
  intros evt s net.
  refine (proj1 (edit_save_updates_once s net evt _ _ _ _ _ _ _ _ _));
    try reflexivity; vm_compute; discriminate.
Defined.

(** ** Preview URLs *)

Lemma run_uploadQueued_releases (createdId total : Z)
  (queue : list MediaItem) (k : Prog) (net : nat -> HttpResponse)
  (m : MediaItem) :
  forall (i : Z) (n : nat),
    (forall j, (j < List.length queue)%nat -> ok (net (n + j)%nat) = true) ->
    In m queue ->
    truthyOpt (previewUrl m) = true ->
    exists a b,
      run (uploadQueued createdId total i queue k) net n
      = a ++ Sent (uploadOf createdId m)
             :: Did (RevokeObjectURL (orEmpty (previewUrl m))) :: b.
Proof.
  induction queue as [|x rest IH]; intros i n Hok Hin Hm; [destruct Hin|].
  cbn [uploadQueued run].
  assert (H0 : ok (net n) = true).
  { specialize (Hok 0%nat). rewrite Nat.add_0_r in Hok. apply Hok. cbn. lia. }
  rewrite H0. cbn [negb].
  destruct Hin as [->|Hin].
  - rewrite Hm. cbn [run].
    exists [Did (Set_ (SetCreateMediaUploadingText (uploadingText i total)))].
    eexists. reflexivity.
  - destruct (IH (i + 1) (S n)) as (a & b & E); try assumption.
    { intros j Hj. replace (S n + j)%nat with (n + S j)%nat by lia.
      apply Hok. cbn. lia. }
    destruct (truthyOpt (previewUrl x)); cbn [run]; rewrite E.
    + exists (Did (Set_ (SetCreateMediaUploadingText (uploadingText i total)))
              :: Sent (uploadOf createdId x)
              :: Did (RevokeObjectURL (orEmpty (previewUrl x))) :: a), b.
      reflexivity.
    + exists (Did (Set_ (SetCreateMediaUploadingText (uploadingText i total)))
              :: Sent (uploadOf createdId x) :: a), b.
      reflexivity.
Qed.

(** X7. A successful Save in create mode releases every preview: for each
    queued item that has a preview URL, the URL is revoked right after the
    upload of that item was answered, before anything else happens. *)
Lemma create_save_releases_each_preview (s : Snapshot)
  (net : nat -> HttpResponse) (createdId : Z) (m : MediaItem) :
  let form := eventForm s in
  isCreatingEvent s = true ->
  testDisplayDate (date form) = true ->
  trim (event_type form) <> [] ->
  trim (location form) <> [] ->
  trim (title form) <> [] ->
  trim (short_description form) <> [] ->
  trim (summary form) <> [] ->
  trim (impact_on_communication form) <> [] ->
  ok (net 0%nat) = true ->
  idOf (body (net 0%nat)) = Some createdId ->
  createdId <> 0 ->
  (forall j, (1 <= j <= List.length (createQueuedMedia s))%nat ->
             ok (net j) = true) ->
  In m (createQueuedMedia s) ->
  truthyOpt (previewUrl m) = true ->
  exists a b,
    run (handlePrimarySaveClick s) net 0
    = a ++ Sent (uploadOf createdId m)
           :: Did (RevokeObjectURL (orEmpty (previewUrl m))) :: b.
Proof.
  intros form Hcreate Hd Hty Hlo Hti Hsh Hsu Him Hok Hid Hnz Hups Hin Hm.
  unfold handlePrimarySaveClick. fold form.
  pose proof (valid_form_passes_validation form Hd Hty Hlo Hti Hsh Hsu Him)
    as Hvalid.
  destruct (validateEventForm form) as [next valid]. cbn [snd] in Hvalid.
  subst valid. cbn [negb].
  unfold handleSaveEvent. cbv zeta. fold form.
  rewrite (valid_form_not_missing form Hd Hty Hlo Hti Hsh Hsu Him).
  rewrite Hcreate. cbn [run]. rewrite Hok, Hid. cbn [negb].
  assert (Hcond :
    negb (createdId =? 0)
    && (0 <? Z.of_nat (List.length (createQueuedMedia s))) = true).
  { apply andb_true_iff. split.
    - apply negb_true_iff, Z.eqb_neq. exact Hnz.
    - apply Z.ltb_lt. destruct (createQueuedMedia s); [destruct Hin|].
      cbn [List.length]. lia. }
  rewrite Hcond. cbn [run].
  match goal with
  | |- context [uploadQueued createdId ?total 0 ?q ?k] =>
      destruct (run_uploadQueued_releases createdId total q k net m 0 1%nat)
        as (a & b & E)
  end; try assumption.
  { intros j Hj. apply Hups. lia. }
  rewrite E.
  exists (Did (Set_ (SetEventTriedSubmit true))
          :: Did (Set_ (SetEventErrors next))
          :: Did (Set_ (SetEventSaving true))
          :: Sent (PostEvent (buildPayload form))
          :: Did (Set_ (SetCreateMediaUploading true)) :: a), b.
  reflexivity.
Qed.

Lemma create_save_releases_each_preview_witness :
  let a := queuedItem (lit "local-1") 1 (lit "blob:1") (lit "A") in
  let b := queuedItem (lit "local-2") 2 (lit "blob:2") (lit "B") in
  let s :=
    {| eventForm :=
         {| date := lit "09/01/1859"; event_type := lit "Solar Flare";
            location := lit "Worldwide"; title := lit "Carrington Event";
            short_description := lit "Storm"; summary := lit "Summary";
            impact_on_communication := lit "Telegraphs failed" |};
       isCreatingEvent := true; editingEvent := None;
       createQueuedMedia := [a; b] |} in
  let net := fun n : nat =>
    match n with
    | O => {| ok := true; status := 201; body := JsonObject (Some 7) None None |}
    | _ => {| ok := true; status := 200; body := JsonArray [] |}
    end in
  exists pre post,
    run (handlePrimarySaveClick s) net 0
    = pre ++ Sent (PostEventMedia 7 (Some 2) (lit "B"))
             :: Did (RevokeObjectURL (lit "blob:2")) :: post.
Proof.
  intros a b s net.
  refine (create_save_releases_each_preview s net 7 b
            _ _ _ _ _ _ _ _ _ _ _ _ _ _);
    try reflexivity; try (vm_compute; discriminate).
  - intros j _. destruct j; reflexivity.
  - right. left. reflexivity.
Defined.

Lemma run_revokePreviews_all (queue : list MediaItem) (k : Prog)
  (net : nat -> HttpResponse) (n : nat) :
  exists R,
    run (revokePreviews queue k) net n = R ++ run k net n
    /\ (forall e, In e R <->
          exists m, In m queue /\ truthyOpt (previewUrl m) = true
                    /\ e = Did (RevokeObjectURL (orEmpty (previewUrl m)))).
Proof.
  induction queue as [|x rest IH]; cbn [revokePreviews].
  - exists []. split; [reflexivity|].
    intros e. split; [intros [] | intros (m & [] & _)].
  - destruct IH as (R & E & HR).
    destruct (truthyOpt (previewUrl x)) eqn:Hx.
    + exists (Did (RevokeObjectURL (orEmpty (previewUrl x))) :: R).
      cbn [run app]. rewrite E. split; [reflexivity|].
      intros e. split.
      * intros [<-|He].
        -- exists x. repeat split; [now left | exact Hx].
        -- apply HR in He. destruct He as (m & Hm & Ht & ->).
           exists m. repeat split; [now right | exact Ht].
      * intros (m & [->|Hm] & Ht & ->); [now left|].
        right. apply HR. now exists m.
    + exists R. split; [exact E|].
      intros e. split.
      * intros He. apply HR in He. destruct He as (m & Hm & Ht & ->).
        exists m. repeat split; [now right | exact Ht].
      * intros (m & [->|Hm] & Ht & ->); [congruence|].
        apply HR. now exists m.
Qed.

(** X8. Closing the editor. In create mode [closeEventModal] revokes the
    preview URL of every queued item, and nothing else, before it closes
    the modal; in edit mode it revokes nothing. It sends no request. *)
Lemma close_releases_queued_previews (s : Snapshot) (k : Prog)
  (net : nat -> HttpResponse) (n : nat) :
  exists R C,
    run (closeEventModal s k) net n = R ++ closing :: C ++ run k net n
    /\ requests R = [] /\ requests C = []
    /\ (forall e, In e R <->
          isCreatingEvent s = true
          /\ exists m, In m (createQueuedMedia s)
                       /\ truthyOpt (previewUrl m) = true
                       /\ e = Did (RevokeObjectURL (orEmpty (previewUrl m))))
    /\ (forall u, ~ In (Did (RevokeObjectURL u)) C).
Proof.
  unfold closeEventModal.
  set (C := map Did
    [Set_ (SetEditingEvent None); Set_ (SetIsCreatingEvent false);
     Set_ (SetEventMedia []); Set_ (SetEventMediaIndex 0);
     Set_ (SetEventMediaError []); Set_ (SetNewMediaUrl []);
     Set_ (SetNewMediaCaption []); Set_ (SetCreateQueuedMedia []);
     Set_ (SetCreateMediaIndex 0); Set_ (SetAddArticleOpen false);
     Set_ (SetMediaUploadError []); Set_ (SetMediaUploadBusy false);
     Set_ (SetMediaDeleteOpen false); Set_ (SetMediaDeleteTarget None)]).
  assert (HCnone : forall u, ~ In (Did (RevokeObjectURL u)) C).
  { intros u H. cbn in H. intuition discriminate. }
  destruct (isCreatingEvent s) eqn:Hc; cbn [andb].
  - destruct (0 <? Z.of_nat (List.length (createQueuedMedia s))) eqn:Hq.
    + match goal with
      | |- context [revokePreviews ?q ?p] =>
          destruct (run_revokePreviews_all q p net n) as (R & E & HR)
      end.
      exists R, C. rewrite E. split; [reflexivity|].
      split.
      { assert (Hall : forall e, In e R -> exists u, e = Did (RevokeObjectURL u)).
        { intros e He. apply HR in He. destruct He as (m & _ & _ & ->).
          now eexists. }
        clear - Hall. induction R as [|e R IH]; [reflexivity|].
        destruct (Hall e (or_introl eq_refl)) as (u & ->). cbn [requests].
        apply IH. intros e He. apply Hall. now right. }
      split; [reflexivity|]. split; [|exact HCnone].
      intros e. rewrite HR. tauto.
    + exists [], C. split; [reflexivity|]. split; [reflexivity|].
      split; [reflexivity|]. split; [|exact HCnone].
      intros e. split; [intros []|].
      intros (_ & m & Hm & _). apply Z.ltb_ge in Hq.
      destruct (createQueuedMedia s); [destruct Hm|].
      cbn [List.length] in Hq. lia.
  - exists [], C. split; [reflexivity|]. split; [reflexivity|].
    split; [reflexivity|]. split; [|exact HCnone].
    intros e. split; [intros [] | intros (H & _); discriminate].
Qed.

(* ================================================================== *)
(** * Further properties of the media viewers and the year tools *)
(* ================================================================== *)

Import Timeline.

Lemma rem_step_back (n i : Z) :
  0 <= i < n -> Z.rem (Z.rem (i + 1) n - 1 + n) n = i.
Proof.
  intros H. rewrite !Z.rem_mod_nonneg; try lia.
  - destruct (Z.eq_dec (i + 1) n) as [E|E].
    + rewrite E, Z.mod_same by lia.
      replace (0 - 1 + n) with i by lia. apply Z.mod_small. lia.
    + rewrite (Z.mod_small (i + 1) n) by lia.
      replace (i + 1 - 1 + n) with (i + 1 * n) by lia.
      rewrite Z.mod_add by lia. apply Z.mod_small. lia.
  - rewrite Z.rem_mod_nonneg by lia.
    pose proof (Z.mod_pos_bound (i + 1) n). lia.
Qed.

Lemma rem_step_forth (n i : Z) :
  0 <= i < n -> Z.rem (Z.rem (i - 1 + n) n + 1) n = i.
Proof.
  intros H. rewrite !Z.rem_mod_nonneg; try lia.
  - destruct (Z.eq_dec i 0) as [E|E].
    + subst i. replace (0 - 1 + n) with (n - 1) by lia.
      rewrite (Z.mod_small (n - 1) n) by lia.
      replace (n - 1 + 1) with n by lia. apply Z.mod_same. lia.
    + replace (i - 1 + n) with (i - 1 + 1 * n) by lia.
      rewrite Z.mod_add by lia.
      rewrite (Z.mod_small (i - 1) n) by lia.
      replace (i - 1 + 1) with i by lia. apply Z.mod_small. lia.
  - rewrite Z.rem_mod_nonneg by lia.
    pose proof (Z.mod_pos_bound (i - 1 + n) n). lia.
Qed.

(** X9. Previous and Next undo each other. In the editor and in the media
    overlay alike, from a valid index Next followed by Previous, and
    Previous followed by Next, come back to the same index, and each of
    them gives a valid index. *)
Lemma media_navigation_round_trip (media : list MediaItem) (idx : Z) :
  0 <= idx < Z.of_nat (List.length media) ->
  previousIndex media (nextIndex media idx) = idx
  /\ nextIndex media (previousIndex media idx) = idx
  /\ handleMediaPrev media (handleMediaNext media idx) = idx
  /\ handleMediaNext media (handleMediaPrev media idx) = idx
  /\ 0 <= handleMediaNext media idx < Z.of_nat (List.length media)
  /\ 0 <= handleMediaPrev media idx < Z.of_nat (List.length media).
Proof.
  intros H. unfold previousIndex, nextIndex, handleMediaPrev, handleMediaNext.
  cbv zeta.
  destruct (Z.eqb_spec (Z.of_nat (List.length media)) 0) as [E|E]; [lia|].
  repeat split;
    try (now apply rem_step_back); try (now apply rem_step_forth);
    apply Z.rem_bound_pos; lia.
Qed.

Lemma media_navigation_round_trip_witness :
  let a := persistedItem 11 (lit "https://cdn/a.jpg") (Some (lit "A")) in
  let b := persistedItem 12 (lit "https://cdn/b.jpg") (Some (lit "B")) in
  let c := persistedItem 13 (lit "https://cdn/c.jpg") None in
  handleMediaNext [a; b; c] 2 = 0
  /\ previousIndex [a; b; c] (nextIndex [a; b; c] 2) = 2
  /\ handleMediaPrev [a; b; c] (handleMediaNext [a; b; c] 2) = 2.
Proof.
  intros a b c.
  assert (H : 0 <= 2 < Z.of_nat (List.length [a; b; c])) by (cbn; lia).
  destruct (media_navigation_round_trip [a; b; c] 2 H) as (A & _ & B & _).
  split; [reflexivity|]. split; assumption.
Defined.

(** An overlay without media keeps its index. *)
Example overlay_without_media_keeps_index :
  handleMediaNext [] 0 = 0 /\ handleMediaPrev [] 0 = 0.
Proof. split; reflexivity. Qed.

(** ** Year search *)

Lemma closest_is_listed (num : Z) (first : YearLabel) (rest : list YearLabel) :
  In (fold_left (closer num) (first :: rest) first) (first :: rest).
Proof.
  destruct (reduce_closest num (first :: rest) first)
    as [[Hr _]|(pre & post & E & _)].
  - cbv zeta in Hr. rewrite Hr. now left.
  - rewrite E at 2. apply in_or_app. right. now left.
Qed.

(** X10. The year search only ever scrolls to a year that has events.
    Whatever the query and the state, the year to scroll to is left as it
    was or set to a member of [YEARS]; an error and a note are never shown
    together; and when an error is shown the year to scroll to is left as
    it was. *)
Lemma year_search_only_targets_listed_years (YEARS : list YearLabel)
  (yearQuery : jsstring) (st : SearchState) :
  let st' := handleYearSearchSubmit YEARS yearQuery st in
  (scrollToYear st' = scrollToYear st
   \/ exists y, In y YEARS /\ scrollToYear st' = Some y)
  /\ (searchError st' = [] \/ searchInfo st' = [])
  /\ (searchError st' <> [] -> scrollToYear st' = scrollToYear st)
  /\ (searchError st' = [] -> exists y, In y YEARS /\ scrollToYear st' = Some y).
Proof.
  cbv zeta. unfold handleYearSearchSubmit. cbv zeta.
  assert (Hmsg : forall m : string, m <> EmptyString -> lit m <> []).
  { intros [|c m] Hm E; [now apply Hm | discriminate E]. }
  destruct (testFourDigits (trim yearQuery)); cbn [negb].
  - destruct YEARS as [|first rest].
    + cbn [searchError searchInfo scrollToYear].
      split; [now left|]. split; [now right|]. split; [reflexivity|].
      intros H. apply Hmsg in H; [destruct H | discriminate].
    + rewrite forEach_exact.
      destruct (existsb (isTarget (parseInt (trim yearQuery))) (first :: rest))
        eqn:Eex; cbn [negb searchError searchInfo scrollToYear].
      * apply exact_year_found in Eex.
        split; [right; eexists; split; [exact Eex | reflexivity]|].
        split; [now left|]. split; [intros H; now destruct H|].
        intros _. eexists; split; [exact Eex | reflexivity].
      * pose proof (closest_is_listed (parseInt (trim yearQuery)) first rest)
          as Hin.
        split; [right; eexists; split; [exact Hin | reflexivity]|].
        split; [now left|]. split; [intros H; now destruct H|].
        intros _. eexists; split; [exact Hin | reflexivity].
  - cbn [searchError searchInfo scrollToYear].
    split; [now left|]. split; [now right|]. split; [reflexivity|].
    intros H. apply Hmsg in H; [destruct H | discriminate].
Qed.

(** ** The years and the decades of the pickers *)

Lemma label_eqb_eq (a b : YearLabel) : label_eqb a b = true <-> a = b.
Proof.
  destruct a as [|x], b as [|y]; cbn [label_eqb]; split; intros H;
    try reflexivity; try discriminate.
  - apply Z.eqb_eq in H. now subst.
  - injection H as ->. apply Z.eqb_refl.
Qed.

Lemma seen_label (y : YearLabel) (seen : list YearLabel) :
  existsb (label_eqb y) seen = true <-> In y seen.
Proof.
  rewrite existsb_exists. split.
  - intros (x & Hx & E). apply label_eqb_eq in E. now subst.
  - intros H. exists y. split; [exact H | now apply label_eqb_eq].
Qed.

Lemma distinct_members (years seen : list YearLabel) (y : YearLabel) :
  In y (distinct seen years) <-> In y years /\ ~ In y seen.
Proof.
  revert seen. induction years as [|x rest IH]; intros seen; cbn [distinct].
  - cbn. tauto.
  - destruct (existsb (label_eqb x) seen) eqn:E.
    + apply seen_label in E. rewrite IH. cbn [In].
      split; [tauto|]. intros [[->|H] Hn]; tauto.
    + assert (Hx : ~ In x seen).
      { intros H. apply seen_label in H. congruence. }
      cbn [In]. rewrite IH. cbn [In].
      split.
      * intros [->|[H Hn]]; [tauto|]. split; [tauto|]. tauto.
      * intros [[->|H] Hn]; [tauto|].
        destruct (label_eqb x y) eqn:Exy.
        -- apply label_eqb_eq in Exy. tauto.
        -- right. split; [exact H|]. intros [->|H']; [|tauto].
           assert (label_eqb y y = true) by (now apply label_eqb_eq).
           congruence.
Qed.

Lemma distinct_nodup (years seen : list YearLabel) :
  NoDup (distinct seen years).
Proof.
  revert seen. induction years as [|x rest IH]; intros seen; cbn [distinct].
  - constructor.
  - destruct (existsb (label_eqb x) seen); [apply IH|].
    constructor; [|apply IH].
    rewrite distinct_members. cbn [In]. tauto.
Qed.

Lemma insertYear_permutation (y : YearLabel) (l : list YearLabel) :
  Permutation (insertYear y l) (y :: l).
Proof.
  induction l as [|z l IH]; cbn [insertYear]; [reflexivity|].
  destruct (Number y <? Number z); [reflexivity|].
  rewrite IH. apply perm_swap.
Qed.

Lemma sortYears_permutation (l : list YearLabel) :
  Permutation (sortYears l) l.
Proof.
  unfold sortYears.
  assert (H : forall l acc,
    Permutation (fold_left (fun a y => insertYear y a) l acc) (l ++ acc)).
  { induction l0 as [|y l0 IH]; intros acc; cbn [fold_left app];
      [reflexivity|].
    rewrite IH, insertYear_permutation. symmetry. apply Permutation_middle. }
  rewrite H. now rewrite app_nil_r.
Qed.

(** X11. [YEARS] lists exactly the years of the loaded events, each once,
    in ascending numeric order. *)
Lemma derived_years_are_the_event_years (eventYears : list YearLabel) :
  (forall y, In y (deriveYears eventYears) <-> In y eventYears)
  /\ NoDup (deriveYears eventYears)
  /\ ascending (deriveYears eventYears).
Proof.
  unfold deriveYears. split; [|split].
  - intros y. split; intros H.
    + apply (Permutation_in _ (sortYears_permutation _)) in H.
      apply distinct_members in H. tauto.
    + apply (Permutation_in _ (Permutation_sym (sortYears_permutation _))).
      apply distinct_members. cbn. tauto.
  - apply (Permutation_NoDup (Permutation_sym (sortYears_permutation _))).
    apply distinct_nodup.
  - apply deriveYears_ascending.
Qed.


Lemma seen_number (x : Z) (seen : list Z) :
  existsb (Z.eqb x) seen = true <-> In x seen.
Proof.
  rewrite existsb_exists. split.
  - intros (y & Hy & E). apply Z.eqb_eq in E. now subst.
  - intros H. exists x. split; [exact H | apply Z.eqb_refl].
Qed.

Lemma distinctNumbers_members (numbers seen : list Z) (x : Z) :
  In x (distinctNumbers seen numbers) <-> In x numbers /\ ~ In x seen.
Proof.
  revert seen. induction numbers as [|n rest IH]; intros seen;
    cbn [distinctNumbers].
  - cbn. tauto.
  - destruct (existsb (Z.eqb n) seen) eqn:E.
    + apply seen_number in E. rewrite IH. cbn [In].
      split; [tauto|]. intros [[->|H] Hn]; tauto.
    + assert (Hn : ~ In n seen).
      { intros H. apply seen_number in H. congruence. }
      cbn [In]. rewrite IH. cbn [In].
      destruct (Z.eq_dec n x) as [->|Hne]; tauto.
Qed.

Lemma distinctNumbers_nodup (numbers seen : list Z) :
  NoDup (distinctNumbers seen numbers).
Proof.
  revert seen. induction numbers as [|n rest IH]; intros seen;
    cbn [distinctNumbers].
  - constructor.
  - destruct (existsb (Z.eqb n) seen); [apply IH|].
    constructor; [|apply IH].
    rewrite distinctNumbers_members. cbn [In]. tauto.
Qed.

Lemma insertNumber_members (x y : Z) (l : list Z) :
  In y (insertNumber x l) <-> y = x \/ In y l.
Proof.
  induction l as [|z l IH]; cbn [insertNumber].
  - cbn. intuition.
  - destruct (x <? z); cbn [In]; [intuition|]. rewrite IH. intuition.
Qed.

Lemma insertNumber_increasing (x : Z) (l : list Z) :
  Sorted Z.lt l -> ~ In x l -> Sorted Z.lt (insertNumber x l).
Proof.
  induction l as [|z l IH]; intros Hs Hn; cbn [insertNumber].
  - repeat constructor.
  - destruct (Z.ltb_spec x z) as [Hlt|Hge].
    + constructor; [exact Hs|]. now constructor.
    + assert (Hzx : z < x) by (cbn [In] in Hn; lia).
      inversion Hs as [|? ? Hs' Hd]; subst.
      constructor.
      * apply IH; [exact Hs'|]. cbn [In] in Hn. tauto.
      * destruct l as [|w l']; cbn [insertNumber]; [now constructor|].
        destruct (x <? w); constructor; [exact Hzx|].
        now inversion Hd.
Qed.

Lemma sortNumbers_members (l : list Z) (x : Z) :
  In x (sortNumbers l) <-> In x l.
Proof.
  unfold sortNumbers.
  assert (H : forall l acc,
    In x (fold_left (fun a y => insertNumber y a) l acc)
    <-> In x l \/ In x acc).
  { induction l0 as [|y l0 IH]; intros acc; cbn [fold_left].
    - cbn. tauto.
    - rewrite IH, insertNumber_members. cbn [In]. intuition. }
  rewrite H. cbn. tauto.
Qed.

Lemma sortNumbers_increasing (l : list Z) :
  NoDup l -> Sorted Z.lt (sortNumbers l).
Proof.
  unfold sortNumbers.
  assert (H : forall l acc,
    Sorted Z.lt acc -> NoDup l -> (forall x, In x l -> ~ In x acc) ->
    Sorted Z.lt (fold_left (fun a y => insertNumber y a) l acc)).
  { induction l0 as [|y l0 IH]; intros acc Hs Hd Hn; cbn [fold_left].
    - exact Hs.
    - inversion Hd as [|? ? Hy Hd']; subst. apply IH.
      + apply insertNumber_increasing; [exact Hs|]. apply Hn. now left.
      + exact Hd'.
      + intros x Hx Hin. apply insertNumber_members in Hin.
        destruct Hin as [->|Hin]; [tauto|].
        apply (Hn x); [now right | exact Hin]. }
  intros Hd. apply H; [constructor | exact Hd | intros x _ []].
Qed.

Lemma optZ_eqb_some (a b : Z) : optZ_eqb (Some a) (Some b) = true <-> a = b.
Proof. cbn. apply Z.eqb_eq. Qed.

(** X12. The decade and year picker lays out all of [YEARS]. The decades
    are strictly ascending; every year of [YEARS] is listed under its own
    decade, which is one of [DECADES]; every decade of [DECADES] lists at
    least one year, and only years of that decade, all taken from [YEARS];
    and while no decade is picked no year is listed. *)
Lemma year_picker_partitions_years (YEARS : list YearLabel) :
  Sorted Z.lt (DECADES YEARS)
  /\ (forall y, In y YEARS ->
        In (decadeOf y) (DECADES YEARS)
        /\ In y (yearsOfDecade YEARS (Some (decadeOf y))))
  /\ (forall d, In d (DECADES YEARS) -> yearsOfDecade YEARS (Some d) <> [])
  /\ (forall d y, In y (yearsOfDecade YEARS (Some d)) ->
        In y YEARS /\ d <= Number y < d + 10)
  /\ yearsOfDecade YEARS None = [].
Proof.
  assert (Hdec : forall d, In d (DECADES YEARS)
                   <-> exists y, In y YEARS /\ decadeOf y = d).
  { intros d. unfold DECADES.
    rewrite sortNumbers_members, distinctNumbers_members, in_map_iff.
    cbn [In]. split; [intros [(y & E & H) _] | intros (y & H & E)].
    - exists y. tauto.
    - split; [exists y; tauto | tauto]. }
  split; [|split; [|split; [|split]]].
  - apply sortNumbers_increasing, distinctNumbers_nodup.
  - intros y Hy. split.
    + apply Hdec. now exists y.
    + apply filter_In. split; [exact Hy|]. now apply optZ_eqb_some.
  - intros d Hd E. apply Hdec in Hd. destruct Hd as (y & Hy & Ed).
    assert (Hin : In y (yearsOfDecade YEARS (Some d))).
    { apply filter_In. split; [exact Hy|]. now apply optZ_eqb_some. }
    rewrite E in Hin. destruct Hin.
  - intros d y Hin. apply filter_In in Hin. destruct Hin as [Hy E].
    apply optZ_eqb_some in E. split; [exact Hy|].
    unfold decadeOf in E.
    pose proof (Z.div_mod (Number y) 10 ltac:(lia)) as Hdm.
    pose proof (Z.mod_pos_bound (Number y) 10 ltac:(lia)). lia.
  - unfold yearsOfDecade. clear Hdec.
    induction YEARS as [|y rest IH]; [reflexivity | exact IH].
Qed.


(* ================================================================== *)
(** * Further properties of the date field and of the year filter *)
(* ================================================================== *)

Lemma segment_canonical (k : jsstring) :
  (List.length k <= 8)%nat ->
  Forall (fun c => isDigit c = true) k ->
  segment k = segment (digitsOf (segment k))
  /\ (List.length (digitsOf (segment k)) <= 8)%nat.
Proof.
  intros Hlen Hd. now rewrite (segment_digits k Hlen Hd).
Qed.

Lemma firstn_digits (raw : jsstring) :
  Forall (fun c => isDigit c = true) (firstn 8 (digitsOf raw)).
Proof.
  apply Forall_forall. intros c Hc. apply firstn_subset in Hc.
  pose proof (digitsOf_all_digits raw) as H.
  rewrite Forall_forall in H. now apply H.
Qed.

Lemma editorDate_canonical (d : jsstring) :
  editorDate d ->
  d = segment (digitsOf d) /\ (List.length (digitsOf d) <= 8)%nat.
Proof.
  induction 1 as [|iso rest Hiso|previous raw _ IH].
  - split; [reflexivity | cbn; lia].
  - destruct (testIsoDate_inv iso Hiso)
      as (y1 & y2 & y3 & y4 & m1 & m2 & d1 & d2 & -> & Hdig).
    rewrite (displayDateOf_iso _ _ _ _ _ _ _ _ rest Hdig).
    change [m1; m2; slash; d1; d2; slash; y1; y2; y3; y4]
      with (segment [m1; m2; d1; d2; y1; y2; y3; y4]).
    apply segment_canonical; [cbn; lia|].
    forall_digits. repeat constructor; assumption.
  - unfold handleDateInputChange.
    destruct ((8 <=? len (digitsOf previous))
              && (len (digitsOf previous) <? len (digitsOf raw)));
      [exact IH|].
    rewrite kept_digits. apply segment_canonical.
    + apply firstn_le_length.
    + apply firstn_digits.
Qed.

(** X13. The date field is always the MM/DD/YYYY layout of its own digits.
    For every value [d] the field can hold: [d] has at most eight digits
    and is their segmentation; an edit that leaves the digits as they are
    (typing a letter or a slash, deleting a slash) leaves the field as it
    is; and [d] passes the date check of Save exactly when it holds eight
    digits. *)
Lemma date_field_is_layout_of_its_digits (d : jsstring) :
  editorDate d ->
  d = segment (digitsOf d)
  /\ len (digitsOf d) <= 8
  /\ (forall raw, digitsOf raw = digitsOf d -> handleDateInputChange d raw = d)
  /\ (testDisplayDate d = true <-> len (digitsOf d) = 8).
Proof.
  intros H. destruct (editorDate_canonical d H) as [Hc Hl].
  split; [exact Hc|]. split; [unfold len; lia|]. split.
  - intros raw E. unfold handleDateInputChange. rewrite E.
    rewrite Z.ltb_irrefl, andb_false_r, kept_digits.
    rewrite firstn_all2 by exact Hl. now symmetry.
  - split; intros Ht.
    + destruct (testDisplayDate_inv d Ht)
        as (m1 & m2 & d1 & d2 & y1 & y2 & y3 & y4 & -> & Hdig).
      forall_digits. unfold digitsOf. cbn [filter].
      repeat match goal with
             | E : isDigit _ = true |- _ => rewrite E; clear E
             end.
      rewrite slash_not_digit. reflexivity.
    + rewrite Hc. apply segment_full; [|apply digitsOf_all_digits].
      unfold len in Ht. lia.
Qed.

Lemma date_field_is_layout_of_its_digits_witness :
  let d := handleDateInputChange [] (lit "0901185") in
  d = lit "09/01/185"
  /\ handleDateInputChange d (lit "09/01/185x") = d
  /\ handleDateInputChange d (lit "0901/185") = d.
Proof.
  intros d.
  assert (H : editorDate d) by (apply date_after_input, date_of_new_event).
  destruct (date_field_is_layout_of_its_digits d H) as (_ & _ & Hsame & _).
  split; [reflexivity|].
  split; apply Hsame; reflexivity.
Defined.


Import EventList.

Lemma jseqb_eq (a b : jsstring) : JS.eqb a b = true <-> a = b.
Proof.
  split; [|intros ->; apply jseqb_refl].
  revert b. induction a as [|x a IH]; intros [|y b] H;
    try reflexivity; try discriminate.
  cbn [JS.eqb] in H. apply andb_prop in H. destruct H as [H1 H2].
  apply N.eqb_eq in H1. apply IH in H2. now subst.
Qed.

Lemma testFourDigits_len (s : jsstring) :
  testFourDigits s = true -> len s = 4.
Proof.
  intros H. do 4 (destruct s as [|? s]; [discriminate|]).
  destruct s; [reflexivity | discriminate].
Qed.

Lemma getEventYear_four_digits (dateStr : option jsstring) (y : jsstring) :
  getEventYear dateStr = Some y -> testFourDigits y = true.
Proof.
  unfold getEventYear. destruct (negb (truthyOpt dateStr)); [discriminate|].
  cbv zeta. destruct (testFourDigits (slice 0 4 (orEmpty dateStr))) eqn:E;
    [|discriminate].
  intros H. injection H as <-. exact E.
Qed.

(** X14. The year filter of the admin events list. An empty query, or one
    without a digit, clears the filter and every event is listed. Any other
    query filters by its first four digits at most: the events listed are
    exactly those whose stored date starts with these four digits; a query
    with fewer than four digits lists no event at all. *)
Lemma year_filter_lists_events_of_that_year (adminYearQuery : jsstring)
  (adminEvents : list EventRow) :
  match submitYearFilter adminYearQuery with
  | None =>
      digitsOf adminYearQuery = []
      /\ filteredAdminEvents None adminEvents = adminEvents
  | Some f =>
      f = firstn 4 (digitsOf adminYearQuery) /\ f <> []
      /\ (forall evt,
            In evt (filteredAdminEvents (Some f) adminEvents)
            <-> In evt adminEvents
                /\ getEventYear (ev_event_date evt) = Some f)
      /\ (len f < 4 -> filteredAdminEvents (Some f) adminEvents = [])
  end.
Proof.
  assert (Htrim : forall s, digitsOf (trim s) = digitsOf s).
  { intros s.
    assert (Hs : forall s, digitsOf (trimStart s) = digitsOf s).
    { induction s0 as [|c s0 IH]; [reflexivity|].
      cbn [trimStart]. destruct (isWhiteSpace c) eqn:E; [|reflexivity].
      rewrite IH. unfold digitsOf. cbn [filter].
      destruct (isDigit c) eqn:Ed; [|reflexivity].
      apply digit_not_space in Ed. congruence. }
    unfold trim, trimEnd. rewrite <- (Hs s).
    generalize (trimStart s). intros t.
    rewrite <- (rev_involutive t) at 2.
    generalize (rev t). intros u. unfold digitsOf.
    rewrite (filter_rev isDigit (trimStart u)), (filter_rev isDigit u).
    f_equal. apply Hs. }
  assert (Hfilter : forall f evt,
            f <> [] ->
            In evt (filteredAdminEvents (Some f) adminEvents)
            <-> In evt adminEvents
                /\ getEventYear (ev_event_date evt) = Some f).
  { intros f evt Hf. unfold filteredAdminEvents, truthyOpt. cbn [orEmpty].
    destruct f as [|c f]; [congruence|]. cbn [truthy].
    rewrite filter_In.
    destruct (getEventYear (ev_event_date evt)) as [y|]; cbn [optStr_eqb].
    - rewrite jseqb_eq. split; intros [H1 H2]; (split; [exact H1|]).
      + now subst y.
      + now injection H2.
    - split; intros [_ H]; discriminate. }
  unfold submitYearFilter. cbv zeta.
  destruct (truthy (trim adminYearQuery)) eqn:Et; cbn [negb].
  - rewrite Htrim.
    replace (slice 0 4 (digitsOf adminYearQuery))
      with (firstn 4 (digitsOf adminYearQuery)) by reflexivity.
    destruct (firstn 4 (digitsOf adminYearQuery)) as [|c f] eqn:Ef;
      cbn [truthy negb].
    + split; [|reflexivity].
      destruct (digitsOf adminYearQuery); [reflexivity | discriminate].
    + split; [reflexivity|]. split; [discriminate|].
      split; [intros evt; apply Hfilter; discriminate|].
      intros Hlen.
      destruct (filteredAdminEvents (Some (c :: f)) adminEvents)
        as [|evt l] eqn:E; [first [reflexivity | exact E]|]. exfalso.
      assert (Hin : In evt (filteredAdminEvents (Some (c :: f)) adminEvents))
        by (rewrite E; now left).
      apply Hfilter in Hin; [|discriminate]. destruct Hin as [_ Hy].
      apply getEventYear_four_digits, testFourDigits_len in Hy. lia.
  - split; [|reflexivity].
    rewrite <- Htrim. destruct (trim adminYearQuery); [reflexivity|discriminate].
Qed.

(** X15. An event saved from the editor is found by the year filter. When
    the date field holds a full date [d], Save stores a date that starts
    with the ISO form of [d], and filtering the admin list by the year
    typed in [d] lists every event stored with that date. *)
Lemma saved_event_found_by_its_year (d iso rest : jsstring) (evt : EventRow)
  (adminEvents : list EventRow) :
  testDisplayDate d = true ->
  buildIsoDate d = Some iso ->
  ev_event_date evt = Some (iso ++ rest) ->
  In evt adminEvents ->
  getEventYear (ev_event_date evt) = Some (skipn 6 d)
  /\ submitYearFilter (skipn 6 d) = Some (skipn 6 d)
  /\ In evt (filteredAdminEvents (submitYearFilter (skipn 6 d)) adminEvents).
Proof.
  intros Ht Hiso Hev Hin.
  destruct (testDisplayDate_inv d Ht)
    as (m1 & m2 & d1 & d2 & y1 & y2 & y3 & y4 & -> & Hdig).
  rewrite (buildIsoDate_display _ _ _ _ _ _ _ _ Hdig) in Hiso.
  injection Hiso as <-. forall_digits.
  assert (Hy : getEventYear (ev_event_date evt) = Some [y1; y2; y3; y4]).
  { rewrite Hev. unfold getEventYear, truthyOpt.
    cbn [orEmpty app truthy negb slice skipn firstn Nat.sub testFourDigits].
    repeat match goal with
           | E : isDigit ?c = true |- context [isDigit ?c] => rewrite E
           end.
    reflexivity. }
  assert (Hs : submitYearFilter [y1; y2; y3; y4] = Some [y1; y2; y3; y4]).
  { unfold submitYearFilter.
    rewrite trim_without_space
      by (repeat constructor; now apply digit_not_space).
    unfold digitsOf. cbn [truthy negb filter].
    repeat match goal with
           | E : isDigit ?c = true |- context [isDigit ?c] => rewrite E
           end.
    reflexivity. }
  cbn [skipn]. split; [exact Hy|]. split; [exact Hs|].
  rewrite Hs. unfold filteredAdminEvents, truthyOpt. cbn [orEmpty truthy].
  apply filter_In. split; [exact Hin|].
  rewrite Hy. cbn [optStr_eqb]. apply jseqb_refl.
Qed.

Lemma saved_event_found_by_its_year_witness :
  let evt := {| ev_id := 7;
                ev_event_date := Some (lit "1859-09-01T00:00:00.000Z");
                ev_event_type := Some (lit "Geomagnetic storm");
                ev_location := None;
                ev_title := Some (lit "Carrington Event");
                ev_short_description := None;
                ev_summary := Some (lit "Telegraph lines failed.");
                ev_impact_on_communication := None |} in
  submitYearFilter (lit "1859") = Some (lit "1859")
  /\ In evt (filteredAdminEvents (submitYearFilter (lit "1859")) [evt]).
Proof.
  intros evt.
  refine (proj2 (saved_event_found_by_its_year (lit "09/01/1859")
                   (lit "1859-09-01") (lit "T00:00:00.000Z") evt [evt]
                   _ _ _ _)).
  - reflexivity.
  - reflexivity.
  - reflexivity.
  - now left.
Defined.


(* ================================================================== *)
(** * Further properties of the account routes *)
(* ================================================================== *)

Lemma sole_row_of_id (users : list AdminUser) (u : AdminUser) :
  NoDup (map au_id users) -> In u users ->
  filter (fun v => au_id v =? au_id u) users = [u].
Proof.
  induction users as [|v users IH]; intros Hd Hin; [destruct Hin|].
  cbn [map] in Hd. inversion Hd as [|? ? Hv Hd']; subst.
  assert (Hnone : forall l, ~ In (au_id u) (map au_id l) ->
                    filter (fun v => au_id v =? au_id u) l = []).
  { induction l as [|w l IHl]; intros Hn; [reflexivity|].
    cbn [filter]. cbn [map In] in Hn.
    destruct (Z.eqb_spec (au_id w) (au_id u)) as [E|E]; [tauto|].
    apply IHl. tauto. }
  cbn [filter]. destruct Hin as [->|Hin].
  - rewrite Z.eqb_refl. f_equal. now apply Hnone.
  - destruct (Z.eqb_spec (au_id v) (au_id u)) as [E|E].
    + exfalso. apply Hv. rewrite E. now apply in_map.
    + now apply IH.
Qed.

Lemma update_keeps_other_rows (fields : list Assignment) (userId : Z)
  (db : Db) (u : AdminUser) :
  In u (admin_users db) ->
  au_id u <> userId ->
  In u (admin_users (fst (updateAdminUser db fields userId))).
Proof.
  intros Hin Hne. cbn [updateAdminUser fst withUsers admin_users].
  apply in_map_iff. exists u. split; [|exact Hin].
  destruct (Z.eqb_spec (au_id u) userId); [tauto | reflexivity].
Qed.

(** X16. PUT and DELETE /api/admin/users/:id leave protected accounts
    alone. With ids unique, as the primary key makes them, a row with
    [is_protected = 1] is in the table, unchanged, after either route,
    whatever id the request addresses: a request that addresses the row
    itself is refused, and a request that addresses another id does not
    reach it. *)
Lemma protected_accounts_survive_account_routes
  (bcrypt_hash : jsstring -> jsstring) (userId : Z)
  (c : AccountChanges) (db : Db) (u : AdminUser) :
  NoDup (map au_id (admin_users db)) ->
  In u (admin_users db) ->
  au_is_protected u = 1 ->
  In u (admin_users (snd (putAdminUser bcrypt_hash userId c db)))
  /\ In u (admin_users (snd (deleteAdminUserRoute userId db)))
  /\ (au_id u = userId ->
      putAdminUser bcrypt_hash userId c db
      = (send 403
           (ErrorJson (lit "This account is protected and cannot be edited.")),
         db)
      /\ deleteAdminUserRoute userId db
         = (send 403
              (ErrorJson
                 (lit "This account is protected and cannot be deleted.")),
            db)).
Proof.
  intros Hd Hin Hp.
  assert (Hflag : forall more flag,
            selectIsProtected db userId = flag :: more ->
            flag <> 1 -> au_id u <> userId).
  { intros more flag Hsel Hflag E. subst userId.
    unfold selectIsProtected in Hsel.
    rewrite (sole_row_of_id _ u Hd Hin) in Hsel. cbn [map] in Hsel.
    injection Hsel as <- _. contradiction. }
  split; [|split].
  - unfold putAdminUser.
    destruct (selectIsProtected db userId) as [|flag more] eqn:Hsel;
      [exact Hin|].
    destruct (Z.eqb_spec flag 1) as [E|E]; [exact Hin|].
    destruct (buildAssignments bcrypt_hash c) as [|a fields]; [exact Hin|].
    pose proof (update_keeps_other_rows (a :: fields) userId db u Hin
                  (Hflag _ _ eq_refl E)) as Hk.
    destruct (updateAdminUser db (a :: fields) userId) as [db' n].
    cbn [fst] in Hk. now destruct (n =? 0).
  - unfold deleteAdminUserRoute.
    destruct (selectIsProtected db userId) as [|flag more] eqn:Hsel;
      [exact Hin|].
    destruct (Z.eqb_spec flag 1) as [E|E]; [exact Hin|].
    assert (Hk : In u (admin_users (fst (deleteAdminUser db userId)))).
    { cbn [deleteAdminUser fst withUsers admin_users].
      apply filter_In. split; [exact Hin|].
      destruct (Z.eqb_spec (au_id u) userId) as [E'|E']; [|reflexivity].
      now destruct (Hflag _ _ eq_refl E). }
    destruct (deleteAdminUser db userId) as [db' n].
    cbn [fst] in Hk. now destruct (n =? 0).
  - intros Hid. subst userId.
    assert (Hsel : selectIsProtected db (au_id u) = [1]).
    { unfold selectIsProtected.
      rewrite (sole_row_of_id _ u Hd Hin). cbn [map]. now rewrite Hp. }
    unfold putAdminUser, deleteAdminUserRoute. rewrite Hsel.
    split; reflexivity.
Qed.

Lemma protected_accounts_survive_account_routes_witness :
  let root :=
    {| au_id := 1; au_username := lit "admin";
       au_password_hash := lit "$2b$12$old";
       au_is_protected := 1; au_security_question_id := None;
       au_security_answer_hash := None |} in
  let editor :=
    {| au_id := 2; au_username := lit "editor";
       au_password_hash := lit "$2b$12$e";
       au_is_protected := 0; au_security_question_id := None;
       au_security_answer_hash := None |} in
  let db :=
    {| admin_users := [root; editor]; security_questions := [];
       solar_events := []; next_event_id := 1 |} in
  let changes :=
    {| ac_password := Some (lit "hunter2"); ac_securityQuestionId := None;
       ac_securityAnswer := None |} in
  In root (admin_users
             (snd (putAdminUser (fun p => lit "hash:" ++ p) 2 changes db)))
  /\ In root (admin_users (snd (deleteAdminUserRoute 2 db))).
Proof.
  intros root editor db changes.
  assert (Hd : NoDup (map au_id (admin_users db))).
  { cbn. repeat constructor; cbn; intuition discriminate. }
  destruct (protected_accounts_survive_account_routes
              (fun p => lit "hash:" ++ p) 2 changes db root Hd
              (or_introl eq_refl) eq_refl) as (A & B & _).
  split; assumption.
Defined.

(** X17. PUT and DELETE /api/admin/users/:id address one id. After the
    PUT the table has as many rows as before and every row with another
    id is as it was, at its place; after the DELETE the table is as
    before, when the request is refused or finds no row, or it is the
    table without the rows of that id, the others in their order. *)
Lemma account_routes_address_one_id (bcrypt_hash : jsstring -> jsstring)
  (userId : Z) (c : AccountChanges) (db : Db) :
  let after_put := admin_users (snd (putAdminUser bcrypt_hash userId c db)) in
  let after_delete := admin_users (snd (deleteAdminUserRoute userId db)) in
  List.length after_put = List.length (admin_users db)
  /\ (forall n u, nth_error (admin_users db) n = Some u ->
        au_id u <> userId -> nth_error after_put n = Some u)
  /\ (after_delete = admin_users db
      \/ after_delete
         = filter (fun u => negb (au_id u =? userId)) (admin_users db))
  /\ (forall u, In u (admin_users db) -> au_id u <> userId ->
        In u after_delete)
  /\ (forall u, In u after_delete -> In u (admin_users db)).
Proof.
  intros after_put after_delete.
  assert (Hput : after_put = admin_users db
                 \/ exists fields, after_put
                      = admin_users (fst (updateAdminUser db fields userId))).
  { subst after_put. unfold putAdminUser.
    destruct (selectIsProtected db userId) as [|flag more]; [now left|].
    destruct (flag =? 1); [now left|].
    destruct (buildAssignments bcrypt_hash c) as [|a fields]; [now left|].
    right. exists (a :: fields).
    destruct (updateAdminUser db (a :: fields) userId) as [db' n].
    now destruct (n =? 0). }
  assert (Hdel : after_delete = admin_users db
                 \/ after_delete
                    = filter (fun u => negb (au_id u =? userId))
                        (admin_users db)).
  { subst after_delete. unfold deleteAdminUserRoute.
    destruct (selectIsProtected db userId) as [|flag more]; [now left|].
    destruct (flag =? 1); [now left|].
    right. cbn [deleteAdminUser].
    now destruct (Z.of_nat _ =? 0). }
  split; [|split; [|split; [exact Hdel|split]]].
  - destruct Hput as [->|(fields & ->)]; [reflexivity|].
    cbn [updateAdminUser fst withUsers admin_users]. apply length_map.
  - intros n u Hn Hne.
    destruct Hput as [->|(fields & ->)]; [exact Hn|].
    cbn [updateAdminUser fst withUsers admin_users].
    rewrite nth_error_map, Hn. cbn [option_map].
    destruct (Z.eqb_spec (au_id u) userId); [tauto | reflexivity].
  - intros u Hu Hne. destruct Hdel as [->| ->]; [exact Hu|].
    apply filter_In. split; [exact Hu|].
    now apply negb_true_iff, Z.eqb_neq.
  - intros u Hu. destruct Hdel as [E|E]; rewrite E in Hu; [exact Hu|].
    apply filter_In in Hu. tauto.
Qed.

(* ================================================================== *)
(** * Account creation and event deletion *)
(* ================================================================== *)

Import AdminRoutes.

Lemma find_last {A : Type} (f : A -> bool) (l : list A) (x : A) :
  (forall v, In v l -> f v = false) -> f x = true ->
  find f (l ++ [x]) = Some x.
Proof.
  intros Hl Hx. induction l as [|v l IH]; cbn [app find].
  - now rewrite Hx.
  - rewrite (Hl v (or_introl eq_refl)). apply IH.
    intros w Hw. apply Hl. now right.
Qed.

Lemma questionOrNull_some (q : option Z) (qid : Z) :
  questionOrNull q = Some qid -> (qid =? 0) = false.
Proof.
  destruct q as [v|]; cbn [questionOrNull]; [|discriminate].
  destruct (v =? 0) eqn:E; [discriminate|]. now intros [= <-].
Qed.

(** X18. An account made by POST /api/admin/users with a username and a
    password that are not blank can log in with them. Let the request be
    answered 201, its username and its password be non-empty once trimmed,
    no earlier account have the username, and [bcrypt.compare] accept every
    text against its own hash. A login with the trimmed username and
    password then succeeds with the new id and [is_protected] false if the
    account has no security question. If it has one, the login without an
    answer is asked that question; the login with the trimmed answer
    succeeds when the creation gave an answer that is not blank; and when
    it gave none, or a blank one, the stored answer hash is NULL and no
    login succeeds, whatever answer it sends, provided [bcrypt.compare]
    accepts nothing against the empty hash. *)
Lemma created_account_can_log_in
  (bcrypt_compare : jsstring -> jsstring -> bool)
  (bcrypt_hash : jsstring -> jsstring)
  (username_matches : jsstring -> jsstring -> bool)
  (admin_users_accepts : list AdminUser -> AdminUser -> bool)
  (insertId : Z) (b : NewUserBody) (db : Db) (u p : jsstring) :
  (forall plain, bcrypt_compare plain (bcrypt_hash plain) = true) ->
  nu_username b = Some u -> nu_password b = Some p ->
  truthy (trim u) = true -> truthy (trim p) = true ->
  username_matches (trim u) (trim u) = true ->
  (forall v, In v (admin_users db) ->
             username_matches (au_username v) (trim u) = false) ->
  res_status (fst (postAdminUser bcrypt_hash admin_users_accepts
                     insertId b db)) = 201 ->
  let db' := snd (postAdminUser bcrypt_hash admin_users_accepts
                    insertId b db) in
  let login answer :=
    postLogin bcrypt_compare username_matches
      {| lb_username := Some (trim u); lb_password := Some (trim p);
         lb_securityAnswer := answer |} db' in
  match questionOrNull (nu_securityQuestionId b) with
  | None =>
      forall answer,
        login answer = send 200 (LoginSuccess insertId (trim u) false None)
  | Some qid =>
      login None
      = send 400
          (SecurityAnswerRequired (lit "Security answer required.")
             (Some qid) (questionText db (Some qid)))
      /\ (forall a, nu_securityAnswer b = Some a -> truthy (trim a) = true ->
            login (Some (trim a))
            = send 200 (LoginSuccess insertId (trim u) false (Some qid)))
      /\ (truthy (trim (orEmpty (nu_securityAnswer b))) = false ->
          (forall plain, bcrypt_compare plain [] = false) ->
          forall answer,
            login answer
            = (if truthyOpt answer
               then send 401 (ErrorJson (lit "Incorrect security answer."))
               else send 400
                      (SecurityAnswerRequired
                         (lit "Security answer required.")
                         (Some qid) (questionText db (Some qid)))))
  end.
Proof.
  intros Hbc Hu Hp Htu Htp Hself Hfresh Hst db' login.
  pose proof (truthy_trim u Htu) as Hu'.
  pose proof (truthy_trim p Htp) as Hp'.
  set (row ans :=
         {| au_id := insertId; au_username := trim u;
            au_password_hash := bcrypt_hash (trim p);
            au_is_protected := 0;
            au_security_question_id :=
              questionOrNull (nu_securityQuestionId b);
            au_security_answer_hash := ans |}).
  assert (Hdb : exists ans,
            db' = withUsers db (admin_users db ++ [row ans])
            /\ (forall a, nu_securityAnswer b = Some a ->
                  truthy (trim a) = true ->
                  ans = Some (bcrypt_hash (trim a)))
            /\ (truthy (trim (orEmpty (nu_securityAnswer b))) = false ->
                ans = None)).
  { subst db'. revert Hst. unfold postAdminUser.
    rewrite Hu, Hp. unfold truthyOpt. cbn [orEmpty].
    rewrite Hu', Hp'. cbn [negb orb]. cbv zeta.
    match goal with
    | |- context [admin_users_accepts _ ?r] =>
        destruct (admin_users_accepts (admin_users db) r)
    end; cbn [fst snd res_status send]; [|discriminate].
    intros _. eexists. split; [reflexivity|]. split.
    - intros a Ha Hta. rewrite Ha. cbn [orEmpty].
      rewrite (truthy_trim a Hta), Hta. reflexivity.
    - intros Hblank. rewrite Hblank, andb_false_r. reflexivity. }
  destruct Hdb as (ans & Hdb & Hans & Hnone).
  assert (Hsel : selectLoginUser username_matches db' (trim u)
                 = [(row ans,
                     questionText db' (au_security_question_id (row ans)))]).
  { unfold selectLoginUser. rewrite Hdb at 1.
    cbn [withUsers admin_users].
    rewrite (find_last _ _ (row ans)); [reflexivity | exact Hfresh |].
    exact Hself. }
  assert (Hq : forall q, questionText db' q = questionText db q).
  { intros q. rewrite Hdb. reflexivity. }
  assert (Hlogin : forall answer,
            login answer
            = let success :=
                send 200
                  (LoginSuccess insertId (trim u) false
                     (questionOrNull (nu_securityQuestionId b))) in
              match questionOrNull (nu_securityQuestionId b) with
              | None => success
              | Some qid =>
                  if negb (truthyOpt answer) then
                    send 400
                      (SecurityAnswerRequired
                         (lit "Security answer required.") (Some qid)
                         (questionText db (Some qid)))
                  else if negb (bcrypt_compare (orEmpty answer) (orEmpty ans))
                  then send 401 (ErrorJson (lit "Incorrect security answer."))
                  else success
              end).
  { intros answer. subst login. unfold postLogin.
    cbn [lb_username lb_password lb_securityAnswer].
    unfold truthyOpt at 1 2. cbn [orEmpty].
    rewrite Htu, Htp. cbn [negb orb]. rewrite Hsel.
    cbn [row au_password_hash au_id au_username au_is_protected
         au_security_question_id au_security_answer_hash].
    rewrite Hbc. cbn [negb]. rewrite Z.eqb_refl. cbn [negb andb]. cbv zeta.
    destruct (questionOrNull (nu_securityQuestionId b)) as [qid|] eqn:Eq.
    - rewrite (questionOrNull_some _ _ Eq), Hq. reflexivity.
    - reflexivity. }
  destruct (questionOrNull (nu_securityQuestionId b)) as [qid|] eqn:Eq.
  - split; [|split].
    + rewrite Hlogin. reflexivity.
    + intros a Ha Hta. rewrite Hlogin. cbv zeta.
      unfold truthyOpt. cbn [orEmpty]. rewrite Hta. cbn [negb].
      rewrite (Hans a Ha Hta). cbn [orEmpty]. rewrite Hbc. reflexivity.
    + intros Hblank Hempty answer. rewrite Hlogin. cbv zeta.
      rewrite (Hnone Hblank). cbn [orEmpty]. rewrite Hempty.
      now destruct (truthyOpt answer).
  - intros answer. rewrite Hlogin. reflexivity.
Qed.

Lemma created_account_can_log_in_witness :
  let hash plain := lit "$2b$12$" ++ plain in
  let compare plain h := JS.eqb h (hash plain) in
  let root :=
    {| au_id := 1; au_username := lit "admin";
       au_password_hash := hash (lit "root");
       au_is_protected := 1; au_security_question_id := None;
       au_security_answer_hash := None |} in
  let db :=
    {| admin_users := [root];
       security_questions :=
         [{| sq_id := 3; sq_question_text := lit "First pet?" |}];
       solar_events := []; next_event_id := 1 |} in
  let body :=
    {| nu_username := Some (lit " editor ");
       nu_password := Some (lit "hunter2 ");
       nu_securityQuestionId := Some 3;
       nu_securityAnswer := Some (lit " rex") |} in
  let db' := snd (postAdminUser hash (fun _ _ => true) 2 body db) in
  postLogin compare JS.eqb
    {| lb_username := Some (lit "editor"); lb_password := Some (lit "hunter2");
       lb_securityAnswer := None |} db'
  = send 400
      (SecurityAnswerRequired (lit "Security answer required.") (Some 3)
         (Some (lit "First pet?")))
  /\ postLogin compare JS.eqb
       {| lb_username := Some (lit "editor");
          lb_password := Some (lit "hunter2");
          lb_securityAnswer := Some (lit "rex") |} db'
     = send 200 (LoginSuccess 2 (lit "editor") false (Some 3)).
Proof.
  intros hash compare root db body db'.
  pose proof (created_account_can_log_in compare hash JS.eqb
                (fun _ _ => true) 2 body db (lit " editor ") (lit "hunter2 "))
    as H.
  cbv zeta in H.
  assert (Hc : forall plain, compare plain (hash plain) = true)
    by (intros plain; apply jseqb_refl).
  specialize (H Hc eq_refl eq_refl eq_refl eq_refl eq_refl).
  assert (Hfresh : forall v, In v (admin_users db) ->
            JS.eqb (au_username v) (trim (lit " editor ")) = false).
  { intros v [<-|[]]. reflexivity. }
  specialize (H Hfresh eq_refl).
  destruct H as (H1 & H2 & _). split.
  - exact H1.
  - exact (H2 (lit " rex") eq_refl eq_refl).
Defined.

(** An account made with a question and no answer: the route answers 201,
    and no login of the account succeeds. *)
Example account_with_question_and_no_answer_is_locked_out :
  let hash plain := lit "$2b$12$" ++ plain in
  let compare plain h := JS.eqb h (hash plain) in
  let db :=
    {| admin_users := [];
       security_questions :=
         [{| sq_id := 3; sq_question_text := lit "First pet?" |}];
       solar_events := []; next_event_id := 1 |} in
  let body :=
    {| nu_username := Some (lit "editor");
       nu_password := Some (lit "hunter2");
       nu_securityQuestionId := Some 3;
       nu_securityAnswer := None |} in
  let created := postAdminUser hash (fun _ _ => true) 2 body db in
  let login answer :=
    postLogin compare JS.eqb
      {| lb_username := Some (lit "editor");
         lb_password := Some (lit "hunter2");
         lb_securityAnswer := answer |} (snd created) in
  fst created = send 201 (CreatedJson 2)
  /\ res_status (login None) = 400
  /\ res_status (login (Some (lit "rex"))) = 401
  /\ res_status (login (Some [])) = 400.
Proof. repeat split; reflexivity. Qed.

(** An account made with a password of blanks: the route answers 201 and
    stores the hash of the empty text, and neither the blanks nor the
    empty password log in. *)
Example account_with_blank_password_is_locked_out :
  let hash plain := lit "$2b$12$" ++ plain in
  let compare plain h := JS.eqb h (hash plain) in
  let db :=
    {| admin_users := []; security_questions := [];
       solar_events := []; next_event_id := 1 |} in
  let body :=
    {| nu_username := Some (lit "editor");
       nu_password := Some (lit "   ");
       nu_securityQuestionId := None;
       nu_securityAnswer := None |} in
  let created := postAdminUser hash (fun _ _ => true) 2 body db in
  let login pw :=
    postLogin compare JS.eqb
      {| lb_username := Some (lit "editor"); lb_password := Some pw;
         lb_securityAnswer := None |} (snd created) in
  fst created = send 201 (CreatedJson 2)
  /\ map au_password_hash (admin_users (snd created)) = [hash []]
  /\ res_status (login (lit "   ")) = 401
  /\ res_status (login []) = 400.
Proof. repeat split; reflexivity. Qed.


Lemma filter_none {A : Type} (f : A -> bool) (l : list A) :
  (forall x, In x l -> f x = false) -> filter f l = [].
Proof.
  intros H. induction l as [|x l IH]; [reflexivity|].
  cbn [filter]. rewrite (H x (or_introl eq_refl)).
  apply IH. intros y Hy. apply H. now right.
Qed.

Lemma filter_all {A : Type} (f : A -> bool) (l : list A) :
  (forall x, In x l -> f x = true) -> filter f l = l.
Proof.
  intros H. induction l as [|x l IH]; [reflexivity|].
  cbn [filter]. rewrite (H x (or_introl eq_refl)). f_equal.
  apply IH. intros y Hy. apply H. now right.
Qed.

(** X19. Creating an account and deleting it again restores the table.
    When POST /api/admin/users is answered 201 with an id no account has,
    DELETE /api/admin/users/:id with that id is answered 200, not refused
    as protected, and [admin_users] is as before the creation; a second
    DELETE is answered 404. *)
Lemma created_account_can_be_deleted (bcrypt_hash : jsstring -> jsstring)
  (admin_users_accepts : list AdminUser -> AdminUser -> bool)
  (insertId : Z) (b : NewUserBody) (db : Db) :
  (forall v, In v (admin_users db) -> au_id v <> insertId) ->
  res_status (fst (postAdminUser bcrypt_hash admin_users_accepts
                     insertId b db)) = 201 ->
  let db' := snd (postAdminUser bcrypt_hash admin_users_accepts
                    insertId b db) in
  fst (deleteAdminUserRoute insertId db') = send 200 SuccessJson
  /\ admin_users (snd (deleteAdminUserRoute insertId db')) = admin_users db
  /\ fst (deleteAdminUserRoute insertId
            (snd (deleteAdminUserRoute insertId db')))
     = send 404 (ErrorJson (lit "Admin user not found.")).
Proof.
  intros Hfresh Hst db'.
  assert (Hdb : exists row,
            db' = withUsers db (admin_users db ++ [row])
            /\ au_id row = insertId /\ au_is_protected row = 0).
  { subst db'. revert Hst. unfold postAdminUser.
    destruct (negb (truthyOpt (nu_username b))
              || negb (truthyOpt (nu_password b)));
      [cbn; discriminate|].
    cbv zeta.
    match goal with
    | |- context [admin_users_accepts _ ?r] =>
        destruct (admin_users_accepts (admin_users db) r)
    end; cbn [fst snd res_status send]; [|discriminate].
    intros _. eexists. split; [reflexivity|]. split; reflexivity. }
  destruct Hdb as (row & Hdb & Hid & Hflag).
  assert (Hold : forall f, (f = fun v : AdminUser => au_id v =? insertId) ->
            filter f (admin_users db) = []).
  { intros f ->. apply filter_none. intros v Hv.
    apply Z.eqb_neq. now apply Hfresh. }
  assert (Hkeep : filter (fun v => negb (au_id v =? insertId)) (admin_users db)
                  = admin_users db).
  { apply filter_all. intros v Hv.
    apply negb_true_iff, Z.eqb_neq. now apply Hfresh. }
  assert (Hfirst : deleteAdminUserRoute insertId db'
                   = (send 200 SuccessJson, withUsers db' (admin_users db))).
  { unfold deleteAdminUserRoute, selectIsProtected, deleteAdminUser.
    rewrite Hdb. cbn [withUsers admin_users].
    rewrite !filter_app, (Hold _ eq_refl), Hkeep. cbn [filter app].
    rewrite Hid, Z.eqb_refl. cbn [map negb app List.length Z.of_nat].
    rewrite Hflag, app_nil_r. reflexivity. }
  rewrite Hfirst. cbn [fst snd]. split; [reflexivity|].
  split; [reflexivity|].
  unfold deleteAdminUserRoute, selectIsProtected.
  cbn [withUsers admin_users]. rewrite (Hold _ eq_refl). reflexivity.
Qed.

Lemma created_account_can_be_deleted_witness :
  let root :=
    {| au_id := 1; au_username := lit "admin";
       au_password_hash := lit "$2b$12$old";
       au_is_protected := 1; au_security_question_id := None;
       au_security_answer_hash := None |} in
  let db :=
    {| admin_users := [root]; security_questions := [];
       solar_events := []; next_event_id := 1 |} in
  let body :=
    {| nu_username := Some (lit "editor");
       nu_password := Some (lit "hunter2");
       nu_securityQuestionId := None;
       nu_securityAnswer := None |} in
  let db' :=
    snd (postAdminUser (fun p => lit "hash:" ++ p) (fun _ _ => true)
           2 body db) in
  List.length (admin_users db') = 2%nat
  /\ admin_users (snd (deleteAdminUserRoute 2 db')) = [root].
Proof.
  intros root db body db'. split; [reflexivity|].
  refine (proj1 (proj2 (created_account_can_be_deleted
                          (fun p => lit "hash:" ++ p) (fun _ _ => true)
                          2 body db _ _))).
  - intros v [<-|[]]. discriminate.
  - reflexivity.
Defined.

(** ** Event routes *)

Lemma event_rows_of_fresh_id (db : Db) (f : EventRow -> bool) :
  (forall e, In e (solar_events db) -> ev_id e <> next_event_id db) ->
  f = (fun e => ev_id e =? next_event_id db) ->
  filter f (solar_events db) = []
  /\ filter (fun e => negb (f e)) (solar_events db) = solar_events db.
Proof.
  intros Hfresh ->. split.
  - apply filter_none. intros e He. apply Z.eqb_neq. now apply Hfresh.
  - apply filter_all. intros e He.
    apply negb_true_iff, Z.eqb_neq. now apply Hfresh.
Qed.

(** X20. A created event can be updated and deleted under the id the API
    returned. When POST /api/admin/events is answered 201 and the next id
    of the table is unused, the id returned is that next id; a PUT with
    that id and a body the database takes is answered 200 and stores the
    new values in the created row, leaving the other rows alone; a DELETE
    with that id is answered 200 and leaves the rows that were there
    before the creation; a second DELETE is answered 404. *)
Lemma created_event_can_be_updated_and_deleted
  (solar_events_accepts : EventRow -> bool) (b b2 : EventBody) (db : Db) :
  (forall e, In e (solar_events db) -> ev_id e <> next_event_id db) ->
  res_status (fst (postEvent solar_events_accepts b db)) = 201 ->
  truthyOpt (b_event_date b2) = true -> truthyOpt (b_title b2) = true ->
  solar_events_accepts (eventRowOf (next_event_id db) b2) = true ->
  let newId := next_event_id db in
  let db' := snd (postEvent solar_events_accepts b db) in
  fst (postEvent solar_events_accepts b db) = send 201 (CreatedJson newId)
  /\ solar_events db' = solar_events db ++ [eventRowOf newId b]
  /\ fst (putEvent solar_events_accepts newId b2 db') = send 200 SuccessJson
  /\ solar_events (snd (putEvent solar_events_accepts newId b2 db'))
     = solar_events db ++ [eventRowOf newId b2]
  /\ fst (deleteEvent newId db') = send 200 SuccessJson
  /\ solar_events (snd (deleteEvent newId db')) = solar_events db
  /\ fst (deleteEvent newId (snd (deleteEvent newId db')))
     = send 404 (ErrorJson (lit "Event not found.")).
Proof.
  intros Hfresh Hst Hd2 Ht2 Hacc nid db'. subst nid.
  destruct (event_rows_of_fresh_id db _ Hfresh eq_refl) as [Hnone Hall].
  assert (Hpost : postEvent solar_events_accepts b db
                  = (send 201 (CreatedJson (next_event_id db)),
                     withEvents db (solar_events db ++ [eventRowOf (next_event_id db) b])
                       (next_event_id db + 1))).
  { revert Hst. unfold postEvent.
    destruct (negb (truthyOpt (b_event_date b))
              || negb (truthyOpt (b_title b)));
      [cbn; discriminate|].
    cbv zeta.
    destruct (solar_events_accepts (eventRowOf (next_event_id db) b));
      [reflexivity | cbn; discriminate]. }
  subst db'. rewrite Hpost. cbn [fst snd].
  split; [reflexivity|]. split; [reflexivity|].
  assert (Hmap : map (fun e => if ev_id e =? (next_event_id db) then eventRowOf (next_event_id db) b2
                               else e) (solar_events db)
                 = solar_events db).
  { rewrite <- (map_id (solar_events db)) at 2. apply map_ext_in.
    intros e He. destruct (Z.eqb_spec (ev_id e) (next_event_id db)) as [E|E];
      [now apply Hfresh in He | reflexivity]. }
  assert (Hput : putEvent solar_events_accepts (next_event_id db) b2
                   (withEvents db (solar_events db ++ [eventRowOf (next_event_id db) b])
                      (next_event_id db + 1))
                 = (send 200 SuccessJson,
                    withEvents db (solar_events db ++ [eventRowOf (next_event_id db) b2])
                      (next_event_id db + 1))).
  { unfold putEvent. rewrite Hd2, Ht2. cbn [negb orb]. cbv zeta.
    cbn [withEvents solar_events next_event_id admin_users
         security_questions].
    rewrite filter_app, map_app, Hnone, Hmap.
    cbn [filter map app eventRowOf ev_id]. rewrite Z.eqb_refl.
    cbn [List.length Z.of_nat Z.eqb Pos.of_succ_nat].
    rewrite Hacc. reflexivity. }
  rewrite Hput. cbn [fst snd withEvents solar_events].
  split; [reflexivity|]. split; [reflexivity|].
  unfold deleteEvent. cbv zeta.
  cbn [withEvents solar_events next_event_id fst snd].
  rewrite !filter_app, Hnone, Hall.
  cbn [filter app eventRowOf ev_id]. rewrite Z.eqb_refl.
  cbn [negb List.length Z.of_nat Z.eqb Pos.of_succ_nat app fst snd
       withEvents solar_events].
  rewrite app_nil_r, Hnone.
  repeat split; reflexivity.
Qed.


Lemma created_event_can_be_updated_and_deleted_witness :
  let body title :=
    {| b_event_date := Some (lit "1859-09-01");
       b_event_type := Some (lit "Geomagnetic storm");
       b_location := None;
       b_title := Some title;
       b_short_description := None;
       b_summary := Some (lit "Telegraph lines failed.");
       b_impact_on_communication := None |} in
  let db :=
    {| admin_users := []; security_questions := [];
       solar_events := [eventRowOf 4 (body (lit "Earlier storm"))];
       next_event_id := 5 |} in
  let db' := snd (postEvent documentedNotNull (body (lit "Carington")) db) in
  solar_events (snd (putEvent documentedNotNull 5
                       (body (lit "Carrington Event")) db'))
  = [eventRowOf 4 (body (lit "Earlier storm"));
     eventRowOf 5 (body (lit "Carrington Event"))]
  /\ solar_events (snd (deleteEvent 5 db')) = solar_events db.
Proof.
  intros body db db'.
  destruct (created_event_can_be_updated_and_deleted documentedNotNull
              (body (lit "Carington")) (body (lit "Carrington Event")) db)
    as (_ & _ & _ & Hput & _ & Hdel & _).
  - intros e [<-|[]]. discriminate.
  - reflexivity.
  - reflexivity.
  - reflexivity.
  - reflexivity.
  - split; [exact Hput | exact Hdel].
Defined.

(* ================================================================== *)
(** * Uploads and team photos *)
(* ================================================================== *)

Import Storage.

Lemma dropSlashes_no_leading_slash (s : jsstring) :
  startsWith [slash] (dropSlashes s) = false.
Proof.
  induction s as [|c s IH]; [reflexivity|].
  cbn [dropSlashes]. destruct (c =? slash)%N eqn:E; [exact IH|].
  cbn [startsWith]. rewrite N.eqb_sym, E. reflexivity.
Qed.

Lemma dropSlashes_fixed (s : jsstring) :
  startsWith [slash] s = false -> dropSlashes s = s.
Proof.
  destruct s as [|c s]; [reflexivity|].
  cbn [startsWith dropSlashes]. rewrite N.eqb_sym.
  destruct (c =? slash)%N; [discriminate | reflexivity].
Qed.

Lemma dropSlashes_split (s : jsstring) :
  exists slashes,
    s = slashes ++ dropSlashes s /\ Forall (fun c => c = slash) slashes.
Proof.
  induction s as [|c s (slashes & E & H)].
  - exists []. split; [reflexivity | constructor].
  - cbn [dropSlashes]. destruct (N.eqb_spec c slash) as [->|Hc].
    + exists (slash :: slashes). split; [cbn [app]; now f_equal|].
      now constructor.
    + exists []. split; [reflexivity | constructor].
Qed.

(** X21. [stripTrailingSlashes] removes the slashes at the end and nothing
    else: the argument is the result followed by slashes only, the result
    does not end with a slash, and stripping the result again changes
    nothing. *)
Lemma strip_trailing_slashes_removes_only_them (s : jsstring) :
  let stripped := stripTrailingSlashes (Some s) in
  (exists slashes,
     s = stripped ++ slashes /\ Forall (fun c => c = slash) slashes)
  /\ (forall front, stripped <> front ++ [slash])
  /\ stripTrailingSlashes (Some stripped) = stripped
  /\ stripTrailingSlashes None = [].
Proof.
  cbv zeta. unfold stripTrailingSlashes. cbn [orEmpty].
  split; [|split; [|split]].
  - destruct (dropSlashes_split (rev s)) as (slashes & E & H).
    exists (rev slashes). split.
    + rewrite <- (rev_involutive s), E at 1. now rewrite rev_app_distr.
    + apply Forall_rev. exact H.
  - intros front E.
    apply (f_equal (@rev char)) in E.
    rewrite rev_involutive, rev_app_distr in E. cbn [rev app] in E.
    pose proof (dropSlashes_no_leading_slash (rev s)) as H.
    rewrite E in H. cbn [startsWith] in H.
    rewrite N.eqb_refl in H. discriminate.
  - rewrite rev_involutive. f_equal.
    apply dropSlashes_fixed, dropSlashes_no_leading_slash.
  - reflexivity.
Qed.


Lemma startsWith_app (p r : jsstring) : startsWith p (p ++ r) = true.
Proof.
  induction p as [|c p IH]; [reflexivity|].
  cbn [app startsWith]. now rewrite N.eqb_refl.
Qed.

Lemma startsWith_inv (p s : jsstring) :
  startsWith p s = true -> s = p ++ skipn (List.length p) s.
Proof.
  revert s. induction p as [|c p IH]; intros s H; [reflexivity|].
  destruct s as [|d s]; [discriminate|].
  cbn [startsWith] in H. apply andb_prop in H. destruct H as [H1 H2].
  apply N.eqb_eq in H1. subst d.
  cbn [List.length skipn app]. f_equal. now apply IH.
Qed.

Lemma after_app (p r : jsstring) : after p (p ++ r) = Some r.
Proof.
  unfold after. rewrite startsWith_app. f_equal.
  induction p as [|c p IH]; [reflexivity | exact IH].
Qed.

Lemma after_inv (p s r : jsstring) : after p s = Some r -> s = p ++ r.
Proof.
  unfold after. destruct (startsWith p s) eqn:E; [|discriminate].
  intros [= <-]. now apply startsWith_inv.
Qed.

Lemma spanMime_app (run rest : jsstring) :
  forallb isMimeChar run = true ->
  forallb isMimeChar (firstn 1 rest) = false \/ rest = [] ->
  spanMime (run ++ rest) = (run, rest).
Proof.
  intros Hrun Hrest. induction run as [|c run IH]; cbn [app].
  - destruct rest as [|d rest]; [reflexivity|].
    destruct Hrest as [H|H]; [|discriminate].
    cbn [firstn forallb] in H. rewrite andb_true_r in H.
    cbn [spanMime]. now rewrite H.
  - cbn [forallb] in Hrun. apply andb_prop in Hrun.
    destruct Hrun as [Hc Hrun]. cbn [spanMime]. rewrite Hc.
    now rewrite (IH Hrun).
Qed.

Lemma spanMime_inv (s run rest : jsstring) :
  spanMime s = (run, rest) ->
  s = run ++ rest /\ forallb isMimeChar run = true.
Proof.
  revert run rest. induction s as [|c s IH]; intros run rest H.
  - injection H as <- <-. split; reflexivity.
  - cbn [spanMime] in H. destruct (isMimeChar c) eqn:Ec.
    + destruct (spanMime s) as [run' rest'].
      injection H as <- <-. destruct (IH run' rest' eq_refl) as [E Hr].
      split; [cbn [app]; now f_equal|].
      cbn [forallb]. now rewrite Ec.
    + injection H as <- <-. split; reflexivity.
Qed.

(** X22. The data URL of a team photo is parsed without loss.
    [imageData] is taken exactly when it is [data:], a MIME type made of
    [image/] and a non-empty run of letters, digits, [.], [+] and [-],
    then [;base64,] and a non-empty payload without line terminator; the
    two groups are then that MIME type and that payload. *)
Lemma data_url_match_round_trip (imageData mime base64 : jsstring) :
  matchDataUrl imageData = Some (mime, base64)
  <-> exists run,
        imageData = lit "data:" ++ mime ++ lit ";base64," ++ base64
        /\ mime = lit "image/" ++ run
        /\ run <> [] /\ forallb isMimeChar run = true
        /\ base64 <> []
        /\ forallb (fun c => negb (isLineTerminator c)) base64 = true.
Proof.
  split.
  - unfold matchDataUrl.
    destruct (after (lit "data:image/") imageData) as [r|] eqn:Er;
      [|discriminate].
    apply after_inv in Er.
    destruct (spanMime r) as [run rest] eqn:Es.
    apply spanMime_inv in Es. destruct Es as [Es Hrun].
    destruct run as [|c run]; [discriminate|]. cbn [truthy negb].
    destruct (after (lit ";base64,") rest) as [payload|] eqn:Ea;
      [|discriminate].
    apply after_inv in Ea.
    destruct payload as [|d payload]; [discriminate|]. cbn [truthy andb].
    destruct (forallb (fun c => negb (isLineTerminator c)) (d :: payload))
      eqn:Ep; [|discriminate].
    intros [= <- <-]. exists (c :: run).
    split; [|repeat split; try discriminate; assumption].
    rewrite Er, Es, Ea. reflexivity.
  - intros (run & -> & -> & Hne & Hrun & Hb & Hp).
    unfold matchDataUrl.
    replace (lit "data:" ++ (lit "image/" ++ run) ++ lit ";base64," ++ base64)
      with (lit "data:image/" ++ run ++ lit ";base64," ++ base64)
      by (rewrite <- app_assoc; reflexivity).
    rewrite after_app, spanMime_app;
      [ | exact Hrun | left; reflexivity].
    destruct run as [|c run]; [congruence|]. cbn [truthy negb].
    rewrite after_app.
    destruct base64 as [|d base64]; [congruence|]. cbn [truthy andb].
    now rewrite Hp.
Qed.

Example data_url_examples :
  matchDataUrl (lit "data:image/svg+xml;base64,PHN2Zz4=")
  = Some (lit "image/svg+xml", lit "PHN2Zz4=")
  /\ matchDataUrl (lit "data:text/plain;base64,aGk=") = None
  /\ matchDataUrl (lit "data:image/png;base64,") = None
  /\ matchDataUrl (lit "data:image/png;charset=x;base64,aGk=") = None.
Proof. repeat split; reflexivity. Qed.


Lemma stripTrailingSlashes_idem (s : option jsstring) :
  stripTrailingSlashes (Some (stripTrailingSlashes s))
  = stripTrailingSlashes s.
Proof.
  unfold stripTrailingSlashes. cbn [orEmpty].
  rewrite rev_involutive. f_equal.
  apply dropSlashes_fixed, dropSlashes_no_leading_slash.
Qed.

Lemma skipn_prefix (p r : jsstring) : skipn (List.length p) (p ++ r) = r.
Proof. induction p as [|c p IH]; [reflexivity | exact IH]. Qed.

Lemma setImageUrl_matching (id_matches : Z -> jsstring -> bool)
  (memberId : jsstring) (url : option jsstring) (members : list TeamMember) :
  filter (fun m => id_matches (tm_id m) memberId)
    (setImageUrl id_matches memberId url members)
  = map (fun m => {| tm_id := tm_id m; tm_name := tm_name m;
                     tm_role := tm_role m; tm_image_url := url |})
      (filter (fun m => id_matches (tm_id m) memberId) members).
Proof.
  induction members as [|m l IH]; [reflexivity|].
  cbn [setImageUrl map filter] in *.
  destruct (id_matches (tm_id m) memberId) eqn:E; cbn [tm_id]; rewrite E.
  - cbn [map]. f_equal. exact IH.
  - exact IH.
Qed.

Lemma setImageUrl_twice (id_matches : Z -> jsstring -> bool)
  (memberId : jsstring) (a b : option jsstring) (members : list TeamMember) :
  setImageUrl id_matches memberId b (setImageUrl id_matches memberId a members)
  = setImageUrl id_matches memberId b members.
Proof.
  unfold setImageUrl. rewrite map_map. apply map_ext. intros m.
  destruct (id_matches (tm_id m) memberId) eqn:E; cbn [tm_id]; rewrite E;
    reflexivity.
Qed.

(** X23. The photo a member was given is the object its removal deletes.
    With the object store configured and reachable, a data URL that
    parses, a member the id addresses and a key the bucket does not hold:
    POST /api/admin/team/:id/photo is answered 200 with the public URL,
    stores the decoded image under the new key and sets the member's
    [image_url]; DELETE /api/admin/team/:id/photo after it is answered
    200, clears [image_url] and leaves the bucket as it was before the
    upload. *)
Lemma uploaded_photo_is_the_one_removed
  (id_matches : Z -> jsstring -> bool) (decodeBase64 : jsstring -> list N)
  (env : Env) (memberId imageData hex bucket base mime base64 : jsstring)
  (now : Z) (w : World) :
  buildSpacesClient env = true ->
  requireSpacesBucketAndPublicBase env = Some (bucket, base) ->
  matchDataUrl imageData = Some (mime, base64) ->
  (exists m, In m (team_members w) /\ id_matches (tm_id m) memberId = true) ->
  (forall o, In o (objects w) ->
     sameObject bucket (photoKey memberId now hex (guessImageExt mime)) o
     = false) ->
  let key := photoKey memberId now hex (guessImageExt mime) in
  let url := base ++ lit "/" ++ key in
  let uploaded :=
    postTeamPhoto id_matches decodeBase64 env memberId (Some imageData)
      now hex true w in
  let removed := deleteTeamPhoto id_matches env memberId true (snd uploaded) in
  fst uploaded = (200, PhotoUploaded url)
  /\ objects (snd uploaded)
     = {| o_bucket := bucket; o_key := key; o_body := decodeBase64 base64;
          o_contentType := mime |} :: objects w
  /\ team_members (snd uploaded)
     = setImageUrl id_matches memberId (Some url) (team_members w)
  /\ fst removed = (200, PhotoSuccess)
  /\ objects (snd removed) = objects w
  /\ team_members (snd removed)
     = setImageUrl id_matches memberId None (team_members w).
Proof.
  intros Hclient Henv Hmatch (m & Hm & Hid) Hfresh key url uploaded removed.
  assert (Hdata : truthyOpt (Some imageData) = true).
  { destruct imageData; [discriminate Hmatch | reflexivity]. }
  assert (Hbase : stripTrailingSlashes (Some base) = base).
  { revert Henv. unfold requireSpacesBucketAndPublicBase.
    destruct (negb (truthyOpt (SPACES_BUCKET env))
              || negb (truthyOpt (SPACES_ORIGIN_URL env))); [discriminate|].
    intros [= _ <-]. apply stripTrailingSlashes_idem. }
  assert (Hrows : exists row rows,
            filter (fun x => id_matches (tm_id x) memberId) (team_members w)
            = row :: rows).
  { destruct (filter (fun x => id_matches (tm_id x) memberId) (team_members w))
      as [|row rows] eqn:E; [|now exists row, rows].
    assert (Hin : In m (filter (fun x => id_matches (tm_id x) memberId)
                          (team_members w)))
      by (apply filter_In; now split).
    rewrite E in Hin. destruct Hin. }
  destruct Hrows as (row & rows & Hrows).
  assert (Hup : uploaded
                = ((200, PhotoUploaded url),
                   {| team_members :=
                        setImageUrl id_matches memberId (Some url)
                          (team_members w);
                      objects :=
                        {| o_bucket := bucket; o_key := key;
                           o_body := decodeBase64 base64;
                           o_contentType := mime |} :: objects w |})).
  { subst uploaded. unfold postTeamPhoto.
    rewrite Hdata. cbn [negb orEmpty]. rewrite Hmatch, Hclient, Henv.
    cbn [negb]. cbv zeta. rewrite Hrows.
    unfold putObject. cbn [o_bucket o_key]. fold key.
    rewrite filter_all; [reflexivity|].
    intros o Ho. apply negb_true_iff. now apply Hfresh. }
  rewrite Hup. cbn [fst snd objects team_members].
  split; [reflexivity|]. split; [reflexivity|]. split; [reflexivity|].
  assert (Hurl : truthy url = true).
  { subst url. destruct base; reflexivity. }
  assert (Hdel : removed
                 = ((200, PhotoSuccess),
                    {| team_members :=
                         setImageUrl id_matches memberId None (team_members w);
                       objects := objects w |})).
  { subst removed. rewrite Hup. cbn [snd]. unfold deleteTeamPhoto.
    cbn [team_members objects].
    rewrite setImageUrl_matching, Hrows. cbn [map tm_image_url orNull].
    rewrite Hurl, Henv, Hbase, Hclient. cbn [andb].
    assert (Eurl : url = (base ++ lit "/") ++ key)
      by (subst url; now rewrite <- app_assoc).
    rewrite Eurl, startsWith_app, skipn_prefix, setImageUrl_twice.
    unfold deleteObject. cbn [filter]. unfold sameObject at 1.
    cbn [o_bucket o_key]. rewrite !jseqb_refl. cbn [andb negb].
    rewrite filter_all; [reflexivity|].
    intros o Ho. apply negb_true_iff. now apply Hfresh. }
  rewrite Hdel. repeat split; reflexivity.
Qed.

Lemma uploaded_photo_is_the_one_removed_witness :
  let env :=
    {| SPACES_REGION := Some (lit "nyc3");
       SPACES_ENDPOINT := Some (lit "https://nyc3.digitaloceanspaces.com");
       SPACES_KEY := Some (lit "key"); SPACES_SECRET := Some (lit "secret");
       SPACES_BUCKET := Some (lit "solar");
       SPACES_ORIGIN_URL := Some (lit "https://solar.cdn.example//") |} in
  let ada :=
    {| tm_id := 7; tm_name := lit "Ada"; tm_role := lit "Research";
       tm_image_url := None |} in
  let w := {| team_members := [ada]; objects := [] |} in
  let matches (rowId : Z) (param : jsstring) := JS.eqb (ofZ rowId) param in
  let uploaded :=
    postTeamPhoto matches (fun s => s) env (lit "7")
      (Some (lit "data:image/png;base64,iVBORw0KGgo=")) 1700000000000
      (lit "0a1b2c3d4e") true w in
  fst uploaded
  = (200,
     PhotoUploaded
       (lit "https://solar.cdn.example/team/member-7-1700000000000-0a1b2c3d4e.png"))
  /\ snd (deleteTeamPhoto matches env (lit "7") true (snd uploaded)) = w.
Proof.
  intros env ada w matches uploaded.
  destruct (uploaded_photo_is_the_one_removed matches (fun s => s) env
              (lit "7") (lit "data:image/png;base64,iVBORw0KGgo=")
              (lit "0a1b2c3d4e") (lit "solar")
              (lit "https://solar.cdn.example") (lit "image/png")
              (lit "iVBORw0KGgo=") 1700000000000 w)
    as (H1 & _ & _ & _ & H5 & H6).
  - reflexivity.
  - reflexivity.
  - reflexivity.
  - exists ada. split; [now left | reflexivity].
  - intros o [].
  - split; [exact H1|].
    fold uploaded in H5, H6.
    destruct (deleteTeamPhoto matches env (lit "7") true (snd uploaded))
      as [r w'].
    cbn [snd] in *. destruct w' as [tm objs]. cbn in H5, H6. subst.
    reflexivity.
Defined.


Lemma setImageUrl_no_match (id_matches : Z -> jsstring -> bool)
  (memberId : jsstring) (url : option jsstring) (members : list TeamMember) :
  (forall m, In m members -> id_matches (tm_id m) memberId = false) ->
  setImageUrl id_matches memberId url members = members.
Proof.
  intros H. unfold setImageUrl.
  rewrite <- (map_id members) at 2. apply map_ext_in.
  intros m Hm. now rewrite (H m Hm).
Qed.

(** X24. A photo uploaded for an id no member has is stored all the same.
    POST /api/admin/team/:id/photo with such an id leaves [team_members]
    as it is; it is answered 400 or 500 with the bucket untouched when the
    data URL does not parse or the object store is not configured or not
    reachable, and otherwise 404 with the image stored in the bucket under
    the new key. *)
Lemma photo_for_unknown_member_is_still_stored
  (id_matches : Z -> jsstring -> bool) (decodeBase64 : jsstring -> list N)
  (env : Env) (memberId : jsstring) (imageData : option jsstring)
  (now : Z) (hex : jsstring) (reachable : bool) (w : World) :
  (forall m, In m (team_members w) -> id_matches (tm_id m) memberId = false) ->
  let r := postTeamPhoto id_matches decodeBase64 env memberId imageData
             now hex reachable w in
  team_members (snd r) = team_members w
  /\ (((fst (fst r) = 400 \/ fst (fst r) = 500) /\ snd r = w)
      \/ (fst r = (404, PhotoError (lit "Team member not found."))
          /\ exists mime base64 bucket base,
               matchDataUrl (orEmpty imageData) = Some (mime, base64)
               /\ requireSpacesBucketAndPublicBase env = Some (bucket, base)
               /\ In {| o_bucket := bucket;
                        o_key := photoKey memberId now hex (guessImageExt mime);
                        o_body := decodeBase64 base64;
                        o_contentType := mime |} (objects (snd r)))).
Proof.
  intros Hnone r. subst r. unfold postTeamPhoto.
  destruct (negb (truthyOpt imageData));
    [split; [reflexivity | left; split; [now left | reflexivity]]|].
  destruct (matchDataUrl (orEmpty imageData)) as [[mime base64]|];
    [|split; [reflexivity | left; split; [now left | reflexivity]]].
  destruct (negb (buildSpacesClient env));
    [split; [reflexivity | left; split; [now right | reflexivity]]|].
  destruct (requireSpacesBucketAndPublicBase env) as [[bucket base]|];
    [|split; [reflexivity | left; split; [now right | reflexivity]]].
  cbv zeta.
  destruct (negb reachable);
    [split; [reflexivity | left; split; [now right | reflexivity]]|].
  rewrite (filter_none _ _ Hnone). cbn [List.length Z.of_nat Z.eqb fst snd].
  cbn [team_members objects].
  split; [now apply setImageUrl_no_match|].
  right. split; [reflexivity|].
  exists mime, base64, bucket, base.
  split; [reflexivity|]. split; [reflexivity|]. now left.
Qed.

Lemma photo_for_unknown_member_is_still_stored_witness :
  let env :=
    {| SPACES_REGION := Some (lit "nyc3");
       SPACES_ENDPOINT := Some (lit "https://nyc3.digitaloceanspaces.com");
       SPACES_KEY := Some (lit "key"); SPACES_SECRET := Some (lit "secret");
       SPACES_BUCKET := Some (lit "solar");
       SPACES_ORIGIN_URL := Some (lit "https://solar.cdn.example") |} in
  let w := {| team_members := []; objects := [] |} in
  let r :=
    postTeamPhoto (fun _ _ => false) (fun s => s) env (lit "99")
      (Some (lit "data:image/png;base64,iVBORw0KGgo=")) 1700000000000
      (lit "0a1b2c3d4e") true w in
  fst (fst r) = 404
  /\ team_members (snd r) = []
  /\ List.length (objects (snd r)) = 1%nat.
Proof.
  intros env w r. split; [reflexivity|].
  split; [|reflexivity].
  refine (proj1 (photo_for_unknown_member_is_still_stored
                   (fun _ _ => false) (fun s => s) env (lit "99")
                   (Some (lit "data:image/png;base64,iVBORw0KGgo="))
                   1700000000000 (lit "0a1b2c3d4e") true w _)).
  intros m [].
Defined.

(** X25. Removing a photo never fails because of the object store. For a
    member the id addresses, DELETE /api/admin/team/:id/photo is answered
    200 and clears [image_url], whatever the configuration and the state
    of the object store; the bucket gains nothing, and keeps every object
    of another bucket or under a key the stored URL does not end with. *)
Lemma photo_removal_always_clears_the_member
  (id_matches : Z -> jsstring -> bool) (env : Env) (memberId : jsstring)
  (reachable : bool) (w : World) (m : TeamMember) :
  In m (team_members w) -> id_matches (tm_id m) memberId = true ->
  let r := deleteTeamPhoto id_matches env memberId reachable w in
  fst r = (200, PhotoSuccess)
  /\ team_members (snd r)
     = setImageUrl id_matches memberId None (team_members w)
  /\ (forall o, In o (objects (snd r)) -> In o (objects w))
  /\ (forall o, In o (objects w) -> ~ In o (objects (snd r)) ->
        exists row front,
          In row (team_members w)
          /\ id_matches (tm_id row) memberId = true
          /\ tm_image_url row = Some (front ++ lit "/" ++ o_key o)
          /\ Some (o_bucket o) = SPACES_BUCKET env).
Proof.
  intros Hm Hid r. subst r. unfold deleteTeamPhoto.
  destruct (filter (fun x => id_matches (tm_id x) memberId) (team_members w))
    as [|row rows] eqn:Hrows.
  { assert (Hin : In m (filter (fun x => id_matches (tm_id x) memberId)
                          (team_members w)))
      by (apply filter_In; now split).
    rewrite Hrows in Hin. destruct Hin. }
  assert (Hrow : In row (team_members w)
                 /\ id_matches (tm_id row) memberId = true).
  { assert (Hin : In row (filter (fun x => id_matches (tm_id x) memberId)
                            (team_members w)))
      by (rewrite Hrows; now left).
    apply filter_In in Hin. exact Hin. }
  cbv zeta.
  assert (Hkept : forall objs : list StoredObject,
            (forall o, In o objs -> In o objs)
            /\ (forall o, In o objs -> ~ In o objs ->
                  exists row front,
                    In row (team_members w)
                    /\ id_matches (tm_id row) memberId = true
                    /\ tm_image_url row = Some (front ++ lit "/" ++ o_key o)
                    /\ Some (o_bucket o) = SPACES_BUCKET env)).
  { intros objs. split; [tauto|]. intros o H Hn. contradiction. }
  destruct (orNull (tm_image_url row)) as [currentUrl|] eqn:Hurl;
    [|cbn [fst snd team_members objects]; repeat split; apply Hkept].
  destruct (requireSpacesBucketAndPublicBase env) as [[bucket base]|] eqn:Henv;
    [|cbn [fst snd team_members objects]; repeat split; apply Hkept].
  destruct (startsWith (stripTrailingSlashes (Some base) ++ lit "/")
              currentUrl) eqn:Hstart;
    [|cbn [fst snd team_members objects]; repeat split; apply Hkept].
  destruct (buildSpacesClient env && reachable);
    [|cbn [fst snd team_members objects]; repeat split; apply Hkept].
  cbn [fst snd team_members objects].
  split; [reflexivity|]. split; [reflexivity|]. split.
  - intros o Ho. unfold deleteObject in Ho. apply filter_In in Ho. tauto.
  - intros o Ho Hn.
    assert (Hsame : sameObject bucket
                      (skipn (List.length
                                (stripTrailingSlashes (Some base) ++ lit "/"))
                         currentUrl) o = true).
    { destruct (sameObject bucket _ o) eqn:E; [reflexivity|].
      exfalso. apply Hn. unfold deleteObject. apply filter_In.
      split; [exact Ho|]. now rewrite E. }
    unfold sameObject in Hsame. apply andb_prop in Hsame.
    destruct Hsame as [Hb Hk]. apply jseqb_eq in Hb, Hk.
    exists row, (stripTrailingSlashes (Some base)).
    split; [tauto|]. split; [tauto|]. split.
    + apply startsWith_inv in Hstart. rewrite <- Hk in Hstart.
      rewrite <- app_assoc in Hstart.
      revert Hurl. unfold orNull.
      destruct (tm_image_url row) as [u|]; [|discriminate].
      destruct (truthy u); [|discriminate].
      intros [= ->]. now f_equal.
    + revert Henv. unfold requireSpacesBucketAndPublicBase.
      destruct (negb (truthyOpt (SPACES_BUCKET env))
                || negb (truthyOpt (SPACES_ORIGIN_URL env))) eqn:E;
        [discriminate|].
      intros [= <- _]. rewrite Hb.
      apply orb_false_elim in E. destruct E as [E _].
      apply negb_false_iff in E. unfold truthyOpt in E.
      destruct (SPACES_BUCKET env); [reflexivity | discriminate E].
Qed.

Lemma photo_removal_always_clears_the_member_witness :
  let env :=
    {| SPACES_REGION := None; SPACES_ENDPOINT := None;
       SPACES_KEY := None; SPACES_SECRET := None;
       SPACES_BUCKET := None; SPACES_ORIGIN_URL := None |} in
  let ada :=
    {| tm_id := 7; tm_name := lit "Ada"; tm_role := lit "Research";
       tm_image_url := Some (lit "https://elsewhere.example/ada.png") |} in
  let w := {| team_members := [ada]; objects := [] |} in
  let r := deleteTeamPhoto (fun rowId _ => rowId =? 7) env (lit "7") false w in
  fst r = (200, PhotoSuccess)
  /\ map tm_image_url (team_members (snd r)) = [None].
Proof.
  intros env ada w r.
  destruct (photo_removal_always_clears_the_member
              (fun rowId _ => rowId =? 7) env (lit "7") false w ada
              (or_introl eq_refl) eq_refl) as (H1 & H2 & _).
  fold r in H1, H2. split; [exact H1|]. rewrite H2. reflexivity.
Defined.


(* ================================================================== *)
(** * The login form against the login route *)
(* ================================================================== *)

(** X26. The two-step login, form and route together. For an account
    that is not protected and has a security question with a text, and a
    form holding its username and password and not yet asking for an
    answer: the first submit logs nobody in, shows the question and no
    error; after an answer is typed, the second submit logs the account
    in and clears the answer when [bcrypt.compare] accepts the answer, and
    otherwise shows [Incorrect security answer.] and logs nobody in. *)
Lemma login_form_two_step_login
  (bcrypt_compare : jsstring -> jsstring -> bool)
  (username_matches : jsstring -> jsstring -> bool)
  (db : Db) (st : LoginForm.LoginState) (user : AdminUser) (qid : Z)
  (question answer : jsstring) :
  let fetch body := Some (postLogin bcrypt_compare username_matches body db) in
  selectLoginUser username_matches db (LoginForm.username st)
  = [(user, Some question)] ->
  au_is_protected user = 0 ->
  au_security_question_id user = Some qid ->
  bcrypt_compare (LoginForm.password st) (au_password_hash user) = true ->
  truthy (LoginForm.username st) = true ->
  truthy (LoginForm.password st) = true ->
  truthy question = true ->
  truthy (trim answer) = true ->
  LoginForm.needsSecurity st = false ->
  LoginForm.loggedInUser st = None ->
  let asked := LoginForm.handleSubmit fetch st in
  let answered :=
    LoginForm.handleSubmit fetch
      (LoginForm.onSecurityAnswerChange answer asked) in
  LoginForm.loggedInUser asked = None
  /\ LoginForm.needsSecurity asked = true
  /\ LoginForm.securityQuestion asked = question
  /\ LoginForm.error asked = []
  /\ (if bcrypt_compare answer (orEmpty (au_security_answer_hash user))
      then LoginForm.loggedInUser answered
           = Some (LoginForm.ServerUser (au_id user) (au_username user) false
                     (questionOrNull (Some qid)))
           /\ LoginForm.needsSecurity answered = false
           /\ LoginForm.securityAnswer answered = []
           /\ LoginForm.error answered = []
      else LoginForm.loggedInUser answered = None
           /\ LoginForm.needsSecurity answered = true
           /\ LoginForm.error answered = lit "Incorrect security answer.").
Proof.
  intros fetch Hsel Hflag Hq Hpw Hu Hp Hqt Hans Hneeds Hnobody asked answered.
  pose proof (truthy_trim answer Hans) as Hans'.
  assert (Hfirst : asked
            = {| LoginForm.username := LoginForm.username st;
                 LoginForm.password := LoginForm.password st;
                 LoginForm.securityAnswer := LoginForm.securityAnswer st;
                 LoginForm.needsSecurity := true;
                 LoginForm.securityQuestion := question;
                 LoginForm.error := [];
                 LoginForm.loading := false;
                 LoginForm.loggedInUser := None |}).
  { subst asked. unfold LoginForm.handleSubmit.
    rewrite Hu, Hp, Hneeds. cbn [negb orb andb].
    unfold fetch, LoginForm.requestBody. rewrite Hneeds. cbn [andb].
    unfold postLogin. cbn [lb_username lb_password lb_securityAnswer].
    unfold truthyOpt. cbn [orEmpty]. rewrite Hu, Hp. cbn [negb orb].
    rewrite Hsel, Hpw, Hflag, Hq. cbn [negb Z.eqb andb truthy].
    cbn [LoginForm.ok res_status send Z.leb Z.compare Pos.compare
         Pos.compare_cont andb negb res_json orEmpty].
    unfold LoginForm.orElse. rewrite Hqt, Hnobody. reflexivity. }
  rewrite Hfirst. cbn [LoginForm.loggedInUser LoginForm.needsSecurity
                       LoginForm.securityQuestion LoginForm.error].
  do 4 (split; [reflexivity|]).
  subst answered. rewrite Hfirst.
  unfold LoginForm.onSecurityAnswerChange, LoginForm.handleSubmit.
  cbn [LoginForm.username LoginForm.password LoginForm.securityAnswer
       LoginForm.needsSecurity LoginForm.securityQuestion LoginForm.error
       LoginForm.loading LoginForm.loggedInUser truthy].
  rewrite Hu, Hp, Hans. cbn [negb orb andb].
  unfold fetch, LoginForm.requestBody.
  cbn [LoginForm.username LoginForm.password LoginForm.securityAnswer
       LoginForm.needsSecurity andb].
  rewrite Hans'.
  unfold postLogin. cbn [lb_username lb_password lb_securityAnswer].
  unfold truthyOpt. cbn [orEmpty]. rewrite Hu, Hp, Hans'. cbn [negb orb].
  rewrite Hsel, Hpw, Hflag, Hq. cbn [negb Z.eqb andb].
  destruct (bcrypt_compare answer (orEmpty (au_security_answer_hash user)));
    cbn [negb]; repeat split; reflexivity.
Qed.

Lemma login_form_two_step_login_witness :
  let compare (plain h : jsstring) := JS.eqb h (lit "hash:" ++ plain) in
  let editor :=
    {| au_id := 2; au_username := lit "editor";
       au_password_hash := lit "hash:hunter2";
       au_is_protected := 0; au_security_question_id := Some 3;
       au_security_answer_hash := Some (lit "hash:rex") |} in
  let db :=
    {| admin_users := [editor];
       security_questions :=
         [{| sq_id := 3; sq_question_text := lit "First pet?" |}];
       solar_events := []; next_event_id := 1 |} in
  let st :=
    {| LoginForm.username := lit "editor";
       LoginForm.password := lit "hunter2";
       LoginForm.securityAnswer := [];
       LoginForm.needsSecurity := false;
       LoginForm.securityQuestion := [];
       LoginForm.error := [];
       LoginForm.loading := false;
       LoginForm.loggedInUser := None |} in
  let fetch body := Some (postLogin compare JS.eqb body db) in
  let asked := LoginForm.handleSubmit fetch st in
  LoginForm.securityQuestion asked = lit "First pet?"
  /\ LoginForm.loggedInUser
       (LoginForm.handleSubmit fetch
          (LoginForm.onSecurityAnswerChange (lit "rex") asked))
     = Some (LoginForm.ServerUser 2 (lit "editor") false (Some 3)).
Proof.
  intros compare editor db st fetch asked.
  destruct (login_form_two_step_login compare JS.eqb db st editor 3
              (lit "First pet?") (lit "rex"))
    as (_ & _ & H3 & _ & H5); try reflexivity.
  split; [exact H3|]. exact (proj1 H5).
Defined.

(** X27. [joinUrl] joins with exactly one slash. Slashes at the end of
    the base and at the start of the path make no difference, the path
    part of the result never starts with a slash of its own, and an empty
    or missing base gives a path from the root. *)
Lemma join_url_ignores_slashes_at_the_joint (base path : jsstring) :
  LoginForm.joinUrl (Some (base ++ [slash])) (Some path)
  = LoginForm.joinUrl (Some base) (Some path)
  /\ LoginForm.joinUrl (Some base) (Some (slash :: path))
     = LoginForm.joinUrl (Some base) (Some path)
  /\ (exists b p,
        LoginForm.joinUrl (Some base) (Some path) = b ++ [slash] ++ p
        /\ (forall front, b <> front ++ [slash])
        /\ startsWith [slash] p = false
        /\ (exists slashes, base = b ++ slashes
                            /\ Forall (fun c => c = slash) slashes)
        /\ (exists slashes, path = slashes ++ p
                            /\ Forall (fun c => c = slash) slashes))
  /\ LoginForm.joinUrl None (Some path)
     = LoginForm.joinUrl (Some []) (Some path).
Proof.
  unfold LoginForm.joinUrl. cbn [orEmpty]. cbv zeta.
  split; [|split; [|split]].
  - rewrite rev_app_distr. cbn [rev app dropSlashes].
    now rewrite N.eqb_refl.
  - cbn [dropSlashes]. now rewrite N.eqb_refl.
  - exists (rev (dropSlashes (rev base))), (dropSlashes path).
    split; [now destruct (rev (dropSlashes (rev base)))|].
    split; [|split; [apply dropSlashes_no_leading_slash|split]].
    + intros front E. apply (f_equal (@rev char)) in E.
      rewrite rev_involutive, rev_app_distr in E. cbn [rev app] in E.
      pose proof (dropSlashes_no_leading_slash (rev base)) as H.
      rewrite E in H. cbn [startsWith] in H.
      rewrite N.eqb_refl in H. discriminate.
    + destruct (dropSlashes_split (rev base)) as (slashes & E & H).
      exists (rev slashes). split; [|now apply Forall_rev].
      rewrite <- (rev_involutive base), E at 1. now rewrite rev_app_distr.
    + apply dropSlashes_split.
  - reflexivity.
Qed.


(* ================================================================== *)
(** * The About page editor *)
(* ================================================================== *)

Import AboutEditor.

Lemma renumberFrom_length (i : Z) (l : list AboutSection) :
  List.length (renumberFrom i l) = List.length l.
Proof.
  revert i. induction l as [|s l IH]; intros i; [reflexivity|].
  cbn [renumberFrom List.length]. now rewrite IH.
Qed.

Lemma renumberFrom_nth (l : list AboutSection) :
  forall i k,
    nth_error (renumberFrom i l) k
    = option_map (withOrder (i + Z.of_nat k)) (nth_error l k).
Proof.
  induction l as [|s l IH]; intros i k.
  - now destruct k.
  - destruct k as [|k]; cbn [renumberFrom nth_error option_map].
    + now rewrite Z.add_0_r.
    + rewrite IH. now replace (i + 1 + Z.of_nat k) with (i + Z.of_nat (S k))
        by lia.
Qed.

Lemma renumberFrom_forget (n : Z) (l : list AboutSection) :
  forall i, map (withOrder n) (renumberFrom i l) = map (withOrder n) l.
Proof.
  induction l as [|s l IH]; intros i; [reflexivity|].
  cbn [renumberFrom map]. now rewrite IH.
Qed.

Lemma renumberFrom_idem (l : list AboutSection) :
  forall i, renumberFrom i (renumberFrom i l) = renumberFrom i l.
Proof.
  induction l as [|s l IH]; intros i; [reflexivity|].
  cbn [renumberFrom]. now rewrite IH.
Qed.

Lemma renumberFrom_filter (p : AboutSection -> bool) (l : list AboutSection) :
  (forall n s, p (withOrder n s) = p s) ->
  forall i, Forall (fun s => p s = true) l ->
            filter p (renumberFrom i l) = renumberFrom i l
            /\ filter (fun s => negb (p s)) (renumberFrom i l) = [].
Proof.
  intros Hp. induction l as [|s l IH]; intros i Hall; [now split|].
  inversion Hall as [|? ? Hs Hl]; subst.
  cbn [renumberFrom filter]. rewrite Hp, Hs. cbn [negb].
  destruct (IH (i + 1) Hl) as [-> ->]. now split.
Qed.

Lemma renumberFrom_increasing (l : list AboutSection) :
  forall i,
    StronglySorted (fun a b => s_displayOrder a <= s_displayOrder b)
      (renumberFrom i l)
    /\ Forall (fun s => i <= s_displayOrder s) (renumberFrom i l).
Proof.
  induction l as [|s l IH]; intros i; cbn [renumberFrom].
  - split; constructor.
  - destruct (IH (i + 1)) as [Hs Hb]. split.
    + constructor; [exact Hs|].
      eapply Forall_impl; [|exact Hb]. cbn. intros; lia.
    + constructor; [cbn; lia|].
      eapply Forall_impl; [|exact Hb]. cbn. intros; lia.
Qed.

Lemma insertSection_last (x : AboutSection) (acc : list AboutSection) :
  Forall (fun a => s_displayOrder a <= s_displayOrder x) acc ->
  insertSection x acc = acc ++ [x].
Proof.
  induction 1 as [|a acc Ha _ IH]; [reflexivity|].
  cbn [insertSection app].
  destruct (Z.ltb_spec (s_displayOrder x) (s_displayOrder a)); [lia|].
  now rewrite IH.
Qed.

Lemma sortByOrder_sorted (l : list AboutSection) :
  StronglySorted (fun a b => s_displayOrder a <= s_displayOrder b) l ->
  sortByOrder l = l.
Proof.
  unfold sortByOrder.
  assert (H : forall l acc,
    StronglySorted (fun a b => s_displayOrder a <= s_displayOrder b)
      (acc ++ l) ->
    fold_left (fun a x => insertSection x a) l acc = acc ++ l).
  { induction l0 as [|x l0 IH]; intros acc Hs; cbn [fold_left].
    - now rewrite app_nil_r.
    - rewrite insertSection_last.
      + rewrite IH; rewrite <- app_assoc; [reflexivity | exact Hs].
      + clear IH. induction acc as [|a acc IHa]; [constructor|].
        cbn [app] in Hs. inversion Hs as [|? ? Hs' Ha]; subst.
        constructor; [|now apply IHa].
        rewrite Forall_forall in Ha. apply Ha.
        apply in_or_app. right. now left. }
  intros Hs. now apply (H l []).
Qed.

Lemma insertSection_permutation (x : AboutSection) (l : list AboutSection) :
  Permutation (insertSection x l) (x :: l).
Proof.
  induction l as [|z l IH]; cbn [insertSection]; [reflexivity|].
  destruct (s_displayOrder x <? s_displayOrder z); [reflexivity|].
  rewrite IH. apply perm_swap.
Qed.

Lemma sortByOrder_permutation (l : list AboutSection) :
  Permutation (sortByOrder l) l.
Proof.
  unfold sortByOrder.
  assert (H : forall l acc,
    Permutation (fold_left (fun a x => insertSection x a) l acc) (l ++ acc)).
  { induction l0 as [|y l0 IH]; intros acc; cbn [fold_left app];
      [reflexivity|].
    rewrite IH, insertSection_permutation. symmetry.
    apply Permutation_middle. }
  rewrite H. now rewrite app_nil_r.
Qed.

Lemma sortByOrder_all (P : AboutSection -> Prop) (l : list AboutSection) :
  Forall P l -> Forall P (sortByOrder l).
Proof.
  intros H. rewrite Forall_forall in *. intros s Hs. apply H.
  now apply (Permutation_in _ (sortByOrder_permutation l)).
Qed.

Lemma filter_holds {A : Type} (p : A -> bool) (l : list A) :
  Forall (fun x => p x = true) (filter p l).
Proof.
  apply Forall_forall. intros x Hx. apply filter_In in Hx. tauto.
Qed.

Lemma ordered_intro (a d : list AboutSection) :
  Forall (fun s => isActive s = true) a ->
  Forall (fun s => s_isDeleted s = true) d ->
  filter isActive (renumber a ++ d) = renumber a
  /\ filter s_isDeleted (renumber a ++ d) = d
  /\ ordered (renumber a ++ d).
Proof.
  intros Ha Hd.
  destruct (renumberFrom_filter isActive a (fun _ _ => eq_refl) 1 Ha)
    as [H1 H2].
  assert (H3 : filter s_isDeleted (renumber a) = []).
  { unfold renumber. rewrite <- H2. apply filter_ext. intros s.
    unfold isActive. now rewrite negb_involutive. }
  assert (H4 : filter isActive d = []).
  { apply filter_none. intros s Hs. rewrite Forall_forall in Hd.
    unfold isActive. now rewrite (Hd s Hs). }
  assert (H5 : filter s_isDeleted d = d).
  { apply filter_all. now apply Forall_forall. }
  assert (Hact : filter isActive (renumber a ++ d) = renumber a).
  { rewrite filter_app, H4, app_nil_r. exact H1. }
  assert (Hdel : filter s_isDeleted (renumber a ++ d) = d).
  { now rewrite filter_app, H3, H5. }
  split; [exact Hact|]. split; [exact Hdel|].
  unfold ordered. rewrite Hact, Hdel. unfold renumber.
  now rewrite renumberFrom_idem.
Qed.


Lemma findIndex_found (p : AboutSection -> bool) (l : list AboutSection)
  (s : AboutSection) :
  In s l -> p s = true ->
  exists idx item,
    findIndex p l = Some idx /\ nth_error l idx = Some item /\ p item = true.
Proof.
  intros Hin Hp. induction l as [|x l IH]; [destruct Hin|].
  cbn [findIndex]. destruct (p x) eqn:Ex.
  - exists 0%nat, x. repeat split; assumption.
  - destruct Hin as [->|Hin]; [congruence|].
    destruct (IH Hin) as (idx & item & -> & Hn & Hi).
    exists (S idx), item. repeat split; assumption.
Qed.

Lemma removeAt_length (idx : nat) (l : list AboutSection) :
  (idx < List.length l)%nat ->
  S (List.length (removeAt idx l)) = List.length l.
Proof.
  intros H. unfold removeAt.
  rewrite length_app, firstn_length_le, length_skipn by lia. lia.
Qed.

Lemma insertAt_nth (k : nat) (x : AboutSection) (l : list AboutSection) :
  (k <= List.length l)%nat -> nth_error (insertAt k x l) k = Some x.
Proof.
  intros H. unfold insertAt.
  rewrite nth_error_app2; rewrite firstn_length_le by lia; [|lia].
  now rewrite Nat.sub_diag.
Qed.

Lemma removeAt_insertAt (k : nat) (x : AboutSection) (l : list AboutSection) :
  (k <= List.length l)%nat -> removeAt k (insertAt k x l) = l.
Proof.
  intros H. unfold removeAt, insertAt.
  assert (Hk : List.length (firstn k l) = k) by (apply firstn_length_le; lia).
  rewrite firstn_app, Hk, Nat.sub_diag. cbn [firstn].
  rewrite app_nil_r, firstn_firstn, Nat.min_id.
  rewrite skipn_app, Hk.
  rewrite (skipn_all2 (n := S k) (firstn k l)) by lia.
  replace (S k - k)%nat with 1%nat by lia. cbn [skipn app].
  apply firstn_skipn.
Qed.

Lemma insertAt_map (f : AboutSection -> AboutSection) (k : nat)
  (x : AboutSection) (l : list AboutSection) :
  map f (insertAt k x l) = insertAt k (f x) (map f l).
Proof.
  unfold insertAt. now rewrite map_app, firstn_map, skipn_map.
Qed.

Lemma moved_all (P : AboutSection -> Prop) (k idx : nat) (x : AboutSection)
  (l : list AboutSection) :
  Forall P l -> P x -> Forall P (insertAt k x (removeAt idx l)).
Proof.
  intros Hl Hx. rewrite Forall_forall in *. intros s Hs.
  unfold insertAt, removeAt in Hs.
  apply in_app_or in Hs. destruct Hs as [Hs|[<-|Hs]]; [|exact Hx|].
  - apply firstn_subset in Hs. apply in_app_or in Hs.
    destruct Hs as [Hs|Hs]; apply Hl.
    + now apply firstn_subset in Hs.
    + rewrite <- (firstn_skipn (S idx) l). apply in_or_app. now right.
  - assert (Hs' : In s (firstn idx l ++ skipn (S idx) l)).
    { rewrite <- (firstn_skipn k (firstn idx l ++ skipn (S idx) l)).
      apply in_or_app. now right. }
    apply in_app_or in Hs'. destruct Hs' as [Hs'|Hs']; apply Hl.
    + now apply firstn_subset in Hs'.
    + rewrite <- (firstn_skipn (S idx) l). apply in_or_app. now right.
Qed.

(** X28. Changing the order of an About section moves that section and
    nothing else. For a positive new order and a section of the list that
    is not deleted: the section takes the requested position, or the last
    one if the request is beyond it; the sections not deleted then come
    first, numbered 1, 2, ... in list order, with the others in the order
    they had; the deleted sections follow, unchanged. *)
Lemma about_reorder_moves_one_section (localId : jsstring) (newOrder : Z)
  (prev : list AboutSection) :
  0 < newOrder ->
  (exists s, In s prev /\ s_isDeleted s = false
             /\ hasLocalId localId s = true) ->
  let active := sortByOrder (filter isActive prev) in
  let n := Z.of_nat (List.length active) in
  let position := Z.min newOrder n in
  let result := applyAboutOrderChange localId (Some newOrder) prev in
  exists idx item,
    findIndex (hasLocalId localId) active = Some idx
    /\ nth_error active idx = Some item
    /\ hasLocalId localId item = true
    /\ 1 <= position <= n
    /\ nth_error result (Z.to_nat (position - 1))
       = Some (withOrder position item)
    /\ ordered result
    /\ List.length (filter isActive result) = List.length active
    /\ (forall j s, nth_error (filter isActive result) j = Some s ->
                    s_displayOrder s = Z.of_nat j + 1)
    /\ removeAt (Z.to_nat (position - 1))
         (map (withOrder 0) (filter isActive result))
       = map (withOrder 0) (removeAt idx active)
    /\ filter s_isDeleted result = filter s_isDeleted prev.
Proof.
  intros Hpos (s & Hin & Hdel & Hlid) active n position result.
  assert (Hall : Forall (fun x => isActive x = true) active).
  { apply sortByOrder_all, filter_holds. }
  assert (Hs : In s active).
  { apply (Permutation_in _ (Permutation_sym (sortByOrder_permutation _))).
    apply filter_In. split; [exact Hin|]. unfold isActive. now rewrite Hdel. }
  destruct (findIndex_found _ _ s Hs Hlid) as (idx & item & Hfind & Hnth & Hitem).
  exists idx, item.
  assert (Hidx : (idx < List.length active)%nat).
  { apply nth_error_Some. congruence. }
  pose proof (removeAt_length idx active Hidx) as Hrest.
  assert (Hclamp : Z.max 1 (Z.min newOrder
                      (Z.of_nat (List.length (removeAt idx active)) + 1))
                   = position).
  { subst position n. lia. }
  assert (Hbound : 1 <= position <= n) by (subst position n; lia).
  set (k := Z.to_nat (position - 1)).
  assert (Hk : (k <= List.length (removeAt idx active))%nat)
    by (subst k n; lia).
  set (moved := insertAt k item (removeAt idx active)).
  assert (Hres : result = renumber moved ++ filter s_isDeleted prev).
  { subst result. unfold applyAboutOrderChange.
    destruct (Z.leb_spec newOrder 0); [lia|]. cbv zeta. fold active.
    rewrite Hfind, Hnth, Hclamp. reflexivity. }
  assert (Hmoved : Forall (fun x => isActive x = true) moved).
  { apply moved_all; [exact Hall|].
    rewrite Forall_forall in Hall. apply Hall.
    eapply nth_error_In. exact Hnth. }
  destruct (ordered_intro moved (filter s_isDeleted prev) Hmoved
              (filter_holds _ _)) as (Hact & Hdeleted & Hord).
  rewrite Hres, Hact, Hdeleted.
  split; [exact Hfind|]. split; [exact Hnth|]. split; [exact Hitem|].
  split; [exact Hbound|].
  assert (Hlen : List.length moved = List.length active).
  { subst moved. unfold insertAt.
    rewrite length_app. cbn [List.length].
    rewrite firstn_length_le, length_skipn by lia. lia. }
  split.
  { rewrite nth_error_app1
      by (unfold renumber; rewrite renumberFrom_length, Hlen; subst k n; lia).
    unfold renumber. rewrite renumberFrom_nth.
    subst moved. rewrite insertAt_nth by exact Hk. cbn [option_map].
    do 2 f_equal. subst k. lia. }
  split; [exact Hord|].
  split; [unfold renumber; now rewrite renumberFrom_length|].
  split.
  { intros j x Hx. unfold renumber in Hx. rewrite renumberFrom_nth in Hx.
    destruct (nth_error moved j); [|discriminate].
    cbn [option_map] in Hx. injection Hx as <-.
    transitivity (1 + Z.of_nat j); [reflexivity | lia]. }
  split; [|reflexivity].
  unfold renumber. rewrite renumberFrom_forget. subst moved.
  rewrite insertAt_map, removeAt_insertAt; [reflexivity|].
  now rewrite length_map.
Qed.

Lemma about_reorder_moves_one_section_witness :
  let sec name order deleted :=
    {| s_localId := name; s_id := Some order; s_title := name;
       s_text := lit "text"; s_displayOrder := order; s_isNew := false;
       s_isDeleted := deleted |} in
  map (fun s => (s_localId s, s_displayOrder s))
    (applyAboutOrderChange (lit "c") (Some 1)
       [sec (lit "a") 1 false; sec (lit "b") 2 false; sec (lit "x") 9 true; sec (lit "c") 3 false])
  = [(lit "c", 1); (lit "a", 2); (lit "b", 3); (lit "x", 9)].
Proof.
  intros sec.
  destruct (about_reorder_moves_one_section (lit "c") 1
              [sec (lit "a") 1 false; sec (lit "b") 2 false; sec (lit "x") 9 true;
               sec (lit "c") 3 false])
    as (idx & item & _ & _ & _ & _ & _ & Hord & _).
  - lia.
  - exists (sec (lit "c") 3 false). split; [cbn; tauto|]. split; reflexivity.
  - rewrite Hord. reflexivity.
Defined.


Lemma renumberFrom_members (l : list AboutSection) :
  forall i s,
    In s (renumberFrom i l) <->
    exists n s', s = withOrder n s' /\ In s' l
                 /\ nth_error l (Z.to_nat (n - i)) = Some s' /\ i <= n.
Proof.
  induction l as [|x l IH]; intros i s; cbn [renumberFrom In].
  - split; [tauto | intros (n & s' & _ & [] & _)].
  - rewrite IH. split.
    + intros [<-|(n & s' & -> & Hin & Hn & Hi)].
      * exists i, x. rewrite Z.sub_diag. repeat split; auto. lia.
      * exists n, s'. repeat split; auto; [|lia].
        replace (Z.to_nat (n - i)) with (S (Z.to_nat (n - (i + 1)))) by lia.
        exact Hn.
    + intros (n & s' & -> & Hin & Hn & Hi).
      destruct (Z.eq_dec n i) as [->|Hne].
      * rewrite Z.sub_diag in Hn. cbn in Hn. injection Hn as ->. now left.
      * right. exists n, s'.
        replace (Z.to_nat (n - i)) with (S (Z.to_nat (n - (i + 1)))) in Hn
          by lia.
        cbn [nth_error] in Hn. repeat split; auto; [|lia].
        eapply nth_error_In. exact Hn.
Qed.

Lemma withOrder_own (s : AboutSection) : withOrder (s_displayOrder s) s = s.
Proof. now destruct s. Qed.

(** X29. Deleting an About section marks a stored section and drops an
    unsaved one. After [handleAboutDelete] the sections not deleted come
    first, numbered from 1, then the deleted ones; a section with the
    given local id is left only if it is stored, and then marked deleted;
    every other section is still there, up to its number; and on a list
    in that layout, adding a section and deleting it again gives the list
    back. *)
Lemma about_delete_marks_stored_and_drops_unsaved (localId : jsstring)
  (prev : list AboutSection) :
  let result := handleAboutDelete localId prev in
  ordered result
  /\ (forall s, In s result -> hasLocalId localId s = true ->
        s_isDeleted s = true /\ hasId s = true)
  /\ (forall s, In s prev -> hasLocalId localId s = true -> hasId s = true ->
        In (markDeleted s) result)
  /\ (forall s, In s prev -> hasLocalId localId s = false ->
        exists n, In (withOrder n s) result)
  /\ (ordered prev ->
      (forall s, In s prev -> hasLocalId localId s = false) ->
      handleAboutDelete localId (handleAddAboutSection localId prev) = prev).
Proof.
  cbv zeta. unfold handleAboutDelete.
  set (keep := fun s => negb (hasLocalId localId s) && negb (s_isDeleted s)).
  set (mark := fun s =>
         if hasLocalId localId s
         then if hasId s then [markDeleted s] else []
         else if s_isDeleted s then [s] else []).
  assert (Hkeep : forall l, Forall (fun s => isActive s = true)
                              (sortByOrder (filter keep l))).
  { intros l. apply sortByOrder_all, Forall_forall. intros s Hs.
    apply filter_In in Hs. destruct Hs as [_ Hs]. unfold keep in Hs.
    apply andb_prop in Hs. unfold isActive. tauto. }
  assert (Hmark : forall l s, In s (flat_map mark l) ->
            s_isDeleted s = true
            /\ (hasLocalId localId s = true -> hasId s = true)).
  { intros l s Hs. apply in_flat_map in Hs. destruct Hs as (x & _ & Hs).
    unfold mark in Hs. destruct (hasLocalId localId x) eqn:Ex.
    - destruct (hasId x) eqn:Ei; [|destruct Hs].
      destruct Hs as [<-|[]]. split; [reflexivity|]. intros _. exact Ei.
    - destruct (s_isDeleted x) eqn:Ed; [|destruct Hs].
      destruct Hs as [<-|[]]. split; [exact Ed | congruence]. }
  split; [|split; [|split; [|split]]].
  - apply ordered_intro; [apply Hkeep|].
    apply Forall_forall. intros s Hs. now apply (Hmark prev).
  - intros s Hs Hlid. apply in_app_or in Hs. destruct Hs as [Hs|Hs].
    + exfalso. apply renumberFrom_members in Hs.
      destruct Hs as (n & s' & -> & Hs' & _).
      apply (Permutation_in _ (sortByOrder_permutation _)) in Hs'.
      apply filter_In in Hs'. destruct Hs' as [_ Hs']. unfold keep in Hs'.
      apply andb_prop in Hs'. destruct Hs' as [Hs' _].
      change (hasLocalId localId (withOrder n s'))
        with (hasLocalId localId s') in Hlid.
      rewrite Hlid in Hs'. discriminate.
    + destruct (Hmark prev s Hs) as [H1 H2]. auto.
  - intros s Hs Hlid Hid. apply in_or_app. right.
    apply in_flat_map. exists s. split; [exact Hs|].
    unfold mark. rewrite Hlid, Hid. now left.
  - intros s Hs Hlid. destruct (s_isDeleted s) eqn:Ed.
    + exists (s_displayOrder s). rewrite withOrder_own.
      apply in_or_app. right. apply in_flat_map. exists s.
      split; [exact Hs|]. unfold mark. rewrite Hlid, Ed. now left.
    + assert (Hin : In s (sortByOrder (filter keep prev))).
      { apply (Permutation_in _
                 (Permutation_sym (sortByOrder_permutation _))).
        apply filter_In. split; [exact Hs|]. unfold keep.
        now rewrite Hlid, Ed. }
      apply In_nth_error in Hin. destruct Hin as (j & Hj).
      exists (1 + Z.of_nat j). apply in_or_app. left.
      apply renumberFrom_members. exists (1 + Z.of_nat j), s.
      split; [reflexivity|]. split; [eapply nth_error_In; exact Hj|].
      split; [|lia].
      replace (Z.to_nat (1 + Z.of_nat j - 1)) with j by lia. exact Hj.
  - intros Hord Hfresh. unfold handleAddAboutSection. cbv zeta.
    rewrite filter_app, flat_map_app. cbn [filter flat_map].
    assert (Hnew : forall n,
              hasLocalId localId
                {| s_localId := localId; s_id := None; s_title := [];
                   s_text := []; s_displayOrder := n; s_isNew := true;
                   s_isDeleted := false |} = true)
      by (intros n; apply jseqb_refl).
    unfold keep at 2. unfold mark at 2. rewrite !Hnew.
    cbn [negb andb hasId s_id app]. rewrite !app_nil_r.
    assert (Hk : filter keep prev = filter isActive prev).
    { apply filter_ext_in. intros s Hs. unfold keep, isActive.
      now rewrite (Hfresh s Hs). }
    assert (Hm : flat_map mark prev = filter s_isDeleted prev).
    { clear Hord Hk. induction prev as [|s l IH]; [reflexivity|].
      cbn [flat_map filter]. rewrite IH
        by (intros x Hx; apply Hfresh; now right).
      unfold mark at 1. rewrite (Hfresh s (or_introl eq_refl)).
      now destruct (s_isDeleted s). }
    rewrite Hk, Hm.
    set (A := filter isActive prev) in *.
    set (D := filter s_isDeleted prev) in *.
    assert (HA : A = renumber A).
    { destruct (ordered_intro A D (filter_holds _ _) (filter_holds _ _))
        as (H1 & _ & _).
      unfold ordered in Hord. fold A in Hord. fold D in Hord.
      rewrite <- Hord in H1. exact H1. }
    rewrite sortByOrder_sorted.
    + unfold ordered in Hord. fold A in Hord. fold D in Hord.
      now symmetry.
    + rewrite HA. apply renumberFrom_increasing.
Qed.

Example about_add_then_delete :
  let sec name i order deleted :=
    {| s_localId := name; s_id := Some i; s_title := name;
       s_text := lit "text"; s_displayOrder := order; s_isNew := false;
       s_isDeleted := deleted |} in
  let prev :=
    [sec (lit "a") 4 1 false; sec (lit "b") 5 2 false; sec (lit "x") 6 9 true] in
  s_displayOrder (last (handleAddAboutSection (lit "new-1") prev)
                    (sec [] 0 0 false)) = 3
  /\ handleAboutDelete (lit "new-1") (handleAddAboutSection (lit "new-1") prev)
     = prev
  /\ map (fun s => (s_localId s, s_displayOrder s, s_isDeleted s))
       (handleAboutDelete (lit "a") prev)
     = [(lit "b", 1, false); (lit "a", 1, true); (lit "x", 9, true)].
Proof. repeat split; reflexivity. Qed.


(* ================================================================== *)
(** * The editor's validation against the event routes *)
(* ================================================================== *)

(** X30. A form that passes the editor's validation is not refused for a
    missing field. For a form whose date was made by the date field and
    which passes [validateEventForm]: the body Save sends passes the check
    of POST /api/admin/events, so the answer is never 400; the row the
    route builds has a date of the form YYYY-MM-DD, the type as typed, the
    trimmed title and the trimmed summary, so it meets the NOT NULL flags
    of the documented table; and the route answers 201 with the next id
    and appends that row when the database takes it, and 500 with nothing
    stored when it does not. Whether a date or a text fits its column is
    not part of the validation. *)
Lemma validated_form_has_no_missing_field
  (solar_events_accepts : EventRow -> bool) (form : EventForm) (db : Db) :
  editorDate (date form) ->
  snd (validateEventForm form) = true ->
  let body := bodyOfPayload (buildPayload form) in
  let newId := next_event_id db in
  let row := eventRowOf newId body in
  truthyOpt (b_event_date body) = true
  /\ truthyOpt (b_title body) = true
  /\ (exists iso, ev_event_date row = Some iso /\ testIsoDate iso = true)
  /\ ev_event_type row = Some (event_type form)
  /\ ev_title row = Some (trim (title form))
  /\ ev_summary row = Some (trim (summary form))
  /\ documentedNotNull row = true
  /\ postEvent solar_events_accepts body db
     = (if solar_events_accepts row
        then (send 201 (CreatedJson newId),
              withEvents db (solar_events db ++ [row]) (newId + 1))
        else (send 500 (ErrorJson (lit "Failed to create event")), db)).
Proof.
  intros Hed Hv body newId row.
  rewrite validate_verdict in Hv. rewrite !andb_true_iff in Hv.
  destruct Hv as ((((((Hd & Hty) & Hlo) & Hti) & Hsh) & Hsu) & Him).
  unfold isValidDate in Hd. rewrite (editorDate_trim _ Hed) in Hd.
  destruct (testDisplayDate_inv _ Hd)
    as (m1 & m2 & d1 & d2 & y1 & y2 & y3 & y4 & E & Hdig).
  pose proof (buildIsoDate_display _ _ _ _ _ _ _ _ Hdig) as Hiso.
  rewrite <- E in Hiso.
  assert (Hdate : ev_event_date row
                  = Some [y1; y2; y3; y4; dash; m1; m2; dash; d1; d2]).
  { subst row body. cbn [eventRowOf ev_event_date bodyOfPayload b_event_date
                         buildPayload p_event_date]. exact Hiso. }
  assert (Htitle : ev_title row = Some (trim (title form))) by reflexivity.
  assert (Htype : ev_event_type row = Some (event_type form)).
  { subst row body. cbn [eventRowOf ev_event_type bodyOfPayload b_event_type
                         buildPayload p_event_type].
    unfold orNull. rewrite (truthy_trim _ Hty).
    now rewrite (truthy_trim _ Hty). }
  assert (Hsummary : ev_summary row = Some (trim (summary form))).
  { subst row body. cbn [eventRowOf ev_summary bodyOfPayload b_summary
                         buildPayload p_summary].
    unfold orNull. now rewrite Hsu. }
  assert (Hbd : truthyOpt (b_event_date body) = true).
  { subst body. cbn [bodyOfPayload b_event_date buildPayload p_event_date].
    now rewrite Hiso. }
  assert (Hbt : truthyOpt (b_title body) = true).
  { subst body. cbn [bodyOfPayload b_title buildPayload p_title].
    unfold truthyOpt. cbn [orEmpty]. exact Hti. }
  split; [exact Hbd|]. split; [exact Hbt|]. split.
  { eexists. split; [exact Hdate|]. forall_digits.
    cbn [testIsoDate].
    repeat match goal with
           | H : isDigit ?c = true |- context [isDigit ?c] => rewrite H
           end.
    now rewrite !N.eqb_refl. }
  split; [exact Htype|]. split; [exact Htitle|]. split; [exact Hsummary|].
  split.
  - unfold documentedNotNull. now rewrite Hdate, Htype, Htitle, Hsummary.
  - unfold postEvent. rewrite Hbd, Hbt. reflexivity.
Qed.

Lemma validated_form_has_no_missing_field_witness :
  let form :=
    {| date := handleDateInputChange [] (lit "09011859");
       event_type := lit "Geomagnetic storm";
       location := lit "Worldwide";
       title := lit " Carrington Event ";
       short_description := lit "The largest storm on record.";
       summary := lit "Telegraph lines failed.";
       impact_on_communication := lit "Telegraph outages." |} in
  let db :=
    {| admin_users := []; security_questions := [];
       solar_events := []; next_event_id := 5 |} in
  let row := eventRowOf 5 (bodyOfPayload (buildPayload form)) in
  ev_title row = Some (lit "Carrington Event")
  /\ fst (postEvent (fun _ => false) (bodyOfPayload (buildPayload form)) db)
     = send 500 (ErrorJson (lit "Failed to create event"))
  /\ fst (postEvent documentedNotNull (bodyOfPayload (buildPayload form)) db)
     = send 201 (CreatedJson 5).
Proof.
  intros form db row.
  assert (Hed : editorDate (date form))
    by (apply date_after_input, date_of_new_event).
  destruct (validated_form_has_no_missing_field (fun _ => false) form db
              Hed eq_refl) as (_ & _ & _ & _ & Ht & _ & _ & Hrefused).
  destruct (validated_form_has_no_missing_field documentedNotNull form db
              Hed eq_refl) as (_ & _ & _ & _ & _ & _ & Hnn & Htaken).
  split; [exact Ht|]. split.
  - rewrite Hrefused. reflexivity.
  - rewrite Htaken. fold row. cbv zeta in Hnn. rewrite Hnn. reflexivity.
Defined.

(** The validation checks the shape of the date only: 13/45/1859 passes,
    and Save sends 1859-13-45. *)
Example validation_takes_a_date_that_is_no_day :
  let form :=
    {| date := handleDateInputChange [] (lit "13451859");
       event_type := lit "Geomagnetic storm";
       location := lit "Worldwide";
       title := lit "Carrington Event";
       short_description := lit "The largest storm on record.";
       summary := lit "Telegraph lines failed.";
       impact_on_communication := lit "Telegraph outages." |} in
  date form = lit "13/45/1859"
  /\ snd (validateEventForm form) = true
  /\ p_event_date (buildPayload form) = Some (lit "1859-13-45").
Proof. repeat split; reflexivity. Qed.
